(** * MM-Config-Mgr: template extraction, config assembly and the
      backup / apply / verify / rollback transaction of [mm_config_mgr.py].

    The development is a shallow embedding of the Python source.

    - A Python [str] is a sequence of Unicode code points: [char] is a code
      point and [str] a list of them.
    - Files are a finite map from the fixed paths of the program to their
      text; every write is also appended to a log, so that statements about
      how often and in which order a file is written can be made.
    - Python exceptions, including the [SystemExit] raised by [exit(1)], are
      an explicit outcome of every effectful function.
    - Console output ([print]) is not part of the model.
    - Every entity name denotes a template, a README and a sample file of
      its own; names that would meet in one path are not modelled.
    - A file of the map holds text, the one its bytes decode to, and lies
      in a directory that exists: reading a file that exists and writing
      any file succeed.  A file that cannot be decoded, and a write into a
      missing directory, are outside the worlds of the model; the one place
      where the program itself asks for a directory, the test of [MM_HOME]
      in [main], has the failing copy written out.
    - What comes from outside is an argument: the answers typed at the
      prompts, the number entered at a selection, the outcome of the [pm2]
      commands, and the entries of the modules directory. *)

From stdpp Require Import gmap list strings sorting.
From Stdlib Require Import ZArith Lia.

Set Default Proof Using "Type".
Local Open Scope Z_scope.

(** ** Text *)

Module Text.

Definition char := N.
Abbreviation str := (list N).

(** The code points of a literal written in the source. *)
Fixpoint lit (s : string) : str :=
  match s with
  | EmptyString => []
  | String a r => Ascii.N_of_ascii a :: lit r
  end.

Definition nl : char := 10%N.
Definition comma : char := 44%N.
Definition lbrace : char := 123%N.
Definition rbrace : char := 125%N.
Definition dquote : char := 34%N.
Definition squote : char := 39%N.

(** Python's Unicode whitespace ([str.isspace], the class [\s] of [re] on
    [str] patterns, and the characters removed by [str.rstrip()]). *)
Definition is_space (c : char) : bool :=
  ((9 <=? c) && (c <=? 13) || (28 <=? c) && (c <=? 32)
   || (c =? 133) || (c =? 160) || (c =? 5760)
   || (8192 <=? c) && (c <=? 8202)
   || (c =? 8232) || (c =? 8233) || (c =? 8239) || (c =? 8287)
   || (c =? 12288))%N.

(** The character class of the declaration pattern: a double or a single
    quote. *)
Definition is_quote (c : char) : bool := ((c =? dquote) || (c =? squote))%N.

(** [text.split('\n')]: never empty, one more item than separators. *)
Fixpoint split (sep : char) (s : str) : list str :=
  match s with
  | [] => [[]]
  | c :: r =>
      if (c =? sep)%N then [] :: split sep r
      else match split sep r with
           | [] => [[c]]
           | l :: ls => (c :: l) :: ls
           end
  end.

(** ['\n'.join(lines)]. *)
Fixpoint join (sep : char) (ls : list str) : str :=
  match ls with
  | [] => []
  | [l] => l
  | l :: ls' => l ++ sep :: join sep ls'
  end.

(** [line.count(c)] for a one-character needle; a Python int. *)
Fixpoint count (c : char) (s : str) : Z :=
  match s with
  | [] => 0
  | d :: r => (if (d =? c)%N then 1 else 0) + count c r
  end.

(** [s.rstrip()]. *)
Fixpoint rstrip (s : str) : str :=
  match s with
  | [] => []
  | c :: r =>
      match rstrip r with
      | [] => if is_space c then [] else [c]
      | r' => c :: r'
      end
  end.

(** [s.endswith(c)] for a one-character suffix. *)
Definition endswith (c : char) (s : str) : bool :=
  match last s with
  | Some d => (d =? c)%N
  | None => false
  end.

(** [s[:-1]]. *)
Definition drop_last (s : str) : str := removelast s.

(** [s.startswith(p)]. *)
Fixpoint startswith (p s : str) : bool :=
  match p, s with
  | [], _ => true
  | _ :: _, [] => false
  | a :: p', b :: s' => (a =? b)%N && startswith p' s'
  end.

(** [s.replace(old, new)]: occurrences are replaced from the left and do
    not overlap; [skip] counts the characters of a replaced occurrence that
    remain to be dropped. *)
Fixpoint replace_from (old new : str) (skip : nat) (s : str) : str :=
  match s with
  | [] => match old with [] => new | _ => [] end
  | c :: r =>
      match skip with
      | S k => replace_from old new k r
      | O =>
          if startswith old s
          then new ++ match old with
                      | [] => c :: replace_from old new 0%nat r
                      | _ => replace_from old new (length old - 1)%nat r
                      end
          else c :: replace_from old new 0%nat r
      end
  end.

Definition replace (old new s : str) : str := replace_from old new 0%nat s.

(** [lines[a:b]] of Python: clamped, never out of range. *)
Definition slice {A} (a b : nat) (l : list A) : list A := take (b - a) (drop a l).

End Text.

Export Text.

(** ** Regular expressions

    The two patterns of the source use literals, character classes,
    concatenation and [*] only.  For such patterns [re.search] and
    [re.match] answer whether some substring (some prefix) belongs to the
    language of the pattern, so a pattern is modelled by its syntax tree and
    matching by Brzozowski derivatives. *)

Module Regex.

Inductive regex : Type :=
| Void
| Eps
| Sym (p : char -> bool)
| Cat (r1 r2 : regex)
| Alt (r1 r2 : regex)
| Star (r : regex).

Inductive matches : regex -> str -> Prop :=
| matches_eps : matches Eps []
| matches_sym p c : p c = true -> matches (Sym p) [c]
| matches_cat r1 r2 s1 s2 :
    matches r1 s1 -> matches r2 s2 -> matches (Cat r1 r2) (s1 ++ s2)
| matches_alt_l r1 r2 s : matches r1 s -> matches (Alt r1 r2) s
| matches_alt_r r1 r2 s : matches r2 s -> matches (Alt r1 r2) s
| matches_star_nil r : matches (Star r) []
| matches_star_app r s1 s2 :
    matches r s1 -> matches (Star r) s2 -> matches (Star r) (s1 ++ s2).

Fixpoint nullable (r : regex) : bool :=
  match r with
  | Void => false
  | Eps => true
  | Sym _ => false
  | Cat r1 r2 => nullable r1 && nullable r2
  | Alt r1 r2 => nullable r1 || nullable r2
  | Star _ => true
  end.

Fixpoint deriv (c : char) (r : regex) : regex :=
  match r with
  | Void => Void
  | Eps => Void
  | Sym p => if p c then Eps else Void
  | Cat r1 r2 =>
      if nullable r1 then Alt (Cat (deriv c r1) r2) (deriv c r2)
      else Cat (deriv c r1) r2
  | Alt r1 r2 => Alt (deriv c r1) (deriv c r2)
  | Star r1 => Cat (deriv c r1) (Star r1)
  end.

(** [re.fullmatch(r, s) is not None]. *)
Fixpoint fullmatch (r : regex) (s : str) : bool :=
  match s with
  | [] => nullable r
  | c :: s' => fullmatch (deriv c r) s'
  end.

Definition any : regex := Sym (fun _ => true).

(** [re.search(r, s) is not None]: some substring of [s] matches. *)
Definition search (r : regex) (s : str) : bool :=
  fullmatch (Cat (Star any) (Cat r (Star any))) s.

(** A literal: what [re.escape] makes of a string, whatever its characters. *)
Fixpoint escape (m : str) : regex :=
  match m with
  | [] => Eps
  | c :: m' => Cat (Sym (N.eqb c)) (escape m')
  end.

(** [\s*] *)
Definition spaces : regex := Star (Sym is_space).

(** A final [$] without MULTILINE: the end of the subject, or the newline
    that ends it. *)
Definition dollar : regex := Alt Eps (Sym (N.eqb nl)).

End Regex.

Export Regex.

(** ** Files, exceptions and effects *)

(** The files the program reads and writes.  [Template m] is
    [TEMPLATES_DIR / (m + .js)], [Readme m] the README of module [m] and
    [Sample m] its sample configuration. *)
Inductive path : Type :=
| Master
| MasterBak
| ConfigJs
| ConfigJsBak
| Head
| Tail
| Pages
| Template (m : str)
| Readme (m : str)
| Sample (m : str).

Inductive exc : Type :=
| IndexError
| FileNotFoundError (p : path)
| OSError
| EOFError
| KeyboardInterrupt
| SystemExit (code : Z).

(** [except Exception] catches everything but the [BaseException]s. *)
Definition is_Exception (e : exc) : bool :=
  match e with
  | SystemExit _ | KeyboardInterrupt => false
  | _ => true
  end.

Inductive outcome (A : Type) : Type :=
| Ret (a : A)
| Raise (e : exc).
Arguments Ret {A} a.
Arguments Raise {A} e.

#[export] Instance outcome_ret : MRet outcome := fun A a => Ret a.
#[export] Instance outcome_bind : MBind outcome := fun A B k m =>
  match m with
  | Ret a => k a
  | Raise e => Raise e
  end.

(** A write of a file by [write_text], or by [shutil.copy2]. *)
Inductive event : Type :=
| Wrote (p : path) (s : str)
| Copied (src dst : path).

#[export] Instance path_eq_dec : EqDecision path.
Proof. solve_decision. Defined.

Definition path_code (p : path) : nat * str :=
  match p with
  | Master => (0%nat, [])
  | MasterBak => (1%nat, [])
  | ConfigJs => (2%nat, [])
  | ConfigJsBak => (3%nat, [])
  | Head => (4%nat, [])
  | Tail => (5%nat, [])
  | Pages => (6%nat, [])
  | Template m => (7%nat, m)
  | Readme m => (8%nat, m)
  | Sample m => (9%nat, m)
  end.

Definition path_decode (c : nat * str) : path :=
  match c with
  | (0%nat, _) => Master
  | (1%nat, _) => MasterBak
  | (2%nat, _) => ConfigJs
  | (3%nat, _) => ConfigJsBak
  | (4%nat, _) => Head
  | (5%nat, _) => Tail
  | (6%nat, _) => Pages
  | (7%nat, m) => Template m
  | (8%nat, m) => Readme m
  | (_, m) => Sample m
  end.

#[export] Instance path_countable : Countable path.
Proof.
  refine (inj_countable' path_code path_decode _).
  intros []; reflexivity.
Defined.

Record world : Type := World {
  files : gmap path str;
  log : list event
}.

Definition io (A : Type) : Type := world -> outcome A * world.

Definition io_ret {A} (a : A) : io A := fun w => (Ret a, w).

Definition io_bind {A B} (m : io A) (k : A -> io B) : io B := fun w =>
  match m w with
  | (Ret a, w') => k a w'
  | (Raise e, w') => (Raise e, w')
  end.

Declare Scope io_scope.
Delimit Scope io_scope with io.
Notation "x ← y ; z" := (io_bind y (fun x => z))
  (at level 20, y at level 100, z at level 200, only parsing) : io_scope.
Notation "x ;; z" := (io_bind x (fun _ => z))
  (at level 100, z at level 200, only parsing, right associativity) : io_scope.

Definition raise {A} (e : exc) : io A := fun w => (Raise e, w).

Definition lift {A} (o : outcome A) : io A := fun w => (o, w).

(** [try: body / except Exception as e: handler(e)]. *)
Definition try_except {A} (body : io A) (handler : exc -> io A) : io A := fun w =>
  match body w with
  | (Raise e, w') => if is_Exception e then handler e w' else (Raise e, w')
  | r => r
  end.

(** [p.exists()] *)
Definition exists_ (p : path) : io bool := fun w =>
  (Ret (match files w !! p with Some _ => true | None => false end), w).

(** [p.read_text()], of a file that holds text: the only failure is the
    missing file. *)
Definition read_text (p : path) : io str := fun w =>
  match files w !! p with
  | Some s => (Ret s, w)
  | None => (Raise (FileNotFoundError p), w)
  end.

(** [p.write_text(s)] *)
Definition write_text (p : path) (s : str) : io unit := fun w =>
  (Ret tt, World (<[p := s]> (files w)) (log w ++ [Wrote p s])).

(** [shutil.copy2(src, dst)], into a directory that exists: the only
    failure is the missing source. *)
Definition copy2 (src dst : path) : io unit := fun w =>
  match files w !! src with
  | Some s => (Ret tt, World (<[dst := s]> (files w)) (log w ++ [Copied src dst]))
  | None => (Raise (FileNotFoundError src), w)
  end.

(** What the program is told from outside: the process name found by
    [get_pm2_process_name] (which only reads the output of [pm2 jlist]; it
    returns a name or lets an exception through), what happens when
    [pm2 restart name] is run, and the line typed at the prompt. *)
Inductive completed : Type :=
| Completed (returncode : Z)
| NotLaunched (e : exc).

Record env : Type := Env {
  get_pm2_process_name : outcome str;
  pm2_restart : str -> completed;
  typed : outcome str
}.

(** ** Utility: backup, rollback, die, confirm *)

Definition backup : io unit :=
  (m ← exists_ Master;
   (if m then copy2 Master MasterBak else io_ret tt);;
   c ← exists_ ConfigJs;
   if c then copy2 ConfigJs ConfigJsBak else io_ret tt)%io.

Definition rollback : io unit :=
  (m ← exists_ MasterBak;
   (if m then copy2 MasterBak Master else io_ret tt);;
   c ← exists_ ConfigJsBak;
   if c then copy2 ConfigJsBak ConfigJs else io_ret tt)%io.

(** [die(msg)]: the message is only printed; [exit(1)] raises
    [SystemExit(1)], so [die] never returns to its caller. *)
Definition die {A} : io A := (rollback ;; raise (SystemExit 1))%io.

(** [input(prompt).lower() == y]: among all strings only [y] and [Y] have
    the lower-case form [y]. *)
Definition confirm (e : env) : io bool :=
  (line ← lift (typed e);
   io_ret (bool_decide (line = lit "y" \/ line = lit "Y")))%io.

(** ** Block extraction *)

(** [lines[i]] for [0 <= i]. *)
Definition index {A} (l : list A) (i : nat) : outcome A :=
  match l !! i with
  | Some x => Ret x
  | None => Raise IndexError
  end.

(** The pattern [module:\s*Q + re.escape(module) + Q], [Q] the quote class. *)
Definition module_re (module : str) : regex :=
  Cat (escape (lit "module:"))
    (Cat spaces (Cat (Sym is_quote) (Cat (escape module) (Sym is_quote)))).

Definition declares (module line : str) : bool := search (module_re module) line.

(** The pattern [^\s*\{\s*$], used with [re.match]: anchored at the start
    by [re.match] and at the end by the pattern. *)
Definition open_brace_re : regex :=
  Cat spaces (Cat (Sym (N.eqb lbrace)) (Cat spaces dollar)).

Definition is_open_brace_line (line : str) : bool := fullmatch open_brace_re line.

(** The first loop: the index of the first declaring line, counted from [i]. *)
Fixpoint find_module_line (module : str) (lines : list str) (i : nat) : option nat :=
  match lines with
  | [] => None
  | line :: rest =>
      if declares module line then Some i
      else find_module_line module rest (S i)
  end.

(** The [while start_idx > 0] loop. *)
Fixpoint scan_back (lines : list str) (start_idx : nat) : outcome nat :=
  match start_idx with
  | O => Ret O
  | S k =>
      line ← index lines start_idx;
      if is_open_brace_line line then Ret start_idx else scan_back lines k
  end.

(** The [for i in range(start_idx, len(lines))] loop over the indices [idxs]
    that remain; the result is [brace_count] and [end_idx] when it ends. *)
Fixpoint count_braces (lines : list str) (start_idx : nat) (idxs : list nat)
    (brace_count : Z) (end_idx : nat) : outcome (Z * nat) :=
  match idxs with
  | [] => Ret (brace_count, end_idx)
  | i :: rest =>
      line ← index lines i;
      let brace_count := brace_count + count lbrace line in
      let brace_count := brace_count - count rbrace line in
      if (brace_count =? 0) && (start_idx <? i)%nat then Ret (brace_count, i)
      else count_braces lines start_idx rest brace_count end_idx
  end.

Definition extract_module_block (text module : str) : outcome (option str) :=
  let lines := split nl text in
  match find_module_line module lines 0%nat with
  | None => Ret None
  | Some module_line_idx =>
      start_idx ← scan_back lines module_line_idx;
      no_brace ← (if (start_idx =? 0)%nat
                   then line ← index lines 0%nat; Ret (negb (is_open_brace_line line))
                   else Ret false);
      if (no_brace : bool) then Ret None
      else
        '(brace_count, end_idx) ←
           count_braces lines start_idx
             (seq start_idx (length lines - start_idx)%nat) 0 start_idx;
        if negb (brace_count =? 0) then Ret None
        else Ret (Some (join nl (slice start_idx (end_idx + 1)%nat lines)))
  end.

(** ** Template population *)

Definition write_template (module block : str) : io unit :=
  write_text (Template module) block.

(** One round of the loop of [populate_templates]; a [continue] of the
    source is the end of the round. *)
Definition populate_module (master_text module : str) : io unit :=
  (if startswith (lit "default/") module then io_ret tt
   else
     tpl ← exists_ (Template module);
     if tpl then io_ret tt
     else
       block ← lift (extract_module_block master_text module);
       match block with
       | Some (c :: b) => write_template module (c :: b)
       | _ =>
           let sample :=
             (s ← exists_ (Sample module);
              if s then text ← read_text (Sample module); write_template module text
              else io_ret tt) in
           r ← exists_ (Readme module);
           if r then
             text ← read_text (Readme module);
             block ← lift (extract_module_block text module);
             match block with
             | Some (c :: b) => write_template module (c :: b)
             | _ => sample
             end
           else sample
       end)%io.

Fixpoint populate_loop (master_text : str) (installed_modules : list str) : io unit :=
  match installed_modules with
  | [] => io_ret tt
  | module :: rest =>
      (populate_module master_text module ;; populate_loop master_text rest)%io
  end.

Definition populate_templates (installed_modules : list str) : io unit :=
  (master_text ← read_text Master; populate_loop master_text installed_modules)%io.

(** ** Config generation *)

Definition indent : str := lit "      ".

(** [tpl.read_text().rstrip()], without its trailing comma if it has one. *)
Definition module_content (tpl_text : str) : str :=
  let module_content := rstrip tpl_text in
  if endswith comma module_content then drop_last module_content
  else module_content.

(** [i < len(modules) - 1 or use_pages] *)
Definition needs_comma (n i : Z) (use_pages : bool) : bool :=
  (i <? n - 1) || use_pages.

(** The text appended to [config_content] for module [i] of [n], whose
    fragment text is [tpl_text]. *)
Definition module_entry (n i : Z) (use_pages : bool) (tpl_text : str) : str :=
  indent ++ module_content tpl_text
    ++ (if needs_comma n i use_pages then [comma] else [])
    ++ [nl].

(** The loop [for i, m in enumerate(modules)], from index [i] on; [n] is
    [len(modules)]. *)
Fixpoint add_modules (n : Z) (use_pages : bool) (i : Z) (modules : list str)
    (config_content : str) : io str :=
  match modules with
  | [] => io_ret config_content
  | m :: rest =>
      (tpl ← exists_ (Template m);
       if negb tpl then die
       else
         text ← read_text (Template m);
         add_modules n use_pages (i + 1) rest
           (config_content ++ module_entry n i use_pages text))%io
  end.

Definition generate_config (modules : list str) (use_pages : bool)
    (pages_module_name : option str) : io unit :=
  (h ← exists_ Head;
   if negb h then die
   else
     t ← exists_ Tail;
     if negb t then die
     else
       config_content ← read_text Head;
       config_content ←
         add_modules (Z.of_nat (length modules)) use_pages 0 modules config_content;
       config_content ←
         (if use_pages then
            p ← exists_ Pages;
            if negb p then die
            else
              pages_content ← read_text Pages;
              let pages_content :=
                match pages_module_name with
                | Some (c :: name) => replace (lit "MODULE") (c :: name) pages_content
                | _ => pages_content
                end in
              io_ret (config_content ++ pages_content)
          else io_ret config_content);
       tail ← read_text Tail;
       write_text ConfigJs (config_content ++ tail))%io.

(** [subprocess.run([pm2, restart, name], check=False)]: the return code is
    not looked at; only a command that cannot be started raises. *)
Definition run_mm_test (e : env) : io unit :=
  (pm2_name ← lift (get_pm2_process_name e);
   match pm2_restart e pm2_name with
   | Completed _ => io_ret tt
   | NotLaunched err => raise err
   end)%io.

(** ** The transaction *)

Definition test_flow (e : env) (modules : list str) (allow_pages : bool)
    (pages_module_name : option str) (allow_master_update : bool) : io bool :=
  (backup;;
   try_except
     (generate_config modules allow_pages pages_module_name ;; run_mm_test e)
     (fun _ => die);;
   if allow_master_update then
     ok ← confirm e;
     if negb ok then rollback ;; io_ret false
     else
       text ← read_text ConfigJs;
       write_text Master text;;
       io_ret true
   else io_ret false)%io.

(** ** Vocabulary of the statements *)

Definition all_space (s : str) : Prop := Forall (fun c => is_space c = true) s.

Definition no_quote (s : str) : Prop := Forall (fun c => is_quote c = false) s.

(** The number of quote characters of a text. *)
Definition quotes_in (s : str) : nat :=
  length (filter (fun c => is_quote c = true) s).

(** Line [d] is the declaring line: the first line that declares [module]. *)
Definition declaring_line (module : str) (lines : list str) (d : nat) : Prop :=
  (exists l, lines !! d = Some l /\ declares module l = true) /\
  forall j l, (j < d)%nat -> lines !! j = Some l -> declares module l = false.

(** Line [j] consists solely of an opening brace, whitespace apart. *)
Definition brace_line_at (lines : list str) (j : nat) : Prop :=
  exists l, lines !! j = Some l /\ is_open_brace_line l = true.

(** Line [s] is the nearest standalone opening-brace line before line [d]. *)
Definition nearest_brace_before (lines : list str) (d s : nat) : Prop :=
  (s < d)%nat /\ brace_line_at lines s /\
  forall j, (s < j < d)%nat -> ~ brace_line_at lines j.

(** Opening braces minus closing braces of a line, and of a run of lines. *)
Definition line_delta (line : str) : Z := count lbrace line - count rbrace line.

Fixpoint sum_delta (ls : list str) : Z :=
  match ls with
  | [] => 0
  | l :: r => line_delta l + sum_delta r
  end.

(** The cumulative brace depth from line [s] through line [j]. *)
Definition depth (lines : list str) (s j : nat) : Z :=
  sum_delta (slice s (S j) lines).

(** Line [e] is the first line strictly after [s] at which the depth counted
    from [s] is exactly zero. *)
Definition first_close (lines : list str) (s e : nat) : Prop :=
  (s < e < length lines)%nat /\ depth lines s e = 0 /\
  forall j, (s < j < e)%nat -> depth lines s j <> 0.

(** The resources of an assembly are all there. *)
Definition resources_present (modules : list str) (use_pages : bool) (w : world) : Prop :=
  is_Some (files w !! Head) /\ is_Some (files w !! Tail) /\
  Forall (fun m => is_Some (files w !! Template m)) modules /\
  (use_pages = true -> is_Some (files w !! Pages)).

#[export] Instance resources_present_dec modules use_pages w :
  Decision (resources_present modules use_pages w).
Proof. unfold resources_present. apply _. Defined.

(** An entity block as it stands in the document, with or without a
    separator appended. *)
Definition entry_with (tpl_text : str) (sep : bool) : str :=
  indent ++ module_content tpl_text ++ (if sep then [comma] else []) ++ [nl].

(** The entries of the fragments [texts], numbered from [i]. *)
Fixpoint entries (n : Z) (use_pages : bool) (i : Z) (texts : list str) : list str :=
  match texts with
  | [] => []
  | t :: r => module_entry n i use_pages t :: entries n use_pages (i + 1) r
  end.

(** The events of a log that write file [p]. *)
Definition writes_to (p : path) (ev : event) : bool :=
  match ev with
  | Wrote q _ | Copied _ q => bool_decide (q = p)
  end.

Definition writes_of (p : path) (evs : list event) : list event :=
  filter (fun ev => writes_to p ev = true) evs.

(** [if src.exists(): shutil.copy2(src, dst)] as a change of the world. *)
Definition copied (src dst : path) (w : world) : world :=
  match files w !! src with
  | Some s => World (<[dst := s]> (files w)) (log w ++ [Copied src dst])
  | None => w
  end.

Definition backed_up (w : world) : world :=
  copied ConfigJs ConfigJsBak (copied Master MasterBak w).

Definition rolled_back (w : world) : world :=
  copied ConfigJsBak ConfigJs (copied MasterBak Master w).

Definition written (p : path) (s : str) (w : world) : world :=
  World (<[p := s]> (files w)) (log w ++ [Wrote p s]).

(** The event of a conditional copy, and the events of a rollback and of a
    backup. *)
Definition copy_event (src dst : path) (w : world) : list event :=
  match files w !! src with
  | Some _ => [Copied src dst]
  | None => []
  end.

Definition rollback_events (w : world) : list event :=
  copy_event MasterBak Master w
    ++ copy_event ConfigJsBak ConfigJs (copied MasterBak Master w).


(** What [run_mm_test] comes to: nothing, or the exception it lets
    through. *)
Definition run_mm_test_outcome (e : env) : outcome unit :=
  pm2_name ← get_pm2_process_name e;
  match pm2_restart e pm2_name with
  | Completed _ => Ret tt
  | NotLaunched err => Raise err
  end.

(** The caller confirms at the prompt. *)
Definition accepted (e : env) : Prop :=
  typed e = Ret (lit "y") \/ typed e = Ret (lit "Y").

(** The external verification fails: the restart cannot be run, or it is
    run and reports failure by its return code. *)
Definition verification_fails (e : env) : Prop :=
  match get_pm2_process_name e with
  | Ret pm2_name =>
      match pm2_restart e pm2_name with
      | Completed returncode => returncode <> 0
      | NotLaunched _ => True
      end
  | Raise _ => True
  end.

(** A world for a transaction: master record, active output, prologue,
    epilogue and one fragment. *)
Definition tx_world : world :=
  World (<[Master := lit "old master"]>
          (<[ConfigJs := lit "old config"]>
            (<[Head := lit "A{" ++ [nl]]>
              (<[Tail := lit "}" ++ [nl]]>
                (<[Template (lit "x") := lit "x: 1"]> ∅))))) [].

(** The same world without an active output file. *)
Definition tx_world_no_output : world :=
  World (delete ConfigJs (files tx_world)) [].

(** [pm2 restart] runs and exits with code 1; nobody confirms. *)
Definition env_restart_fails : env :=
  Env (Ret (lit "MagicMirror")) (fun _ => Completed 1) (Ret (lit "n")).

(** [pm2] cannot be started. *)
Definition env_not_launched : env :=
  Env (Ret (lit "MagicMirror")) (fun _ => NotLaunched OSError) (Ret (lit "n")).

(** The block an extraction yields, if it yields a non-empty one (the test
    [if block:] of the source). *)
Definition block_of (o : outcome (option str)) : option str :=
  match o with
  | Ret (Some (c :: b)) => Some (c :: b)
  | _ => None
  end.

(** The text found for the template of [module]: a block of the master
    record, else a block of the README, else the sample file. *)
Definition template_source (master_text module : str) (w : world) : option str :=
  match block_of (extract_module_block master_text module) with
  | Some b => Some b
  | None =>
      match files w !! Readme module with
      | Some text =>
          match block_of (extract_module_block text module) with
          | Some b => Some b
          | None => files w !! Sample module
          end
      | None => files w !! Sample module
      end
  end.

(** The world after one round of the population loop. *)
Definition populated (master_text : str) (w : world) (module : str) : world :=
  if startswith (lit "default/") module then w
  else
    match files w !! Template module with
    | Some _ => w
    | None =>
        match template_source master_text module w with
        | Some t => written (Template module) t w
        | None => w
        end
    end.

(** A round for [module] changes nothing. *)
Definition settled (master_text module : str) (w : world) : Prop :=
  startswith (lit "default/") module = true \/
  is_Some (files w !! Template module) \/
  template_source master_text module w = None.

(** The pages template with its placeholder substituted. *)
Definition pages_section (pages_module_name : option str) (pages_content : str) : str :=
  match pages_module_name with
  | Some (c :: name) => replace (lit "MODULE") (c :: name) pages_content
  | _ => pages_content
  end.

(** The scenario of the specification: prologue, epilogue and two
    fragments. *)
Definition scenario_world : world :=
  World (<[Head := lit "A{" ++ [nl]]>
          (<[Tail := lit "}" ++ [nl]]>
            (<[Template (lit "x") := lit "  x: 1,"]>
              (<[Template (lit "y") := lit "  y: 2"]> ∅)))) [].

(** Example documents. *)
Definition doc_found : str :=
  lit "{" ++ nl :: lit "  module: 'Foo'," ++ nl :: lit "}".

Definition doc_double_close : str :=
  lit "{" ++ nl :: lit "{" ++ nl :: lit "module: 'Foo'" ++ nl :: lit "}}".

Definition doc_truncated : str :=
  lit "{" ++ nl :: lit "  module: 'Foo'," ++ nl :: lit "  config: {".

(** A text whose braces are balanced: reading left to right the depth never
    drops below zero and it ends at zero. *)
Fixpoint balanced_from (d : Z) (s : str) : bool :=
  match s with
  | [] => d =? 0
  | c :: r =>
      if (c =? lbrace)%N then balanced_from (d + 1) r
      else if (c =? rbrace)%N then (0 <? d) && balanced_from (d - 1) r
      else balanced_from d r
  end.

Definition balanced (text : str) : bool := balanced_from 0 text.

(** The backup slot of a file that has one. *)
Definition backup_slot (p : path) : option path :=
  match p with
  | Master => Some MasterBak
  | ConfigJs => Some ConfigJsBak
  | _ => None
  end.


(** ** Start-up and discovery *)

(** [init_my_config].  The two [mkdir(exist_ok=True)] make the directories
    of the program; the files of the model live in directories that exist,
    so they leave nothing to do here. *)
Definition init_my_config : io unit :=
  (m ← exists_ Master;
   if negb m then copy2 ConfigJs Master else io_ret tt)%io.

(** The order of Python on [str]: code point by code point, a proper prefix
    first. *)
Fixpoint str_leb (a b : str) : bool :=
  match a, b with
  | [], _ => true
  | _ :: _, [] => false
  | x :: a', y :: b' =>
      if (x <? y)%N then true
      else if (y <? x)%N then false
      else str_leb a' b'
  end.

Definition str_le (a b : str) : Prop := str_leb a b = true.

#[export] Instance str_le_dec a b : Decision (str_le a b).
Proof. unfold str_le. apply _. Defined.

(** An entry of [MODULES_DIR.iterdir()]: [d.name] and [d.is_dir()]. *)
Record dir_entry : Type := DirEntry {
  d_name : str;
  d_is_dir : bool
}.

(** [find_modules] over the entries of the modules directory, in the order
    [iterdir] yields them.  [mods] is a set, so a name is kept once, and
    [sorted(mods)] is the ascending list of its members. *)
Definition find_modules (listing : list dir_entry) : list str :=
  let mods :=
    remove_dups
      (map d_name
         (filter (fun d => d_is_dir d = true
                           /\ startswith (lit ".") (d_name d) = false
                           /\ d_name d <> lit "default") listing)) in
  merge_sort str_le mods.

Definition PAGES_MODULE : str := lit "MMM-pages".

(** [pat in s] for two strings. *)
Fixpoint contains (pat s : str) : bool :=
  startswith pat s
  || match s with
     | [] => false
     | _ :: r => contains pat r
     end.

Definition uses_pages (master_text : str) : bool := contains PAGES_MODULE master_text.

(** ** The modules of the master record

    [re.findall] with the pattern [module:\s*Q([^Q]+)Q], where [Q] is the
    class of the two quotes.  After the literal the pattern has no choice:
    [\s*] must stop at the first character that is no whitespace, because
    the quote wanted next is none; the group must stop at the first quote,
    because it cannot contain one.  So a match at a position is tried by one
    pass from left to right. *)

(** [s] without its prefix [p]. *)
Fixpoint after_prefix (p s : str) : option str :=
  match p, s with
  | [], _ => Some s
  | _ :: _, [] => None
  | a :: p', b :: s' => if (a =? b)%N then after_prefix p' s' else None
  end.

Fixpoint skip_spaces (s : str) : str :=
  match s with
  | [] => []
  | c :: r => if is_space c then skip_spaces r else s
  end.

(** The longest prefix without a quote, and what follows it. *)
Fixpoint span_name (s : str) : str * str :=
  match s with
  | [] => ([], [])
  | c :: r =>
      if is_quote c then ([], s)
      else let '(n, rest) := span_name r in (c :: n, rest)
  end.

Definition not_quote (c : char) : bool := negb (is_quote c).

(** The pattern as a syntax tree; the group is the [[^Q]+] in it. *)
Definition master_module_re : regex :=
  Cat (escape (lit "module:"))
    (Cat spaces
       (Cat (Sym is_quote)
          (Cat (Cat (Sym not_quote) (Star (Sym not_quote))) (Sym is_quote)))).

(** A match of the pattern at the start of [s]: its group and the text
    behind the match. *)
Definition match_module (s : str) : option (str * str) :=
  match after_prefix (lit "module:") s with
  | None => None
  | Some r =>
      match skip_spaces r with
      | q :: r' =>
          if is_quote q then
            match span_name r' with
            | (c :: name, _ :: rest) => Some (c :: name, rest)
            | _ => None
            end
          else None
      | [] => None
      end
  end.

(** The groups of the matches, found from left to right without overlap:
    after a match the scan goes on behind it; [skip] counts the characters
    of the last match that remain to be passed. *)
Fixpoint findall_modules (skip : nat) (s : str) : list str :=
  match s with
  | [] => []
  | _ :: r =>
      match skip with
      | S k => findall_modules k r
      | O =>
          match match_module s with
          | Some (name, rest) =>
              name :: findall_modules (length s - length rest - 1)%nat r
          | None => findall_modules 0%nat r
          end
      end
  end.

Definition parse_master_modules : io (list str) :=
  (text ← read_text Master; io_ret (findall_modules 0%nat text))%io.

(** ** Selection helpers *)

(** What [int(input(...))] comes to: a number, a [ValueError] of [int], or
    an exception of [input]. *)
Inductive entered : Type :=
| Number (choice : Z)
| NotANumber
| InputRaised (e : exc).

(** [items[i]] for a Python int [i]: a negative index counts from the end. *)
Definition getitem {A} (items : list A) (i : Z) : outcome A :=
  if i <? 0 then
    if - Z.of_nat (length items) <=? i
    then index items (Z.to_nat (Z.of_nat (length items) + i))
    else Raise IndexError
  else index items (Z.to_nat i).

Definition select_from_list {A} (items : list A) (inp : entered) : outcome (option A) :=
  match items with
  | [] => Ret None
  | _ :: _ =>
      match inp with
      | Number choice =>
          if (1 <=? choice) && (choice <=? Z.of_nat (length items))
          then item ← getitem items (choice - 1); Ret (Some item)
          else Ret None
      | NotANumber => Ret None
      | InputRaised KeyboardInterrupt => Ret None
      | InputRaised e => Raise e
      end
  end.

Definition select_module (inp : entered) : io (option str) :=
  (modules ← parse_master_modules;
   match modules with
   | [] => io_ret None
   | _ :: _ =>
       match inp with
       | Number choice =>
           if (1 <=? choice) && (choice <=? Z.of_nat (length modules))
           then module ← lift (getitem modules (choice - 1)); io_ret (Some module)
           else io_ret None
       | NotANumber => io_ret None
       | InputRaised KeyboardInterrupt => io_ret None
       | InputRaised e => raise e
       end
   end)%io.

(** ** Menu actions

    Every interaction of an action has its own surroundings: [inp] is what
    is entered at the selection, and each prompt and each transaction is
    given the [env] of its moment. *)

(** [if not module: return]: [None] and the empty string end the action.
    In [remove_module] the value [has_pages] is computed and not used. *)
Definition remove_module (inp : entered) (asked e : env) : io unit :=
  (module ← select_module inp;
   match module with
   | Some (c :: m) =>
       let module := c :: m in
       ok ← confirm asked;
       if negb ok then io_ret tt
       else
         master_modules ← parse_master_modules;
         let mods := filter (fun m => m <> module) master_modules in
         test_flow e mods false None true;;
         io_ret tt
   | _ => io_ret tt
   end)%io.

Definition test_module (inp : entered) (e1 asked_pages e2 asked_full e3 : env)
    : io unit :=
  (module ← select_module inp;
   match module with
   | Some (c :: m) =>
       let module := c :: m in
       master_modules ← parse_master_modules;
       let has_pages_in_master := bool_decide (PAGES_MODULE ∈ master_modules) in
       test_flow e1 [module] false None false;;
       (if has_pages_in_master then
          ok ← confirm asked_pages;
          if ok then
            test_flow e2 [lit "clock"; module] true (Some module) false;;
            io_ret tt
          else io_ret tt
        else io_ret tt);;
       ok ← confirm asked_full;
       if negb ok then rollback
       else
         let final_modules :=
           if bool_decide (module ∈ master_modules) then master_modules
           else master_modules ++ [module] in
         test_flow e3 final_modules false None true;;
         io_ret tt
   | _ => io_ret tt
   end)%io.

(** The two stubs only print. *)
Definition change_params (inp : entered) : io unit :=
  (module ← select_module inp;
   match module with
   | Some (_ :: _) => io_ret tt
   | _ => io_ret tt
   end)%io.

Definition modify_pages : io unit :=
  (text ← read_text Master;
   if negb (uses_pages text) then io_ret tt
   else io_ret tt)%io.

(** [main] tests whether [MM_HOME] exists.  Where it does not,
    [config.js], which lies below it, has no directory, and [die] runs its
    rollback there: the copy into the master record goes as always (its
    backup lies in the same directory), but [shutil.copy2] into [config.js]
    fails with the [FileNotFoundError] of its destination. *)
Definition copy2_no_directory (src dst : path) : io unit := fun w =>
  match files w !! src with
  | Some _ => (Raise (FileNotFoundError dst), w)
  | None => (Raise (FileNotFoundError src), w)
  end.

Definition rollback_without_home : io unit :=
  (m ← exists_ MasterBak;
   (if m then copy2 MasterBak Master else io_ret tt);;
   c ← exists_ ConfigJsBak;
   if c then copy2_no_directory ConfigJsBak ConfigJs else io_ret tt)%io.

Definition die_without_home {A} : io A :=
  (rollback_without_home ;; raise (SystemExit 1))%io.

(** [main], up to the menu it ends in; [menu] is the interactive loop.
    [mm_home_exists] is [MM_HOME.exists()], and [listing] is what
    [MODULES_DIR.iterdir()] comes to in [find_modules]: the entries of the
    modules directory, or the exception raised when it cannot be listed. *)
Definition main (mm_home_exists : bool) (listing : outcome (list dir_entry))
    (menu : io unit) : io unit :=
  ((if negb mm_home_exists then die_without_home else io_ret tt);;
   init_my_config;;
   entries ← lift listing;
   let installed := find_modules entries in
   populate_templates installed;;
   menu)%io.

(** A master record that declares [x] and [y], with the files of an
    assembly of either. *)
Definition menu_world : world :=
  World (<[Master := lit "module: 'x', module: 'y'"]>
          (<[ConfigJs := lit "old config"]>
            (<[Head := lit "A{" ++ [nl]]>
              (<[Tail := lit "}" ++ [nl]]>
                (<[Template (lit "x") := lit "x: 1"]>
                  (<[Template (lit "y") := lit "y: 2"]> ∅)))))) [].

(** [pm2 restart] runs and succeeds; the answer at the prompt is [line]. *)
Definition env_answer (line : string) : env :=
  Env (Ret (lit "MagicMirror")) (fun _ => Completed 0) (Ret (lit line)).


(** A world without the prologue, in which the active output differs from
    its backup. *)
Definition world_without_head : world :=
  World (<[ConfigJs := lit "old config"]>
          (<[ConfigJsBak := lit "bak config"]>
            (<[Tail := lit "}" ++ [nl]]> ∅))) [].

(** * Properties *)

(** ** The derivative matcher decides the language of a pattern *)

Section RegexFacts.

Lemma matches_void_inv s : matches Void s -> False.
Proof. inversion 1. Qed.

Lemma matches_eps_inv s : matches Eps s -> s = [].
Proof. inversion 1; reflexivity. Qed.

Lemma matches_sym_inv p s : matches (Sym p) s -> exists c, s = [c] /\ p c = true.
Proof. inversion 1; subst; eauto. Qed.

Lemma matches_cat_inv r1 r2 s :
  matches (Cat r1 r2) s ->
  exists s1 s2, s = s1 ++ s2 /\ matches r1 s1 /\ matches r2 s2.
Proof. inversion 1; subst; eauto. Qed.

Lemma matches_alt_inv r1 r2 s : matches (Alt r1 r2) s -> matches r1 s \/ matches r2 s.
Proof. inversion 1; subst; auto. Qed.

Lemma matches_cat_cons r1 r2 c s1 s2 :
  matches r1 (c :: s1) -> matches r2 s2 -> matches (Cat r1 r2) (c :: s1 ++ s2).
Proof. intros M1 M2. apply (matches_cat r1 r2 (c :: s1) s2 M1 M2). Qed.

Lemma nullable_matches r : nullable r = true <-> matches r [].
Proof.
  induction r as [| |p|r1 IH1 r2 IH2|r1 IH1 r2 IH2|r IH]; simpl; split; intros H.
  - discriminate.
  - destruct (matches_void_inv _ H).
  - constructor.
  - reflexivity.
  - discriminate.
  - apply matches_sym_inv in H as (c & E & _). discriminate.
  - apply andb_true_iff in H as [H1 H2].
    apply (matches_cat r1 r2 [] []); tauto.
  - apply matches_cat_inv in H as (s1 & s2 & E & M1 & M2).
    symmetry in E. apply app_eq_nil in E as [-> ->]. apply andb_true_iff; tauto.
  - apply orb_true_iff in H as [H|H]; [apply matches_alt_l | apply matches_alt_r]; tauto.
  - apply orb_true_iff. apply matches_alt_inv in H. tauto.
  - constructor.
  - reflexivity.
Qed.

Lemma matches_star_cons r c s :
  matches (Star r) (c :: s) ->
  exists s1 s2, s = s1 ++ s2 /\ matches r (c :: s1) /\ matches (Star r) s2.
Proof.
  intros H. remember (Star r) as r' eqn:Er. remember (c :: s) as t eqn:Et.
  revert s Et.
  induction H as [| | | | | |r0 s1 s2 M1 _ M2 IH2]; intros u Et; try discriminate.
  injection Er as ->.
  destruct s1 as [|d s1]; simpl in Et.
  - apply IH2; [reflexivity | exact Et].
  - injection Et as -> <-. exists s1, s2. auto.
Qed.

Lemma deriv_matches c r s : matches (deriv c r) s <-> matches r (c :: s).
Proof.
  revert s.
  induction r as [| |p|r1 IH1 r2 IH2|r1 IH1 r2 IH2|r IH]; intros s; simpl.
  - split; intros H; destruct (matches_void_inv _ H).
  - split; intros H; [destruct (matches_void_inv _ H)|].
    apply matches_eps_inv in H. discriminate.
  - destruct (p c) eqn:Hp; split; intros H.
    + apply matches_eps_inv in H as ->. constructor; assumption.
    + apply matches_sym_inv in H as (d & E & _). injection E as _ ->. constructor.
    + destruct (matches_void_inv _ H).
    + apply matches_sym_inv in H as (d & E & Hd). injection E as -> _. congruence.
  - assert (Hcat : matches (Cat (deriv c r1) r2) s ->
                   matches (Cat r1 r2) (c :: s)).
    { intros H. apply matches_cat_inv in H as (s1 & s2 & -> & M1 & M2).
      apply matches_cat_cons; [apply IH1|]; assumption. }
    assert (Hinv : matches (Cat r1 r2) (c :: s) ->
                   matches (Cat (deriv c r1) r2) s \/
                   (matches r1 [] /\ matches (deriv c r2) s)).
    { intros H. apply matches_cat_inv in H as (s1 & s2 & E & M1 & M2).
      destruct s1 as [|d s1]; simpl in E.
      - subst s2. right. split; [assumption | apply IH2; assumption].
      - injection E as <- ->. left. constructor; [apply IH1|]; assumption. }
    destruct (nullable r1) eqn:Hn; split; intros H.
    + apply matches_alt_inv in H as [H|H]; [auto|].
      apply (matches_cat r1 r2 [] (c :: s));
        [apply nullable_matches; assumption | apply IH2; assumption].
    + apply Hinv in H as [H|[_ H]]; [apply matches_alt_l | apply matches_alt_r]; assumption.
    + auto.
    + apply Hinv in H as [H|[H _]]; [assumption|].
      apply nullable_matches in H. congruence.
  - split; intros H; apply matches_alt_inv in H as [H|H];
      first [apply matches_alt_l, IH1; assumption
            | apply matches_alt_r, IH2; assumption].
  - split; intros H.
    + apply matches_cat_inv in H as (s1 & s2 & -> & M1 & M2).
      apply (matches_star_app r (c :: s1) s2); [apply IH|]; assumption.
    + apply matches_star_cons in H as (s1 & s2 & -> & M1 & M2).
      constructor; [apply IH|]; assumption.
Qed.

Lemma fullmatch_matches r s : fullmatch r s = true <-> matches r s.
Proof.
  revert r. induction s as [|c s IH]; intros r; simpl.
  - apply nullable_matches.
  - rewrite IH. apply deriv_matches.
Qed.

Lemma matches_star_any s : matches (Star any) s.
Proof.
  induction s as [|c s IH]; [constructor|].
  apply (matches_star_app any [c] s); [constructor; reflexivity | exact IH].
Qed.

(** [re.search] finds a match exactly when a substring is in the language. *)
Lemma search_spec r s :
  search r s = true <->
  exists pre mid post, s = pre ++ mid ++ post /\ matches r mid.
Proof.
  unfold search. rewrite fullmatch_matches. split.
  - intros H. apply matches_cat_inv in H as (pre & t & -> & _ & M2).
    apply matches_cat_inv in M2 as (mid & post & -> & M3 & _).
    exists pre, mid, post. auto.
  - intros (pre & mid & post & -> & M).
    constructor; [apply matches_star_any|].
    constructor; [exact M | apply matches_star_any].
Qed.

Lemma matches_escape m s : matches (escape m) s <-> s = m.
Proof.
  revert s. induction m as [|c m IH]; intros s; simpl; split; intros H.
  - apply matches_eps_inv in H. assumption.
  - subst. constructor.
  - apply matches_cat_inv in H as (s1 & s2 & -> & M1 & M2).
    apply matches_sym_inv in M1 as (d & -> & Hd).
    apply N.eqb_eq in Hd as <-. apply IH in M2 as ->. reflexivity.
  - subst. apply (matches_cat _ _ [c] m);
      [constructor; apply N.eqb_refl | apply IH; reflexivity].
Qed.

Lemma matches_star_sym p s :
  matches (Star (Sym p)) s <-> Forall (fun c => p c = true) s.
Proof.
  split.
  - intros H. remember (Star (Sym p)) as r eqn:Er.
    induction H as [| | | | | |r0 s1 s2 M1 _ M2 IH2]; try discriminate.
    + constructor.
    + injection Er as ->. apply matches_sym_inv in M1 as (c & -> & Hc).
      constructor; [assumption | apply IH2; reflexivity].
  - induction 1 as [|c s Hc _ IH]; [constructor|].
    apply (matches_star_app _ [c] s); [constructor|]; assumption.
Qed.

End RegexFacts.

(** ** The two patterns *)

Section Patterns.

Lemma declares_spec module line :
  declares module line = true <->
  exists pre ws q1 q2 post,
    line = pre ++ lit "module:" ++ ws ++ q1 :: module ++ q2 :: post /\
    all_space ws /\ is_quote q1 = true /\ is_quote q2 = true.
Proof.
  unfold declares. rewrite search_spec. unfold module_re. split.
  - intros (pre & mid & post & -> & M).
    apply matches_cat_inv in M as (kw & t1 & -> & Mk & M).
    apply matches_escape in Mk as ->.
    apply matches_cat_inv in M as (ws & t2 & -> & Mw & M).
    apply matches_star_sym in Mw.
    apply matches_cat_inv in M as (x1 & t3 & -> & Mq1 & M).
    apply matches_sym_inv in Mq1 as (q1 & -> & Hq1).
    apply matches_cat_inv in M as (nm & x2 & -> & Mn & Mq2).
    apply matches_escape in Mn as ->.
    apply matches_sym_inv in Mq2 as (q2 & -> & Hq2).
    exists pre, ws, q1, q2, post. repeat split; try assumption.
    repeat (rewrite <- app_assoc; simpl). reflexivity.
  - intros (pre & ws & q1 & q2 & post & -> & Hws & Hq1 & Hq2).
    exists pre, (lit "module:" ++ ws ++ [q1] ++ module ++ [q2]), post. split.
    + repeat (rewrite <- app_assoc; simpl). reflexivity.
    + constructor; [apply matches_escape; reflexivity|].
      constructor; [apply matches_star_sym; assumption|].
      constructor; [constructor; assumption|].
      constructor; [apply matches_escape; reflexivity|].
      constructor; assumption.
Qed.

Lemma is_open_brace_line_spec line :
  is_open_brace_line line = true <->
  exists a b, line = a ++ lbrace :: b /\ all_space a /\ all_space b.
Proof.
  unfold is_open_brace_line, open_brace_re. rewrite fullmatch_matches. split.
  - intros M.
    apply matches_cat_inv in M as (a & t1 & -> & Ma & M).
    apply matches_star_sym in Ma.
    apply matches_cat_inv in M as (x & t2 & -> & Mb & M).
    apply matches_sym_inv in Mb as (c & -> & Hc). apply N.eqb_eq in Hc as <-.
    apply matches_cat_inv in M as (b & t3 & -> & Mb & Md).
    apply matches_star_sym in Mb.
    exists a, (b ++ t3). repeat split; try assumption.
    apply Forall_app. split; [assumption|].
    apply matches_alt_inv in Md as [Md|Md].
    + apply matches_eps_inv in Md as ->. constructor.
    + apply matches_sym_inv in Md as (c & -> & Hc). apply N.eqb_eq in Hc as <-.
      repeat constructor.
  - intros (a & b & -> & Ha & Hb).
    constructor; [apply matches_star_sym; assumption|].
    apply (matches_cat _ _ [lbrace] b); [constructor; apply N.eqb_refl|].
    rewrite <- (app_nil_r b).
    constructor; [apply matches_star_sym; assumption|].
    apply matches_alt_l. constructor.
Qed.

End Patterns.

(** ** The declaration pattern matches the exact quoted name only *)

Section ExactName.

Lemma quotes_in_app s t : quotes_in (s ++ t) = (quotes_in s + quotes_in t)%nat.
Proof. unfold quotes_in. rewrite filter_app, length_app. reflexivity. Qed.

Lemma quotes_in_cons c s :
  quotes_in (c :: s) = ((if is_quote c then 1 else 0) + quotes_in s)%nat.
Proof.
  unfold quotes_in. destruct (is_quote c) eqn:E.
  - rewrite filter_cons_True by assumption. reflexivity.
  - rewrite filter_cons_False by congruence. reflexivity.
Qed.

Lemma quotes_in_zero s : quotes_in s = 0%nat <-> no_quote s.
Proof.
  induction s as [|c s IH].
  - split; [constructor | reflexivity].
  - rewrite quotes_in_cons. split.
    + intros H. destruct (is_quote c) eqn:E; [discriminate|].
      constructor; [assumption | apply IH; exact H].
    + intros H. apply Forall_cons in H as [-> H]. apply IH in H. exact H.
Qed.

Lemma space_not_quote c : is_space c = true -> is_quote c = false.
Proof.
  intros Hs. destruct (is_quote c) eqn:Hq; [|reflexivity].
  unfold is_quote in Hq. apply orb_true_iff in Hq as [E|E];
    apply N.eqb_eq in E; subst c; discriminate.
Qed.

Lemma all_space_no_quote s : all_space s -> no_quote s.
Proof. intros H. eapply Forall_impl; [exact H | exact space_not_quote]. Qed.

Lemma keyword_no_quote : no_quote (lit "module:").
Proof. repeat constructor. Qed.

(** A text is cut at its first quote in one way only. *)
Lemma first_quote_unique a q b a' q' b' :
  no_quote a -> no_quote a' -> is_quote q = true -> is_quote q' = true ->
  a ++ q :: b = a' ++ q' :: b' -> a = a' /\ q = q' /\ b = b'.
Proof.
  intros Ha. revert a'. induction Ha as [|c a Hc Ha IH]; intros a' Ha' Hq Hq' E.
  - destruct Ha' as [|c' a' Hc' Ha']; simpl in E.
    + injection E as -> ->. auto.
    + injection E as -> _. congruence.
  - destruct Ha' as [|c' a' Hc' Ha']; simpl in E.
    + injection E as -> _. congruence.
    + injection E as -> E. destruct (IH a' Ha' Hq Hq' E) as (-> & -> & ->). auto.
Qed.

Lemma declares_other_name module other pre ws q1 q2 post :
  other <> module ->
  no_quote other -> no_quote pre -> no_quote post -> all_space ws ->
  is_quote q1 = true -> is_quote q2 = true ->
  declares module (pre ++ lit "module:" ++ ws ++ q1 :: other ++ q2 :: post) = false.
Proof.
  intros Hne Ho Hpre Hpost Hws Hq1 Hq2.
  destruct (declares module _) eqn:D; [exfalso|reflexivity].
  apply declares_spec in D as (pre' & ws' & q1' & q2' & post' & E & Hws' & Hq1' & Hq2').
  apply all_space_no_quote in Hws, Hws'.
  pose proof keyword_no_quote as Hk.
  assert (N := f_equal quotes_in E).
  repeat (rewrite ?quotes_in_app, ?quotes_in_cons in N).
  rewrite Hq1, Hq2, Hq1', Hq2' in N.
  apply quotes_in_zero in Ho, Hpre, Hpost, Hws, Hws', Hk.
  rewrite Ho, Hpre, Hpost, Hws, Hws', Hk in N.
  assert (Hpre' : quotes_in pre' = 0%nat) by lia.
  assert (Hm : quotes_in module = 0%nat) by lia.
  apply quotes_in_zero in Ho, Hpre, Hws, Hws', Hk, Hpre', Hm.
  rewrite !(app_assoc pre), !(app_assoc pre') in E.
  rewrite !(app_assoc _ ws), !(app_assoc _ ws') in E.
  apply first_quote_unique in E as (_ & _ & E);
    try assumption; try (repeat (apply Forall_app; split); assumption).
  apply first_quote_unique in E as (E & _ & _); try assumption.
  congruence.
Qed.

(** C6: the search for the declaring line matches only a line that holds
    the keyword [module:], optional whitespace and the exact name between
    quotes, whatever characters the name is made of; a line that declares
    another name, a strict superstring included, and has no further quote
    is not matched. *)
Theorem declares_exact_quoted_name module line :
  declares module line = true ->
  (exists pre ws q1 q2 post,
      line = pre ++ lit "module:" ++ ws ++ q1 :: module ++ q2 :: post /\
      all_space ws /\ is_quote q1 = true /\ is_quote q2 = true) /\
  (forall other pre ws q1 q2 post,
      no_quote other -> no_quote pre -> no_quote post -> all_space ws ->
      is_quote q1 = true -> is_quote q2 = true ->
      line = pre ++ lit "module:" ++ ws ++ q1 :: other ++ q2 :: post ->
      other = module).
Proof.
  intros D. split; [apply declares_spec; exact D|].
  intros other pre ws q1 q2 post Ho Hpre Hpost Hws Hq1 Hq2 ->.
  destruct (decide (other = module)) as [E|Hne]; [exact E|].
  rewrite declares_other_name in D by assumption. discriminate.
Qed.

Lemma declares_exact_quoted_name_witness :
  (exists pre ws q1 q2 post,
      lit "  module: 'Foo'," = pre ++ lit "module:" ++ ws ++ q1 :: lit "Foo" ++ q2 :: post /\
      all_space ws /\ is_quote q1 = true /\ is_quote q2 = true) /\
  (forall other pre ws q1 q2 post,
      no_quote other -> no_quote pre -> no_quote post -> all_space ws ->
      is_quote q1 = true -> is_quote q2 = true ->
      lit "  module: 'Foo'," = pre ++ lit "module:" ++ ws ++ q1 :: other ++ q2 :: post ->
      other = lit "Foo").
Proof.
  apply (declares_exact_quoted_name (lit "Foo") (lit "  module: 'Foo',")).
  vm_compute. reflexivity.
Defined.

(** The example of the specification, and a name with a metacharacter. *)
Example declares_Foo2_not_Foo : declares (lit "Foo") (lit "module: 'Foo2'") = false.
Proof. vm_compute. reflexivity. Qed.

Example declares_metacharacter :
  declares (lit "a.c") (lit "module: 'a.c'") = true /\
  declares (lit "a.c") (lit "module: 'abc'") = false.
Proof. split; vm_compute; reflexivity. Qed.

End ExactName.

(** ** The loops of block extraction *)

Section Loops.

Implicit Types (lines : list str) (module line : str).

Lemma index_lookup {A} (l : list A) i x : l !! i = Some x -> index l i = Ret x.
Proof. unfold index. intros ->. reflexivity. Qed.

Lemma find_module_line_some module lines i d :
  find_module_line module lines i = Some d ->
  exists j, d = (i + j)%nat /\ declaring_line module lines j.
Proof.
  revert i. induction lines as [|l lines IH]; intros i; simpl; [discriminate|].
  destruct (declares module l) eqn:D.
  - intros [= <-]. exists 0%nat. split; [lia|]. split.
    + exists l. auto.
    + intros j l' Hj. lia.
  - intros H. apply IH in H as (j & -> & (l' & Hl' & Dl') & Hfirst).
    exists (S j). split; [lia|]. split.
    + exists l'. auto.
    + intros [|k] l'' Hk; simpl; [congruence|]. apply Hfirst. lia.
Qed.

Lemma find_module_line_declaring module lines i j :
  declaring_line module lines j ->
  find_module_line module lines i = Some (i + j)%nat.
Proof.
  revert i j. induction lines as [|l lines IH]; intros i j [(l' & Hl' & D) Hfirst].
  - discriminate.
  - simpl. destruct j as [|j]; simpl in Hl'.
    + injection Hl' as ->. rewrite D. f_equal. lia.
    + rewrite (Hfirst 0%nat l) by (reflexivity || lia).
      rewrite (IH (S i) j); [f_equal; lia|]. split.
      * exists l'. auto.
      * intros k l'' Hk Hl''. apply (Hfirst (S k)); [lia | exact Hl''].
Qed.

Lemma find_module_line_none module lines i :
  (forall j l, lines !! j = Some l -> declares module l = false) ->
  find_module_line module lines i = None.
Proof.
  revert i. induction lines as [|l lines IH]; intros i H; simpl; [reflexivity|].
  rewrite (H 0%nat l) by reflexivity. apply IH.
  intros j l' Hj. apply (H (S j)). exact Hj.
Qed.

(** The backward scan stops at the greatest brace line not after [d], and
    at line 0 when there is none. *)
Lemma scan_back_spec lines d s :
  (d < length lines)%nat -> (s <= d)%nat ->
  (forall j, (s < j <= d)%nat -> ~ brace_line_at lines j) ->
  s = 0%nat \/ brace_line_at lines s ->
  scan_back lines d = Ret s.
Proof.
  intros Hd. induction d as [|d IH]; intros Hs Hno Hat; simpl.
  - f_equal. lia.
  - destruct (lookup_lt_is_Some_2 lines (S d) Hd) as [l Hl].
    rewrite (index_lookup _ _ _ Hl). simpl.
    destruct (decide (s = S d)) as [->|Hne].
    + destruct Hat as [|(l' & Hl' & B)]; [discriminate|].
      assert (l' = l) as -> by congruence. rewrite B. reflexivity.
    + destruct (is_open_brace_line l) eqn:B.
      * exfalso. apply (Hno (S d)); [lia|]. exists l. auto.
      * apply IH; [lia | lia | | assumption].
        intros j Hj. apply Hno. lia.
Qed.

Lemma scan_back_total lines d :
  (d < length lines)%nat ->
  exists s, scan_back lines d = Ret s /\ (s <= d)%nat.
Proof.
  induction d as [|d IH]; intros Hd; simpl.
  - exists 0%nat. auto.
  - destruct (lookup_lt_is_Some_2 lines (S d) Hd) as [l Hl].
    rewrite (index_lookup _ _ _ Hl). simpl.
    destruct (is_open_brace_line l).
    + exists (S d). auto.
    + destruct IH as (s & -> & Hs); [lia|]. exists s. auto.
Qed.

Lemma slice_cons lines i j l :
  lines !! i = Some l -> (i <= j)%nat ->
  slice i (S j) lines = l :: slice (S i) (S j) lines.
Proof.
  intros Hl Hij. unfold slice. rewrite (drop_S _ _ _ Hl).
  replace (S j - i)%nat with (S (j - i)) by lia.
  replace (S j - S i)%nat with (j - i)%nat by lia. reflexivity.
Qed.

Lemma slice_one lines i l : lines !! i = Some l -> slice i (S i) lines = [l].
Proof.
  intros Hl. unfold slice. rewrite (drop_S _ _ _ Hl).
  replace (S i - i)%nat with 1%nat by lia. simpl. rewrite take_0. reflexivity.
Qed.

Lemma slice_to_end lines i :
  (i < length lines)%nat -> slice i (S (length lines - 1)) lines = drop i lines.
Proof.
  intros Hi. unfold slice. apply take_ge. rewrite length_drop. lia.
Qed.

(** The forward scan from index [i] with counter [bc]: it stops at the first
    line after [s] where the counter is zero ... *)
Lemma count_braces_stop lines s n : forall i bc e0 e,
  (i + n = length lines)%nat -> (i <= e < length lines)%nat -> (s < e)%nat ->
  bc + sum_delta (slice i (S e) lines) = 0 ->
  (forall j, (i <= j < e)%nat -> (s < j)%nat ->
             bc + sum_delta (slice i (S j) lines) <> 0) ->
  count_braces lines s (seq i n) bc e0 = Ret (0, e).
Proof.
  induction n as [|n IH]; intros i bc e0 e Hn He Hse Hz Hnz; [lia|].
  simpl. destruct (lookup_lt_is_Some_2 lines i ltac:(lia)) as [l Hl].
  rewrite (index_lookup _ _ _ Hl). simpl.
  fold (line_delta l).
  replace (bc + count lbrace l - count rbrace l) with (bc + line_delta l)
    by (unfold line_delta; lia).
  destruct (decide (i = e)) as [->|Hne].
  - rewrite (slice_one _ _ _ Hl) in Hz. simpl in Hz.
    replace (bc + line_delta l) with 0 by lia.
    simpl. rewrite (proj2 (Nat.ltb_lt s e) Hse). reflexivity.
  - assert (T : (bc + line_delta l =? 0) && (s <? i)%nat = false).
    { destruct (s <? i)%nat eqn:L; [|apply andb_false_r].
      apply Nat.ltb_lt in L. rewrite andb_true_r. apply Z.eqb_neq.
      specialize (Hnz i ltac:(lia) L).
      rewrite (slice_one _ _ _ Hl) in Hnz. simpl in Hnz. lia. }
    rewrite T. apply IH; [lia | lia | lia | |].
    + rewrite (slice_cons _ _ _ _ Hl) in Hz by lia. simpl in Hz. lia.
    + intros j Hj Hsj. specialize (Hnz j ltac:(lia) Hsj).
      rewrite (slice_cons _ _ _ _ Hl) in Hnz by lia. simpl in Hnz. lia.
Qed.

(** ... and runs to the end of the document when there is no such line. *)
Lemma count_braces_run lines s n : forall i bc e0,
  (i + n = length lines)%nat ->
  (forall j, (i <= j < length lines)%nat -> (s < j)%nat ->
             bc + sum_delta (slice i (S j) lines) <> 0) ->
  count_braces lines s (seq i n) bc e0 = Ret (bc + sum_delta (drop i lines), e0).
Proof.
  induction n as [|n IH]; intros i bc e0 Hn Hnz; simpl.
  - rewrite drop_ge by lia. simpl. rewrite Z.add_0_r. reflexivity.
  - destruct (lookup_lt_is_Some_2 lines i ltac:(lia)) as [l Hl].
    rewrite (index_lookup _ _ _ Hl). simpl.
    replace (bc + count lbrace l - count rbrace l) with (bc + line_delta l)
      by (unfold line_delta; lia).
    assert (T : (bc + line_delta l =? 0) && (s <? i)%nat = false).
    { destruct (s <? i)%nat eqn:L; [|apply andb_false_r].
      apply Nat.ltb_lt in L. rewrite andb_true_r. apply Z.eqb_neq.
      specialize (Hnz i ltac:(lia) L).
      rewrite (slice_one _ _ _ Hl) in Hnz. simpl in Hnz. lia. }
    rewrite T, (drop_S _ _ _ Hl). simpl. rewrite Z.add_assoc.
    apply IH; [lia|].
    intros j Hj Hsj. specialize (Hnz j ltac:(lia) Hsj).
    rewrite (slice_cons _ _ _ _ Hl) in Hnz by lia. simpl in Hnz. lia.
Qed.

Lemma count_braces_total lines s idxs : forall bc e0,
  Forall (fun i => (i < length lines)%nat) idxs ->
  exists r, count_braces lines s idxs bc e0 = Ret r.
Proof.
  induction idxs as [|i idxs IH]; intros bc e0 H; simpl.
  - eauto.
  - apply Forall_cons in H as [Hi H].
    destruct (lookup_lt_is_Some_2 lines i Hi) as [l Hl].
    rewrite (index_lookup _ _ _ Hl). simpl.
    destruct (_ && _); [eauto | apply IH; assumption].
Qed.

End Loops.

(** ** Lines, braces and joins *)

Section Lines.

Implicit Types (lines : list str) (module line : str).

Lemma count_app c s t : count c (s ++ t) = count c s + count c t.
Proof. induction s as [|d s IH]; simpl; [reflexivity | rewrite IH; lia]. Qed.

Lemma count_all_space c s : is_space c = false -> all_space s -> count c s = 0.
Proof.
  intros Hc. induction 1 as [|d s Hd _ IH]; simpl; [reflexivity|].
  destruct (N.eqb_spec d c) as [->|_]; [congruence | rewrite IH; reflexivity].
Qed.

Lemma brace_line_delta line : is_open_brace_line line = true -> line_delta line = 1.
Proof.
  intros H. apply is_open_brace_line_spec in H as (a & b & -> & Ha & Hb).
  unfold line_delta. rewrite !count_app. simpl.
  rewrite !(count_all_space _ a), !(count_all_space _ b) by (assumption || reflexivity).
  reflexivity.
Qed.

Lemma declares_not_brace module line :
  declares module line = true -> is_open_brace_line line = false.
Proof.
  intros D. destruct (is_open_brace_line line) eqn:B; [exfalso|reflexivity].
  apply is_open_brace_line_spec in B as (a & b & -> & Ha & Hb).
  assert (F : Forall (fun c => is_space c = true \/ c = lbrace) (a ++ lbrace :: b)).
  { apply Forall_app. split; [|constructor; [right; reflexivity|]];
      (eapply Forall_impl; [eassumption | intros; left; assumption]). }
  apply declares_spec in D as (pre & ws & q1 & q2 & post & E & _).
  rewrite E in F. apply Forall_app in F as [_ F]. simpl in F.
  apply Forall_cons in F as [[F|F] _]; discriminate.
Qed.

Lemma line_delta_join ls : line_delta (join nl ls) = sum_delta ls.
Proof.
  induction ls as [|l ls IH]; [reflexivity|].
  destruct ls as [|l' ls].
  - simpl. lia.
  - change (join nl (l :: l' :: ls)) with (l ++ nl :: join nl (l' :: ls)).
    change (sum_delta (l :: l' :: ls)) with (line_delta l + sum_delta (l' :: ls)).
    rewrite <- IH. unfold line_delta. rewrite !count_app. simpl. lia.
Qed.

Lemma split_length text : (0 < length (split nl text))%nat.
Proof.
  induction text as [|c t IH]; simpl; [lia|].
  destruct (c =? nl)%N; simpl; [lia|]. destruct (split nl t); simpl; lia.
Qed.

Lemma split_lines_no_nl text : Forall (fun l => nl ∉ l) (split nl text).
Proof.
  induction text as [|c t IH]; simpl.
  - repeat constructor. apply not_elem_of_nil.
  - destruct (N.eqb_spec c nl) as [->|Hc].
    + constructor; [apply not_elem_of_nil | exact IH].
    + destruct (split nl t) as [|l ls].
      * repeat constructor. intros ?%list_elem_of_singleton. congruence.
      * apply Forall_cons in IH as [Hl Hls]. constructor; [|exact Hls].
        intros [?|?]%elem_of_cons; [congruence | contradiction].
Qed.

Lemma split_line l : nl ∉ l -> split nl l = [l].
Proof.
  induction l as [|c l IH]; intros H; simpl; [reflexivity|].
  apply not_elem_of_cons in H as [Hc Hl].
  destruct (N.eqb_spec c nl) as [E|_]; [congruence|].
  rewrite (IH Hl). reflexivity.
Qed.

Lemma split_app_nl l t : nl ∉ l -> split nl (l ++ nl :: t) = l :: split nl t.
Proof.
  induction l as [|c l IH]; intros H; simpl.
  - reflexivity.
  - apply not_elem_of_cons in H as [Hc Hl].
    destruct (N.eqb_spec c nl) as [E|_]; [congruence|].
    rewrite (IH Hl). reflexivity.
Qed.

(** Joining lines and splitting again gives the lines back. *)
Lemma split_join ls :
  ls <> [] -> Forall (fun l => nl ∉ l) ls -> split nl (join nl ls) = ls.
Proof.
  induction ls as [|l ls IH]; intros Hne H; [congruence|].
  apply Forall_cons in H as [Hl Hls]. destruct ls as [|l' ls].
  - simpl. apply split_line. exact Hl.
  - change (join nl (l :: l' :: ls)) with (l ++ nl :: join nl (l' :: ls)).
    rewrite (split_app_nl _ _ Hl), IH; [reflexivity | discriminate | exact Hls].
Qed.

Lemma slice_no_nl text a b : Forall (fun l => nl ∉ l) (slice a b (split nl text)).
Proof.
  unfold slice. apply Forall_take, Forall_drop, split_lines_no_nl.
Qed.

Lemma slice_head lines s e l :
  lines !! s = Some l -> (s <= e)%nat -> head (slice s (S e) lines) = Some l.
Proof. intros Hl He. rewrite (slice_cons _ _ _ _ Hl He). reflexivity. Qed.

Lemma slice_last lines s e :
  (s <= e < length lines)%nat -> last (slice s (S e) lines) = lines !! e.
Proof.
  intros He. unfold slice. rewrite last_lookup.
  rewrite length_take, length_drop.
  replace (Init.Nat.pred ((S e - s) `min` (length lines - s)))%nat with (e - s)%nat by lia.
  rewrite lookup_take_lt by lia. rewrite lookup_drop. f_equal. lia.
Qed.

End Lines.

(** ** Block extraction *)

Section Extraction.

Implicit Types (text module : str).

Lemma declaring_line_lt module lines d :
  declaring_line module lines d -> (d < length lines)%nat.
Proof. intros [(l & Hl & _) _]. apply lookup_lt_Some in Hl. exact Hl. Qed.

Lemma declaring_line_not_brace module lines d :
  declaring_line module lines d -> ~ brace_line_at lines d.
Proof.
  intros [(l & Hl & D) _] (l' & Hl' & B).
  assert (l' = l) as -> by congruence.
  apply declares_not_brace in D. congruence.
Qed.

(** The scan for the start line, with the test that follows it. *)
Lemma start_found module lines d s :
  declaring_line module lines d -> nearest_brace_before lines d s ->
  scan_back lines d = Ret s /\
  (if (s =? 0)%nat
   then line ← index lines 0%nat; Ret (negb (is_open_brace_line line))
   else Ret false) = Ret false.
Proof.
  intros Hd (Hsd & Hs & Hno). split.
  - apply scan_back_spec; [eapply declaring_line_lt; eassumption | lia | | auto].
    intros j Hj. destruct (decide (j = d)) as [->|Hne].
    + eapply declaring_line_not_brace; eassumption.
    + apply Hno. lia.
  - destruct (Nat.eqb_spec s 0) as [->|_]; [|reflexivity].
    destruct Hs as (l & Hl & B). rewrite (index_lookup _ _ _ Hl). simpl.
    rewrite B. reflexivity.
Qed.

(** C4, as amended: when the entity has a declaring line, a standalone
    opening-brace line precedes it, and the brace depth counted from the
    nearest such line is exactly zero at some later line, extraction returns
    the lines from that start line through the first such later line; the
    block has as many opening as closing braces, its first line is the start
    line and its last line is that first line of depth zero. *)
Theorem extract_module_block_found text module d s e :
  declaring_line module (split nl text) d ->
  nearest_brace_before (split nl text) d s ->
  first_close (split nl text) s e ->
  exists block,
    extract_module_block text module = Ret (Some block) /\
    block = join nl (slice s (S e) (split nl text)) /\
    count lbrace block = count rbrace block /\
    head (split nl block) = split nl text !! s /\
    last (split nl block) = split nl text !! e.
Proof.
  intros Hd Hs (He & Hz & Hnz).
  exists (join nl (slice s (S e) (split nl text))).
  assert (Hblock : split nl (join nl (slice s (S e) (split nl text)))
                   = slice s (S e) (split nl text)).
  { apply split_join; [|apply slice_no_nl].
    destruct Hs as (_ & (l & Hl & _) & _).
    rewrite (slice_cons _ _ _ _ Hl) by lia. discriminate. }
  repeat split.
  - unfold extract_module_block.
    rewrite (find_module_line_declaring _ _ 0 _ Hd). simpl.
    destruct (start_found _ _ _ _ Hd Hs) as [H1 H2].
    rewrite H1. cbn [mbind outcome_bind]. rewrite H2. cbn [mbind outcome_bind].
    rewrite (count_braces_stop _ s _ s 0 s e); [| lia | lia | lia | exact Hz | ].
    + simpl. rewrite Nat.add_1_r. reflexivity.
    + intros j Hj Hsj. apply Hnz. lia.
  - pose proof (line_delta_join (slice s (S e) (split nl text))) as J.
    unfold depth in Hz. unfold line_delta in J. lia.
  - rewrite Hblock. destruct Hs as (_ & (l & Hl & _) & _).
    rewrite Hl. apply slice_head; [exact Hl | lia].
  - rewrite Hblock. apply slice_last. lia.
Qed.

Lemma extract_module_block_found_witness :
  exists block,
    extract_module_block doc_found (lit "Foo") = Ret (Some block) /\
    block = join nl (slice 0 3 (split nl doc_found)) /\
    count lbrace block = count rbrace block /\
    head (split nl block) = split nl doc_found !! 0%nat /\
    last (split nl block) = split nl doc_found !! 2%nat.
Proof.
  apply (extract_module_block_found doc_found (lit "Foo") 1 0 2).
  - split.
    + eexists. split; [reflexivity | vm_compute; reflexivity].
    + intros [|j] l Hj; [|lia]. intros [= <-]. vm_compute. reflexivity.
  - split; [lia|]. split.
    + eexists. split; [reflexivity | vm_compute; reflexivity].
    + intros j Hj. lia.
  - split; [vm_compute; lia|]. split; [vm_compute; reflexivity|].
    intros j Hj. assert (j = 1%nat) as -> by lia. vm_compute. discriminate.
Defined.

(** C4, as stated, fails: the document is balanced, the entity is declared in
    it and a standalone opening-brace line precedes the declaring line, yet
    the line that closes the block closes two levels at once, the depth is
    never exactly zero, and nothing is extracted. *)
Lemma extract_module_block_balanced_not_found :
  balanced doc_double_close = true /\
  declaring_line (lit "Foo") (split nl doc_double_close) 2 /\
  nearest_brace_before (split nl doc_double_close) 2 1 /\
  extract_module_block doc_double_close (lit "Foo") = Ret None.
Proof.
  split; [vm_compute; reflexivity|]. split; [|split].
  - split.
    + eexists. split; [reflexivity | vm_compute; reflexivity].
    + intros [|[|j]] l Hj; [| |lia]; intros [= <-]; vm_compute; reflexivity.
  - split; [lia|]. split.
    + eexists. split; [reflexivity | vm_compute; reflexivity].
    + intros j Hj. lia.
  - vm_compute. reflexivity.
Qed.

(** C5: when no line declares the entity, or no standalone opening-brace
    line precedes the declaring line, or the document ends before the depth
    counted from the start line is zero again, extraction returns [None]. *)
Theorem extract_module_block_not_found text module :
  (forall j l, split nl text !! j = Some l -> declares module l = false) \/
  (exists d, declaring_line module (split nl text) d /\
             forall j, (j < d)%nat -> ~ brace_line_at (split nl text) j) \/
  (exists d s, declaring_line module (split nl text) d /\
               nearest_brace_before (split nl text) d s /\
               forall j, (s < j < length (split nl text))%nat ->
                         depth (split nl text) s j <> 0) ->
  extract_module_block text module = Ret None.
Proof.
  unfold extract_module_block. set (lines := split nl text).
  intros [Hnone|[(d & Hd & Hno)|(d & s & Hd & Hs & Hopen)]].
  - rewrite find_module_line_none by exact Hnone. reflexivity.
  - rewrite (find_module_line_declaring _ _ 0 _ Hd). simpl.
    pose proof (declaring_line_lt _ _ _ Hd) as Hlt.
    rewrite (scan_back_spec lines d 0); [| exact Hlt | lia | | auto].
    + cbn [mbind outcome_bind Nat.eqb].
      destruct (lookup_lt_is_Some_2 lines 0 ltac:(lia)) as [l0 Hl0].
      rewrite (index_lookup _ _ _ Hl0). cbn [mbind outcome_bind].
      destruct (is_open_brace_line l0) eqn:B; [exfalso|reflexivity].
      assert (B0 : brace_line_at lines 0) by (exists l0; auto).
      destruct d as [|d]; [|apply (Hno 0%nat); [lia | exact B0]].
      exact (declaring_line_not_brace _ _ _ Hd B0).
    + intros j Hj. destruct (decide (j = d)) as [->|Hne].
      * eapply declaring_line_not_brace; eassumption.
      * apply Hno. lia.
  - rewrite (find_module_line_declaring _ _ 0 _ Hd). simpl.
    destruct (start_found _ _ _ _ Hd Hs) as [H1 H2].
    rewrite H1. cbn [mbind outcome_bind]. rewrite H2. cbn [mbind outcome_bind].
    destruct Hs as (Hsd & (l & Hl & B) & _).
    pose proof (lookup_lt_Some _ _ _ Hl) as Hlt.
    rewrite (count_braces_run lines s _ s 0 s); [| lia |].
    + cbn [mbind outcome_bind].
      assert (Hfinal : 0 + sum_delta (drop s lines) <> 0).
      { destruct (decide (S s = length lines)) as [E|Hne].
        - rewrite (drop_S _ _ _ Hl), drop_ge by lia. simpl.
          rewrite (brace_line_delta _ B). lia.
        - rewrite <- (slice_to_end lines s Hlt). apply Hopen. lia. }
      apply Z.eqb_neq in Hfinal. rewrite Hfinal. reflexivity.
    + intros j Hj Hsj. apply Hopen. lia.
Qed.

Lemma extract_module_block_not_found_witness :
  extract_module_block doc_truncated (lit "Foo") = Ret None.
Proof.
  apply extract_module_block_not_found. right. right. exists 1%nat, 0%nat.
  split; [|split].
  - split.
    + eexists. split; [reflexivity | vm_compute; reflexivity].
    + intros [|j] l Hj; [|lia]. intros [= <-]. vm_compute. reflexivity.
  - split; [lia|]. split.
    + eexists. split; [reflexivity | vm_compute; reflexivity].
    + intros j Hj. lia.
  - intros j Hj. change (length (split nl doc_truncated)) with 3%nat in Hj.
    destruct j as [|[|[|j]]]; try lia; vm_compute; discriminate.
Defined.

(** Every list index of the extraction is in range. *)
Lemma extract_module_block_returns text module :
  exists r : option str, extract_module_block text module = Ret r.
Proof.
  unfold extract_module_block. set (lines := split nl text).
  destruct (find_module_line module lines 0) as [d|] eqn:F; [|eauto].
  apply find_module_line_some in F as (j & -> & Hd). simpl.
  pose proof (declaring_line_lt _ _ _ Hd) as Hlt.
  destruct (scan_back_total lines j Hlt) as (s & -> & Hs).
  cbn [mbind outcome_bind].
  destruct (lookup_lt_is_Some_2 lines 0 ltac:(lia)) as [l0 Hl0].
  rewrite (index_lookup _ _ _ Hl0).
  destruct (count_braces_total lines s (seq s (length lines - s)) 0 s)
    as ([bc e] & Hc).
  { apply Forall_forall. intros i Hi%elem_of_seq. lia. }
  destruct (s =? 0)%nat; cbn [mbind outcome_bind].
  - destruct (negb (is_open_brace_line l0)); [eauto|].
    rewrite Hc. cbn [mbind outcome_bind]. destruct (negb _); eauto.
  - rewrite Hc. cbn [mbind outcome_bind]. destruct (negb _); eauto.
Qed.

(** C10: block extraction is total.  Both loops are bounded and every list
    index is in range, so for every text and every module name, whatever its
    characters, the function returns a block or [None] and raises nothing. *)
Theorem extract_module_block_total text module :
  (exists block, extract_module_block text module = Ret (Some block)) \/
  extract_module_block text module = Ret None.
Proof.
  destruct (extract_module_block_returns text module) as [[block|] ->]; eauto.
Qed.

End Extraction.

(** ** Backup, rollback and die *)

Section Utility.

Lemma io_bind_ret {A B} (m : io A) (k : A -> io B) w a w' :
  m w = (Ret a, w') -> io_bind m k w = k a w'.
Proof. unfold io_bind. intros ->. reflexivity. Qed.

Lemma io_bind_raise {A B} (m : io A) (k : A -> io B) w e w' :
  m w = (Raise e, w') -> io_bind m k w = (Raise e, w').
Proof. unfold io_bind. intros ->. reflexivity. Qed.

Lemma exists_some p w s : files w !! p = Some s -> exists_ p w = (Ret true, w).
Proof. unfold exists_. intros ->. reflexivity. Qed.

Lemma exists_none p w : files w !! p = None -> exists_ p w = (Ret false, w).
Proof. unfold exists_. intros ->. reflexivity. Qed.

Lemma read_text_some p w s : files w !! p = Some s -> read_text p w = (Ret s, w).
Proof. unfold read_text. intros ->. reflexivity. Qed.

Lemma copy_if_exists {A} src dst (k : unit -> io A) w :
  io_bind (exists_ src)
    (fun m => io_bind (if m then copy2 src dst else io_ret tt) k) w
  = k tt (copied src dst w).
Proof.
  unfold io_bind, exists_, copied. cbv beta iota.
  destruct (files w !! src) as [s|] eqn:E.
  - unfold copy2. rewrite E. reflexivity.
  - reflexivity.
Qed.

Lemma copy_if_exists_last src dst w :
  io_bind (exists_ src) (fun m => if m then copy2 src dst else io_ret tt) w
  = (Ret tt, copied src dst w).
Proof.
  unfold io_bind, exists_, copied. cbv beta iota.
  destruct (files w !! src) as [s|] eqn:E.
  - unfold copy2. rewrite E. reflexivity.
  - reflexivity.
Qed.

Lemma backup_run w : backup w = (Ret tt, backed_up w).
Proof. unfold backup. rewrite copy_if_exists. apply copy_if_exists_last. Qed.

Lemma rollback_run w : rollback w = (Ret tt, rolled_back w).
Proof. unfold rollback. rewrite copy_if_exists. apply copy_if_exists_last. Qed.

Lemma die_run {A} w : @die A w = (Raise (SystemExit 1), rolled_back w).
Proof. unfold die, io_bind. rewrite rollback_run. reflexivity. Qed.

End Utility.

(** ** Config generation *)

Section Assembly.

Implicit Types (modules texts : list str) (w : world).

Lemma add_modules_ok n use_pages modules : forall texts i config_content w,
  Forall2 (fun m t => files w !! Template m = Some t) modules texts ->
  add_modules n use_pages i modules config_content w
  = (Ret (config_content ++ concat (entries n use_pages i texts)), w).
Proof.
  induction modules as [|m modules IH]; intros texts i cc w H.
  - apply Forall2_nil_inv_l in H as ->. cbn. rewrite app_nil_r. reflexivity.
  - apply Forall2_cons_inv_l in H as (t & texts' & Ht & H & ->).
    cbn [add_modules entries concat].
    rewrite (io_bind_ret _ _ _ _ _ (exists_some _ _ _ Ht)). cbn [negb].
    rewrite (io_bind_ret _ _ _ _ _ (read_text_some _ _ _ Ht)).
    rewrite (IH texts' _ _ w H). rewrite <- app_assoc. reflexivity.
Qed.

Lemma add_modules_missing n use_pages modules : forall i config_content w,
  ~ Forall (fun m => is_Some (files w !! Template m)) modules ->
  add_modules n use_pages i modules config_content w = die w.
Proof.
  induction modules as [|m modules IH]; intros i cc w H.
  - destruct H. constructor.
  - cbn [add_modules].
    destruct (files w !! Template m) as [t|] eqn:Ht.
    + rewrite (io_bind_ret _ _ _ _ _ (exists_some _ _ _ Ht)). cbn [negb].
      rewrite (io_bind_ret _ _ _ _ _ (read_text_some _ _ _ Ht)).
      apply IH. intros F. apply H. constructor; [eauto | exact F].
    + rewrite (io_bind_ret _ _ _ _ _ (exists_none _ _ Ht)). reflexivity.
Qed.

Lemma templates_texts modules w :
  Forall (fun m => is_Some (files w !! Template m)) modules ->
  exists texts, Forall2 (fun m t => files w !! Template m = Some t) modules texts.
Proof.
  induction 1 as [|m modules [t Ht] _ (texts & IH)].
  - exists []. constructor.
  - exists (t :: texts). constructor; assumption.
Qed.

(** With all its resources, [generate_config] writes the document, and that
    is all it does. *)
Lemma generate_config_ok modules use_pages pages_module_name w :
  resources_present modules use_pages w ->
  exists head tail pages texts,
    files w !! Head = Some head /\ files w !! Tail = Some tail /\
    Forall2 (fun m t => files w !! Template m = Some t) modules texts /\
    (if use_pages
     then exists p, files w !! Pages = Some p /\
                    pages = pages_section pages_module_name p
     else pages = []) /\
    generate_config modules use_pages pages_module_name w
    = (Ret tt,
       written ConfigJs
         (head ++ concat (entries (Z.of_nat (length modules)) use_pages 0 texts)
               ++ pages ++ tail) w).
Proof.
  intros ([head Hh] & [tail Ht] & Hm & Hp).
  destruct (templates_texts _ _ Hm) as (texts & Htexts).
  assert (G : forall pages,
    (if use_pages
     then exists p, files w !! Pages = Some p /\
                    pages = pages_section pages_module_name p
     else pages = []) ->
    generate_config modules use_pages pages_module_name w
    = (Ret tt,
       written ConfigJs
         (head ++ concat (entries (Z.of_nat (length modules)) use_pages 0 texts)
               ++ pages ++ tail) w)).
  { intros pages Hpages. unfold generate_config.
    rewrite (io_bind_ret _ _ _ _ _ (exists_some _ _ _ Hh)). cbn [negb].
    rewrite (io_bind_ret _ _ _ _ _ (exists_some _ _ _ Ht)). cbn [negb].
    rewrite (io_bind_ret _ _ _ _ _ (read_text_some _ _ _ Hh)).
    rewrite (io_bind_ret _ _ _ _ _ (add_modules_ok _ _ _ texts _ _ w Htexts)).
    destruct use_pages.
    - destruct Hpages as (p & Hpg & ->).
      erewrite io_bind_ret; cycle 1.
      { rewrite (io_bind_ret _ _ _ _ _ (exists_some _ _ _ Hpg)). cbn [negb].
        rewrite (io_bind_ret _ _ _ _ _ (read_text_some _ _ _ Hpg)).
        reflexivity. }
      rewrite (io_bind_ret _ _ _ _ _ (read_text_some _ _ _ Ht)).
      unfold write_text, written, pages_section.
      rewrite <- !app_assoc. reflexivity.
    - subst pages.
      erewrite io_bind_ret; [|reflexivity].
      rewrite (io_bind_ret _ _ _ _ _ (read_text_some _ _ _ Ht)).
      unfold write_text, written. rewrite <- !app_assoc. reflexivity. }
  destruct use_pages.
  - destruct (Hp eq_refl) as [p Hpg].
    exists head, tail, (pages_section pages_module_name p), texts.
    repeat split; try assumption; [eauto | apply G; eauto].
  - exists head, tail, [], texts. repeat split; try assumption. apply G. reflexivity.
Qed.

(** Without one of them it dies, and does nothing else. *)
Lemma generate_config_missing modules use_pages pages_module_name w :
  ~ resources_present modules use_pages w ->
  generate_config modules use_pages pages_module_name w = die w.
Proof.
  intros H. unfold generate_config.
  destruct (files w !! Head) as [head|] eqn:Hh;
    [|rewrite (io_bind_ret _ _ _ _ _ (exists_none _ _ Hh)); reflexivity].
  rewrite (io_bind_ret _ _ _ _ _ (exists_some _ _ _ Hh)). cbn [negb].
  destruct (files w !! Tail) as [tail|] eqn:Ht;
    [|rewrite (io_bind_ret _ _ _ _ _ (exists_none _ _ Ht)); reflexivity].
  rewrite (io_bind_ret _ _ _ _ _ (exists_some _ _ _ Ht)). cbn [negb].
  rewrite (io_bind_ret _ _ _ _ _ (read_text_some _ _ _ Hh)).
  destruct (decide (Forall (fun m => is_Some (files w !! Template m)) modules))
    as [Hm|Hm].
  - destruct (templates_texts _ _ Hm) as (texts & Htexts).
    rewrite (io_bind_ret _ _ _ _ _ (add_modules_ok _ _ _ texts _ _ w Htexts)).
    destruct use_pages.
    + destruct (files w !! Pages) as [p|] eqn:Hp.
      * exfalso. apply H. repeat split; eauto.
      * erewrite io_bind_raise; [rewrite die_run; reflexivity|].
        rewrite (io_bind_ret _ _ _ _ _ (exists_none _ _ Hp)). cbn [negb].
        apply die_run.
    + exfalso. apply H. repeat split; eauto. discriminate.
  - erewrite io_bind_raise; [rewrite die_run; reflexivity|].
    rewrite (add_modules_missing _ _ _ _ _ _ Hm). apply die_run.
Qed.

End Assembly.

Section AssemblyClaims.

Implicit Types (modules texts : list str) (w : world).

Lemma copied_log src dst w :
  log (copied src dst w) = log w ++ copy_event src dst w.
Proof.
  unfold copied, copy_event. destruct (files w !! src); simpl;
    [reflexivity | rewrite app_nil_r; reflexivity].
Qed.

Lemma rolled_back_log w : log (rolled_back w) = log w ++ rollback_events w.
Proof.
  unfold rolled_back, rollback_events. rewrite !copied_log, app_assoc. reflexivity.
Qed.


Lemma copy_event_cases src dst w :
  copy_event src dst w = [] \/ copy_event src dst w = [Copied src dst].
Proof. unfold copy_event. destruct (files w !! src); auto. Qed.

(** A rollback only copies the two backups back. *)
Lemma rollback_events_restore w :
  Forall (fun ev => ev = Copied MasterBak Master \/ ev = Copied ConfigJsBak ConfigJs)
    (rollback_events w).
Proof.
  unfold rollback_events. apply Forall_app. split.
  - destruct (copy_event_cases MasterBak Master w) as [->| ->];
      [constructor | constructor; [left; reflexivity | constructor]].
  - destruct (copy_event_cases ConfigJsBak ConfigJs (copied MasterBak Master w))
      as [->| ->]; [constructor | constructor; [right; reflexivity | constructor]].
Qed.

(** C2, as amended: in the scenario of the specification the fragments keep
    their two leading blanks behind the six blanks of the indentation, so
    every entity line of the document starts with eight blanks. *)
Theorem generate_config_scenario w :
  files w !! Head = Some (lit "A{" ++ [nl]) ->
  files w !! Tail = Some (lit "}" ++ [nl]) ->
  files w !! Template (lit "x") = Some (lit "  x: 1,") ->
  files w !! Template (lit "y") = Some (lit "  y: 2") ->
  generate_config [lit "x"; lit "y"] false None w
  = (Ret tt,
     written ConfigJs
       (lit "A{" ++ nl :: lit "        x: 1," ++ nl :: lit "        y: 2" ++ nl
          :: lit "}" ++ [nl]) w).
Proof.
  intros Hh Ht Hx Hy.
  assert (F : Forall2 (fun m t => files w !! Template m = Some t)
                [lit "x"; lit "y"] [lit "  x: 1,"; lit "  y: 2"])
    by (repeat constructor; assumption).
  unfold generate_config.
  rewrite (io_bind_ret _ _ _ _ _ (exists_some _ _ _ Hh)). cbn [negb].
  rewrite (io_bind_ret _ _ _ _ _ (exists_some _ _ _ Ht)). cbn [negb].
  rewrite (io_bind_ret _ _ _ _ _ (read_text_some _ _ _ Hh)).
  rewrite (io_bind_ret _ _ _ _ _ (add_modules_ok _ _ _ _ _ _ w F)).
  erewrite io_bind_ret; [|reflexivity].
  rewrite (io_bind_ret _ _ _ _ _ (read_text_some _ _ _ Ht)).
  unfold write_text, written.
  match goal with
  | |- (_, World (<[_ := ?a]> _) (_ ++ [Wrote _ ?a]))
       = (_, World (<[_ := ?b]> _) (_ ++ [Wrote _ ?b])) =>
      replace a with b by (vm_compute; reflexivity)
  end.
  reflexivity.
Qed.

Lemma generate_config_scenario_witness :
  generate_config [lit "x"; lit "y"] false None scenario_world
  = (Ret tt,
     written ConfigJs
       (lit "A{" ++ nl :: lit "        x: 1," ++ nl :: lit "        y: 2" ++ nl
          :: lit "}" ++ [nl]) scenario_world).
Proof.
  apply (generate_config_scenario scenario_world); vm_compute; reflexivity.
Defined.

(** C2, as stated, fails: the document of the scenario is not the one with
    six blanks before [x: 1,] and [y: 2]. *)
Lemma generate_config_scenario_not_six_blanks :
  files (snd (generate_config [lit "x"; lit "y"] false None scenario_world))
    !! ConfigJs
  <> Some (lit "A{" ++ nl :: lit "      x: 1," ++ nl :: lit "      y: 2" ++ nl
             :: lit "}" ++ [nl]).
Proof. vm_compute. discriminate. Qed.

Lemma module_entry_with n i use_pages t :
  module_entry n i use_pages t = entry_with t (needs_comma n i use_pages).
Proof. reflexivity. Qed.

Lemma entries_active n texts : forall i,
  entries n true i texts = zip_with entry_with texts (replicate (length texts) true).
Proof.
  induction texts as [|t texts IH]; intros i; [reflexivity|].
  cbn [entries length replicate zip_with]. rewrite IH, module_entry_with.
  unfold needs_comma. rewrite orb_true_r. reflexivity.
Qed.

Lemma entries_inactive n texts : forall i,
  texts <> [] -> n = i + Z.of_nat (length texts) ->
  entries n false i texts
  = zip_with entry_with texts (replicate (length texts - 1)%nat true ++ [false]).
Proof.
  induction texts as [|t texts IH]; intros i Hne Hn; [congruence|].
  cbn [entries]. rewrite module_entry_with. unfold needs_comma. rewrite orb_false_r.
  destruct texts as [|t' texts].
  - cbn in Hn. replace (i <? n - 1) with false by (symmetry; apply Z.ltb_ge; lia).
    reflexivity.
  - rewrite IH by (discriminate || (cbn [length] in *; lia)).
    replace (i <? n - 1) with true by (symmetry; apply Z.ltb_lt; cbn [length] in *; lia).
    cbn [length].
    replace (S (S (length texts)) - 1)%nat with (S (length texts)) by lia.
    replace (S (length texts) - 1)%nat with (length texts) by lia.
    reflexivity.
Qed.

Lemma filter_true_replicate k :
  length (filter (fun b : bool => b = true) (replicate k true)) = k.
Proof.
  induction k as [|k IH]; [reflexivity|]. cbn [replicate].
  rewrite filter_cons_True by reflexivity. cbn [length]. rewrite IH. reflexivity.
Qed.

(** C3: for a plan of [N >= 1] entities whose resources are all there, the
    document is the prologue, one entry per entity in the order of the plan,
    the paged section and the epilogue; with the paged section inactive a
    separator is appended to every entry but the last ([N - 1] separators),
    with it active to every entry ([N] separators). *)
Theorem generate_config_separators modules use_pages pages_module_name w :
  modules <> [] ->
  resources_present modules use_pages w ->
  exists head tail pages texts seps,
    files w !! Head = Some head /\ files w !! Tail = Some tail /\
    Forall2 (fun m t => files w !! Template m = Some t) modules texts /\
    generate_config modules use_pages pages_module_name w
    = (Ret tt,
       written ConfigJs
         (head ++ concat (zip_with entry_with texts seps) ++ pages ++ tail) w) /\
    seps = (if use_pages then replicate (length modules) true
            else replicate (length modules - 1)%nat true ++ [false]) /\
    length (filter (fun b : bool => b = true) seps)
    = (if use_pages then length modules else (length modules - 1)%nat) /\
    (use_pages = false -> pages = []).
Proof.
  intros Hne Hres.
  destruct (generate_config_ok _ _ pages_module_name _ Hres)
    as (head & tail & pages & texts & Hh & Ht & Htexts & Hpages & Hgen).
  pose proof (Forall2_length _ _ _ Htexts) as Hlen.
  exists head, tail, pages, texts.
  exists (if use_pages then replicate (length modules) true
          else replicate (length modules - 1)%nat true ++ [false]).
  repeat split; try assumption.
  - rewrite Hgen. destruct use_pages.
    + rewrite entries_active, Hlen. reflexivity.
    + rewrite entries_inactive, Hlen; [reflexivity | | lia].
      intros ->. destruct modules; [congruence | discriminate].
  - destruct use_pages.
    + apply filter_true_replicate.
    + rewrite filter_app, length_app, filter_true_replicate.
      rewrite filter_cons_False by discriminate. cbn. lia.
  - intros ->. exact Hpages.
Qed.

Lemma generate_config_separators_witness :
  exists head tail pages texts seps,
    files scenario_world !! Head = Some head /\
    files scenario_world !! Tail = Some tail /\
    Forall2 (fun m t => files scenario_world !! Template m = Some t)
      [lit "x"; lit "y"] texts /\
    generate_config [lit "x"; lit "y"] false None scenario_world
    = (Ret tt,
       written ConfigJs
         (head ++ concat (zip_with entry_with texts seps) ++ pages ++ tail)
         scenario_world) /\
    seps = replicate (length [lit "x"; lit "y"] - 1)%nat true ++ [false] /\
    length (filter (fun b : bool => b = true) seps)
    = (length [lit "x"; lit "y"] - 1)%nat /\
    (false = false -> pages = []).
Proof.
  apply (generate_config_separators [lit "x"; lit "y"] false None scenario_world).
  - discriminate.
  - repeat split.
    + vm_compute. eauto.
    + vm_compute. eauto.
    + repeat constructor; vm_compute; eauto.
    + discriminate.
Defined.

Lemma copy_event_copied src dst src' dst' w :
  src <> dst' -> copy_event src dst (copied src' dst' w) = copy_event src dst w.
Proof.
  intros Hne. unfold copy_event, copied.
  destruct (files w !! src') as [t|]; [|reflexivity].
  cbn [files]. rewrite lookup_insert_ne by congruence. reflexivity.
Qed.

(** The events of a rollback that write the active output: the copy of its
    backup, when there is one. *)
Lemma writes_output_rollback w :
  writes_of ConfigJs (rollback_events w) = copy_event ConfigJsBak ConfigJs w.
Proof.
  unfold rollback_events, writes_of. rewrite filter_app.
  rewrite copy_event_copied by discriminate.
  destruct (copy_event_cases MasterBak Master w) as [->| ->];
    destruct (copy_event_cases ConfigJsBak ConfigJs w) as [->| ->]; reflexivity.
Qed.

(** The active output after a rollback. *)
Lemma rolled_back_output w :
  files (rolled_back w) !! ConfigJs
  = match files w !! ConfigJsBak with
    | Some b => Some b
    | None => files w !! ConfigJs
    end.
Proof.
  unfold rolled_back.
  assert (E : forall p, p <> Master ->
                files (copied MasterBak Master w) !! p = files w !! p).
  { intros p Hp. unfold copied. destruct (files w !! MasterBak); [|reflexivity].
    cbn [files]. apply lookup_insert_ne. congruence. }
  unfold copied at 1. rewrite (E ConfigJsBak) by discriminate.
  destruct (files w !! ConfigJsBak) as [b|].
  - cbn [files]. apply lookup_insert_eq.
  - apply E. discriminate.
Qed.

(** C9, as amended: [generate_config] makes at most one [write_text] of the
    active output file, as its last step, and only when the prologue, the
    epilogue, every fragment of the plan and, with the paged section
    active, the pages template are there.  When one of them is missing it
    makes no [write_text] at all and dies: its only effect is the rollback
    of [die], and then it exits.  That rollback does write the active
    output: when its backup exists it is copied over the active output, and
    this copy is the only event that writes it; without a backup the active
    output is as before. *)
Theorem generate_config_writes_output_once modules use_pages pages_module_name w :
  exists evs,
    log (snd (generate_config modules use_pages pages_module_name w))
    = log w ++ evs /\
    ((resources_present modules use_pages w /\
      fst (generate_config modules use_pages pages_module_name w) = Ret tt /\
      exists doc, evs = [Wrote ConfigJs doc]) \/
     (~ resources_present modules use_pages w /\
      generate_config modules use_pages pages_module_name w = die w /\
      fst (generate_config modules use_pages pages_module_name w)
      = Raise (SystemExit 1) /\
      evs = rollback_events w /\
      (forall p doc, Wrote p doc ∉ evs) /\
      writes_of ConfigJs evs = copy_event ConfigJsBak ConfigJs w /\
      files (snd (generate_config modules use_pages pages_module_name w)) !! ConfigJs
      = match files w !! ConfigJsBak with
        | Some b => Some b
        | None => files w !! ConfigJs
        end)).
Proof.
  destruct (decide (resources_present modules use_pages w)) as [Hres|Hres].
  - destruct (generate_config_ok _ _ pages_module_name _ Hres)
      as (head & tail & pages & texts & _ & _ & _ & _ & ->).
    eexists. split; [reflexivity|]. left. eauto.
  - rewrite (generate_config_missing _ _ pages_module_name _ Hres), die_run.
    exists (rollback_events w). split; [apply rolled_back_log|]. right.
    split; [exact Hres|]. split; [reflexivity|]. split; [reflexivity|].
    split; [reflexivity|]. split; [|split].
    + intros p doc Hin.
      pose proof (rollback_events_restore w) as F.
      rewrite Forall_forall in F. destruct (F _ Hin); discriminate.
    + apply writes_output_rollback.
    + cbn [snd]. apply rolled_back_output.
Qed.

(** C9, as stated, fails: with the prologue missing and a backup of the
    active output that differs from it, [generate_config] ends with the
    active output overwritten by the backup. *)
Lemma generate_config_missing_overwrites_output :
  ~ resources_present [] false world_without_head /\
  fst (generate_config [] false None world_without_head) = Raise (SystemExit 1) /\
  writes_of ConfigJs (log (snd (generate_config [] false None world_without_head)))
  = [Copied ConfigJsBak ConfigJs] /\
  files world_without_head !! ConfigJs = Some (lit "old config") /\
  files (snd (generate_config [] false None world_without_head)) !! ConfigJs
  = Some (lit "bak config").
Proof.
  split; [|split; [|split; [|split]]].
  - intros (H & _). vm_compute in H. destruct H as [x H]. discriminate.
  - vm_compute. reflexivity.
  - vm_compute. reflexivity.
  - vm_compute. reflexivity.
  - vm_compute. reflexivity.
Qed.

End AssemblyClaims.

(** ** The transaction *)

Section Transaction.

Implicit Types (modules : list str) (w : world) (e : env).

Lemma run_mm_test_run e w : run_mm_test e w = (run_mm_test_outcome e, w).
Proof.
  unfold run_mm_test, run_mm_test_outcome, io_bind, lift.
  destruct (get_pm2_process_name e) as [pm2_name|x]; [|reflexivity].
  cbn [mbind outcome_bind]. destruct (pm2_restart e pm2_name); reflexivity.
Qed.

Lemma confirm_run e w :
  confirm e w
  = (line ← typed e; Ret (bool_decide (line = lit "y" \/ line = lit "Y")), w).
Proof. unfold confirm, io_bind, lift. destruct (typed e); reflexivity. Qed.

Lemma copied_lookup_ne src dst w p :
  p <> dst -> files (copied src dst w) !! p = files w !! p.
Proof.
  intros Hne. unfold copied. destruct (files w !! src); [|reflexivity].
  cbn [files]. apply lookup_insert_ne. congruence.
Qed.

Lemma copied_lookup_eq src dst w s :
  files w !! src = Some s -> files (copied src dst w) !! dst = Some s.
Proof.
  intros Hs. unfold copied. rewrite Hs. cbn [files]. apply lookup_insert_eq.
Qed.

Lemma backed_up_lookup w p :
  p <> MasterBak -> p <> ConfigJsBak -> files (backed_up w) !! p = files w !! p.
Proof.
  intros H1 H2. unfold backed_up. rewrite !copied_lookup_ne by assumption.
  reflexivity.
Qed.

Lemma resources_present_backed_up modules use_pages w :
  resources_present modules use_pages (backed_up w)
  <-> resources_present modules use_pages w.
Proof.
  unfold resources_present. rewrite !backed_up_lookup by discriminate.
  assert (F : Forall (fun m => is_Some (files (backed_up w) !! Template m)) modules
              <-> Forall (fun m => is_Some (files w !! Template m)) modules).
  { apply Forall_iff. intros m. rewrite backed_up_lookup by discriminate.
    reflexivity. }
  rewrite F. reflexivity.
Qed.

(** The backups made from an existing master record and output. *)
Lemma backed_up_baks w m c :
  files w !! Master = Some m -> files w !! ConfigJs = Some c ->
  files (backed_up w) !! MasterBak = Some m /\
  files (backed_up w) !! ConfigJsBak = Some c.
Proof.
  intros Hm Hc. unfold backed_up. split.
  - rewrite copied_lookup_ne by discriminate. apply copied_lookup_eq. exact Hm.
  - apply copied_lookup_eq. rewrite copied_lookup_ne by discriminate. exact Hc.
Qed.

(** A rollback with both backups restores both files. *)
Lemma rolled_back_restores w m c :
  files w !! MasterBak = Some m -> files w !! ConfigJsBak = Some c ->
  files (rolled_back w) !! Master = Some m /\
  files (rolled_back w) !! ConfigJs = Some c.
Proof.
  intros Hm Hc. unfold rolled_back. split.
  - rewrite copied_lookup_ne by discriminate. apply copied_lookup_eq. exact Hm.
  - apply copied_lookup_eq. rewrite copied_lookup_ne by discriminate. exact Hc.
Qed.

(** The transaction when a resource is missing. *)
Lemma test_flow_missing e modules allow_pages name allow_master_update w :
  ~ resources_present modules allow_pages w ->
  test_flow e modules allow_pages name allow_master_update w
  = (Raise (SystemExit 1), rolled_back (backed_up w)).
Proof.
  intros H. unfold test_flow.
  rewrite (io_bind_ret _ _ _ _ _ (backup_run w)).
  assert (B : io_bind (generate_config modules allow_pages name)
                (fun _ => run_mm_test e) (backed_up w)
              = (Raise (SystemExit 1), rolled_back (backed_up w))).
  { apply io_bind_raise.
    rewrite generate_config_missing by (rewrite resources_present_backed_up; exact H).
    apply die_run. }
  apply io_bind_raise. unfold try_except. rewrite B. reflexivity.
Qed.

(** The transaction once the document [doc] is written. *)
Lemma test_flow_generated e modules allow_pages name allow_master_update w doc :
  generate_config modules allow_pages name (backed_up w)
  = (Ret tt, written ConfigJs doc (backed_up w)) ->
  test_flow e modules allow_pages name allow_master_update w
  = let w2 := written ConfigJs doc (backed_up w) in
    match run_mm_test_outcome e with
    | Raise x =>
        if is_Exception x then (Raise (SystemExit 1), rolled_back w2)
        else (Raise x, w2)
    | Ret _ =>
        if allow_master_update then
          match typed e with
          | Raise x => (Raise x, w2)
          | Ret line =>
              if bool_decide (line = lit "y" \/ line = lit "Y")
              then (Ret true, written Master doc w2)
              else (Ret false, rolled_back w2)
          end
        else (Ret false, w2)
    end.
Proof.
  intros G. cbv zeta. unfold test_flow.
  rewrite (io_bind_ret _ _ _ _ _ (backup_run w)).
  set (w2 := written ConfigJs doc (backed_up w)) in *.
  assert (B : io_bind (generate_config modules allow_pages name)
                (fun _ => run_mm_test e) (backed_up w)
              = (run_mm_test_outcome e, w2)).
  { rewrite (io_bind_ret _ _ _ _ _ G). apply run_mm_test_run. }
  destruct (run_mm_test_outcome e) as [[]|x] eqn:V.
  - erewrite io_bind_ret; [|unfold try_except; rewrite B; reflexivity].
    destruct allow_master_update; [|reflexivity].
    destruct (typed e) as [line|x] eqn:T.
    + erewrite io_bind_ret; [|rewrite confirm_run, T; reflexivity].
      destruct (bool_decide _); cbn [negb].
      * erewrite io_bind_ret;
          [|apply read_text_some; unfold w2, written; cbn [files];
            apply lookup_insert_eq].
        reflexivity.
      * rewrite (io_bind_ret _ _ _ _ _ (rollback_run w2)). reflexivity.
    + erewrite io_bind_raise; [reflexivity|]. rewrite confirm_run, T. reflexivity.
  - destruct (is_Exception x) eqn:X; apply io_bind_raise;
      unfold try_except; rewrite B, X; [apply die_run | reflexivity].
Qed.

Lemma written_lookup_ne p q doc w :
  q <> p -> files (written p doc w) !! q = files w !! q.
Proof. intros H. unfold written. cbn [files]. apply lookup_insert_ne. congruence. Qed.

(** C1, as amended: when the master record and the active output both exist
    before the transaction, and assembly fails for a missing resource or the
    verification step raises an exception (the restart cannot be run), the
    transaction ends by exiting, with both files as they were before it
    began. *)
Theorem test_flow_failure_restores e modules allow_pages name allow_master_update w m c :
  files w !! Master = Some m ->
  files w !! ConfigJs = Some c ->
  ~ resources_present modules allow_pages w \/
  (exists x, run_mm_test_outcome e = Raise x /\ is_Exception x = true) ->
  fst (test_flow e modules allow_pages name allow_master_update w)
  = Raise (SystemExit 1) /\
  files (snd (test_flow e modules allow_pages name allow_master_update w)) !! Master
  = Some m /\
  files (snd (test_flow e modules allow_pages name allow_master_update w)) !! ConfigJs
  = Some c.
Proof.
  intros Hm Hc H.
  destruct (backed_up_baks _ _ _ Hm Hc) as [Bm Bc].
  destruct (decide (resources_present modules allow_pages w)) as [Hres|Hres].
  - destruct H as [H|(x & V & X)]; [contradiction|].
    apply resources_present_backed_up in Hres.
    destruct (generate_config_ok _ _ name _ Hres)
      as (head & tail & pages & texts & _ & _ & _ & _ & G).
    rewrite (test_flow_generated _ _ _ _ _ _ _ G). cbv zeta. rewrite V, X.
    cbn [fst snd]. split; [reflexivity|].
    apply rolled_back_restores; rewrite written_lookup_ne by discriminate; assumption.
  - rewrite (test_flow_missing _ _ _ _ _ _ Hres). cbn [fst snd].
    split; [reflexivity|]. apply rolled_back_restores; assumption.
Qed.

Lemma test_flow_failure_restores_witness :
  fst (test_flow env_not_launched [lit "x"] false None true tx_world)
  = Raise (SystemExit 1) /\
  files (snd (test_flow env_not_launched [lit "x"] false None true tx_world)) !! Master
  = Some (lit "old master") /\
  files (snd (test_flow env_not_launched [lit "x"] false None true tx_world)) !! ConfigJs
  = Some (lit "old config").
Proof.
  apply (test_flow_failure_restores env_not_launched [lit "x"] false None true tx_world).
  - vm_compute. reflexivity.
  - vm_compute. reflexivity.
  - right. exists OSError. split; vm_compute; reflexivity.
Defined.

(** C1, as stated, fails: the restart is run and reports failure by its
    return code, which [run_mm_test] does not look at; the transaction ends
    normally and leaves the newly assembled output in place. *)
Lemma test_flow_failed_restart_not_restored :
  verification_fails env_restart_fails /\
  fst (test_flow env_restart_fails [lit "x"] false None false tx_world) = Ret false /\
  files (snd (test_flow env_restart_fails [lit "x"] false None false tx_world))
    !! ConfigJs
  <> files tx_world !! ConfigJs.
Proof.
  split; [|split].
  - vm_compute. discriminate.
  - vm_compute. reflexivity.
  - vm_compute. discriminate.
Qed.

(** The restart cannot be run, but there was no active output before the
    transaction: nothing was backed up, and the new output stays. *)
Lemma test_flow_absent_output_not_restored :
  files tx_world_no_output !! ConfigJs = None /\
  fst (test_flow env_not_launched [lit "x"] false None false tx_world_no_output)
  = Raise (SystemExit 1) /\
  files (snd (test_flow env_not_launched [lit "x"] false None false tx_world_no_output))
    !! ConfigJs
  = Some (lit "A{" ++ nl :: lit "      x: 1" ++ nl :: lit "}" ++ [nl]).
Proof. repeat split; vm_compute; reflexivity. Qed.









End Transaction.

(** ** Template population *)

Section Population.

Implicit Types (w : world) (module master_text : str).

Lemma lift_total_run {A} (o : outcome A) a w : o = Ret a -> lift o w = (Ret a, w).
Proof. intros ->. reflexivity. Qed.

Lemma sample_run module w :
  io_bind (exists_ (Sample module))
    (fun s => if s then io_bind (read_text (Sample module))
                          (fun text => write_template module text)
              else io_ret tt) w
  = (Ret tt,
     match files w !! Sample module with
     | Some t => written (Template module) t w
     | None => w
     end).
Proof.
  destruct (files w !! Sample module) as [t|] eqn:Hs.
  - rewrite (io_bind_ret _ _ _ _ _ (exists_some _ _ _ Hs)).
    rewrite (io_bind_ret _ _ _ _ _ (read_text_some _ _ _ Hs)). reflexivity.
  - rewrite (io_bind_ret _ _ _ _ _ (exists_none _ _ Hs)). reflexivity.
Qed.

Lemma populate_module_run master_text module w :
  populate_module master_text module w = (Ret tt, populated master_text w module).
Proof.
  unfold populate_module, populated, template_source.
  destruct (startswith (lit "default/") module); [reflexivity|].
  destruct (files w !! Template module) as [t|] eqn:Ht.
  { rewrite (io_bind_ret _ _ _ _ _ (exists_some _ _ _ Ht)). reflexivity. }
  rewrite (io_bind_ret _ _ _ _ _ (exists_none _ _ Ht)).
  destruct (extract_module_block_returns master_text module) as [r Hr].
  rewrite (io_bind_ret _ _ _ _ _ (lift_total_run _ _ w Hr)). rewrite Hr.
  assert (Rest :
    io_bind (exists_ (Readme module))
      (fun r0 : bool =>
         if r0 then
           io_bind (read_text (Readme module))
             (fun text =>
                io_bind (lift (extract_module_block text module))
                  (fun block =>
                     match block with
                     | Some (c :: b) => write_template module (c :: b)
                     | _ =>
                         io_bind (exists_ (Sample module))
                           (fun s => if s then io_bind (read_text (Sample module))
                                                 (fun text => write_template module text)
                                     else io_ret tt)
                     end))
         else
           io_bind (exists_ (Sample module))
             (fun s => if s then io_bind (read_text (Sample module))
                                   (fun text => write_template module text)
                       else io_ret tt)) w
    = (Ret tt,
       match
         match files w !! Readme module with
         | Some text =>
             match block_of (extract_module_block text module) with
             | Some b => Some b
             | None => files w !! Sample module
             end
         | None => files w !! Sample module
         end
       with
       | Some t => written (Template module) t w
       | None => w
       end)).
  { destruct (files w !! Readme module) as [text|] eqn:Hrd.
    - rewrite (io_bind_ret _ _ _ _ _ (exists_some _ _ _ Hrd)).
      rewrite (io_bind_ret _ _ _ _ _ (read_text_some _ _ _ Hrd)).
      destruct (extract_module_block_returns text module) as [r' Hr'].
      rewrite (io_bind_ret _ _ _ _ _ (lift_total_run _ _ w Hr')). rewrite Hr'.
      destruct r' as [[|c b]|]; cbn [block_of]; try apply sample_run. reflexivity.
    - rewrite (io_bind_ret _ _ _ _ _ (exists_none _ _ Hrd)). apply sample_run. }
  destruct r as [[|c b]|]; cbn [block_of]; try exact Rest. reflexivity.
Qed.

Lemma populate_loop_run master_text installed_modules : forall w,
  populate_loop master_text installed_modules w
  = (Ret tt, foldl (populated master_text) w installed_modules).
Proof.
  induction installed_modules as [|m ms IH]; intros w; [reflexivity|].
  cbn [populate_loop foldl].
  rewrite (io_bind_ret _ _ _ _ _ (populate_module_run master_text m w)). apply IH.
Qed.

Lemma populate_templates_run installed_modules w :
  populate_templates installed_modules w
  = match files w !! Master with
    | Some master_text =>
        (Ret tt, foldl (populated master_text) w installed_modules)
    | None => (Raise (FileNotFoundError Master), w)
    end.
Proof.
  unfold populate_templates. destruct (files w !! Master) as [mt|] eqn:Hm.
  - rewrite (io_bind_ret _ _ _ _ _ (read_text_some _ _ _ Hm)). apply populate_loop_run.
  - apply io_bind_raise. unfold read_text. rewrite Hm. reflexivity.
Qed.

(** A round writes at most the template of its module, and only when that
    file is not there. *)
Lemma populated_cases master_text module w :
  populated master_text w module = w \/
  exists t, files w !! Template module = None /\
            populated master_text w module = written (Template module) t w.
Proof.
  unfold populated. destruct (startswith _ module); [auto|].
  destruct (files w !! Template module) eqn:Ht; [auto|].
  destruct (template_source master_text module w) as [t|]; [|auto].
  right. exists t. auto.
Qed.

Lemma populated_preserves master_text module w p s :
  files w !! p = Some s -> files (populated master_text w module) !! p = Some s.
Proof.
  intros Hp. destruct (populated_cases master_text module w) as [->|(t & Ht & ->)];
    [exact Hp|].
  rewrite written_lookup_ne; [exact Hp|]. intros ->. congruence.
Qed.

Lemma populated_lookup_other master_text module w p :
  p <> Template module -> files (populated master_text w module) !! p = files w !! p.
Proof.
  intros Hne. destruct (populated_cases master_text module w) as [->|(t & Ht & ->)];
    [reflexivity|].
  apply written_lookup_ne. exact Hne.
Qed.

Lemma template_source_populated master_text module module' w :
  template_source master_text module (populated master_text w module')
  = template_source master_text module w.
Proof.
  unfold template_source. rewrite !populated_lookup_other by discriminate.
  reflexivity.
Qed.

Lemma settled_populated master_text module w :
  settled master_text module w -> populated master_text w module = w.
Proof.
  unfold settled, populated. intros [->|[[t ->]| ->]]; [reflexivity| |].
  - destruct (startswith _ module); reflexivity.
  - destruct (startswith _ module); [reflexivity|].
    destruct (files w !! Template module); reflexivity.
Qed.

Lemma populated_settled master_text module w :
  settled master_text module (populated master_text w module).
Proof.
  unfold settled.
  destruct (startswith (lit "default/") module) eqn:Hd; [auto|]. right.
  unfold populated. rewrite Hd.
  destruct (files w !! Template module) as [t|] eqn:Ht; [left; rewrite Ht; eauto|].
  destruct (template_source master_text module w) as [t|] eqn:Hsrc.
  - left. unfold written. cbn [files]. rewrite lookup_insert_eq. eauto.
  - right. exact Hsrc.
Qed.

Lemma settled_kept master_text module module' w :
  settled master_text module w ->
  settled master_text module (populated master_text w module').
Proof.
  intros [Hd|[[t Ht]|Hsrc]]; [left; exact Hd | |].
  - right. left. exists t. apply populated_preserves. exact Ht.
  - destruct (decide (module' = module)) as [->|Hne].
    + rewrite settled_populated; unfold settled; auto.
    + destruct (files w !! Template module) as [t|] eqn:Ht.
      * right. left. exists t. apply populated_preserves. exact Ht.
      * right. right. rewrite template_source_populated. exact Hsrc.
Qed.

Lemma settled_kept_loop master_text module ms : forall w,
  settled master_text module w ->
  settled master_text module (foldl (populated master_text) w ms).
Proof.
  induction ms as [|m ms IH]; intros w H; [exact H|].
  cbn [foldl]. apply IH, settled_kept, H.
Qed.

Lemma loop_settles master_text ms : forall w,
  Forall (fun m => settled master_text m (foldl (populated master_text) w ms)) ms.
Proof.
  induction ms as [|m ms IH]; intros w; [constructor|].
  cbn [foldl]. constructor; [|apply IH].
  apply settled_kept_loop, populated_settled.
Qed.

Lemma settled_loop master_text ms w :
  Forall (fun m => settled master_text m w) ms ->
  foldl (populated master_text) w ms = w.
Proof.
  induction 1 as [|m ms Hm _ IH]; [reflexivity|].
  cbn [foldl]. rewrite (settled_populated _ _ _ Hm). exact IH.
Qed.

Lemma loop_preserves master_text ms : forall w p s,
  files w !! p = Some s ->
  files (foldl (populated master_text) w ms) !! p = Some s.
Proof.
  induction ms as [|m ms IH]; intros w p s H; [exact H|].
  cbn [foldl]. apply IH, populated_preserves, H.
Qed.

Lemma loop_log master_text ms : forall w,
  exists evs,
    log (foldl (populated master_text) w ms) = log w ++ evs /\
    forall ev, ev ∈ evs ->
      exists m t, ev = Wrote (Template m) t /\ files w !! Template m = None.
Proof.
  induction ms as [|m ms IH]; intros w.
  - exists []. split; [rewrite app_nil_r; reflexivity|].
    intros ev H. apply elem_of_nil in H. contradiction.
  - cbn [foldl]. destruct (IH (populated master_text w m)) as (evs & Hl & Hev).
    assert (Back : forall m', files (populated master_text w m) !! Template m' = None ->
                              files w !! Template m' = None).
    { intros m' Hn. destruct (files w !! Template m') as [t|] eqn:Ht; [|reflexivity].
      rewrite (populated_preserves _ _ _ _ _ Ht) in Hn. discriminate. }
    destruct (populated_cases master_text m w) as [E|(t & Ht & E)].
    + exists evs. split; [rewrite <- E at 2; exact Hl|].
      intros ev Hin. destruct (Hev ev Hin) as (m' & t' & -> & Hn). eauto.
    + exists (Wrote (Template m) t :: evs). split.
      * rewrite Hl, E. unfold written. cbn [log]. rewrite <- app_assoc. reflexivity.
      * intros ev [->|Hin]%elem_of_cons; [eauto|].
        destruct (Hev ev Hin) as (m' & t' & -> & Hn). eauto.
Qed.

(** C7: population is idempotent.  A fragment that exists is kept as it is,
    every write of a run goes to a fragment file that was not there when the
    run began, and a second run on the result of the first changes nothing
    and ends as the first did. *)
Theorem populate_templates_idempotent installed_modules w :
  (forall m t, files w !! Template m = Some t ->
     files (snd (populate_templates installed_modules w)) !! Template m = Some t) /\
  (exists evs,
     log (snd (populate_templates installed_modules w)) = log w ++ evs /\
     forall ev, ev ∈ evs ->
       exists m t, ev = Wrote (Template m) t /\ files w !! Template m = None) /\
  populate_templates installed_modules (snd (populate_templates installed_modules w))
  = populate_templates installed_modules w.
Proof.
  rewrite (populate_templates_run installed_modules w).
  destruct (files w !! Master) as [mt|] eqn:Hm; cbn [snd].
  - split; [|split].
    + intros m t. apply loop_preserves.
    + apply loop_log.
    + rewrite populate_templates_run.
      rewrite (loop_preserves mt installed_modules w Master mt Hm).
      rewrite settled_loop; [reflexivity | apply loop_settles].
  - split; [auto|split].
    + exists []. split; [rewrite app_nil_r; reflexivity|].
      intros ev H. apply elem_of_nil in H. contradiction.
    + rewrite populate_templates_run, Hm. reflexivity.
Qed.

End Population.

(** * Further properties *)

(** ** Block extraction: what a returned block is *)

Section ExtractionSound.

Implicit Types (text module : str) (lines : list str).

Lemma scan_back_inv lines d s :
  (d < length lines)%nat -> scan_back lines d = Ret s ->
  (s <= d)%nat /\
  (forall j, (s < j <= d)%nat -> ~ brace_line_at lines j) /\
  (s = 0%nat \/ brace_line_at lines s).
Proof.
  induction d as [|d IH]; intros Hd; simpl.
  - intros [= <-]. repeat split; [lia | intros j Hj; lia | auto].
  - destruct (lookup_lt_is_Some_2 lines (S d) Hd) as [l Hl].
    rewrite (index_lookup _ _ _ Hl). cbn [mbind outcome_bind].
    destruct (is_open_brace_line l) eqn:B.
    + intros [= <-]. repeat split; [lia | intros j Hj; lia |].
      right. exists l. auto.
    + intros H. destruct (IH ltac:(lia) H) as (Hs & Hno & Hat).
      repeat split; [lia | | exact Hat].
      intros j Hj. destruct (decide (j = S d)) as [->|Hne].
      * intros (l' & Hl' & B'). congruence.
      * apply Hno. lia.
Qed.

Lemma count_braces_inv lines s n : forall i bc e0 bc' e',
  (i + n = length lines)%nat ->
  count_braces lines s (seq i n) bc e0 = Ret (bc', e') ->
  (bc' = 0 /\ (i <= e' < length lines)%nat /\ (s < e')%nat /\
   bc + sum_delta (slice i (S e') lines) = 0 /\
   forall j, (i <= j < e')%nat -> (s < j)%nat ->
             bc + sum_delta (slice i (S j) lines) <> 0) \/
  (e' = e0 /\ bc' = bc + sum_delta (drop i lines) /\
   forall j, (i <= j < length lines)%nat -> (s < j)%nat ->
             bc + sum_delta (slice i (S j) lines) <> 0).
Proof.
  induction n as [|n IH]; intros i bc e0 bc' e' Hn; simpl.
  - intros [= <- <-]. right. rewrite drop_ge by lia. simpl.
    repeat split; [lia | intros j Hj; lia].
  - destruct (lookup_lt_is_Some_2 lines i ltac:(lia)) as [l Hl].
    rewrite (index_lookup _ _ _ Hl). cbn [mbind outcome_bind].
    replace (bc + count lbrace l - count rbrace l) with (bc + line_delta l)
      by (unfold line_delta; lia).
    destruct ((bc + line_delta l =? 0) && (s <? i)%nat) eqn:T.
    + intros [= <- <-]. apply andb_true_iff in T as [Tz Ts].
      apply Z.eqb_eq in Tz. apply Nat.ltb_lt in Ts. left.
      rewrite (slice_one _ _ _ Hl). simpl.
      repeat split; try lia; intros j Hj; lia.
    + intros H.
      assert (Hi : (s < i)%nat -> bc + line_delta l <> 0).
      { intros Hs. apply andb_false_iff in T as [T|T].
        - apply Z.eqb_neq in T. exact T.
        - apply Nat.ltb_ge in T. lia. }
      destruct (IH (S i) _ _ _ _ ltac:(lia) H)
        as [(Hz & He & Hse & Hsum & Hnz)|(-> & Hsum & Hnz)].
      * left. repeat split; try lia.
        -- rewrite (slice_cons _ _ _ _ Hl) by lia. simpl. lia.
        -- intros j Hj Hsj. destruct (decide (j = i)) as [->|Hne].
           ++ rewrite (slice_one _ _ _ Hl). simpl. specialize (Hi Hsj). lia.
           ++ rewrite (slice_cons _ _ _ _ Hl) by lia. simpl.
              specialize (Hnz j ltac:(lia) Hsj). lia.
      * right. repeat split.
        -- rewrite (drop_S _ _ _ Hl). simpl. lia.
        -- intros j Hj Hsj. destruct (decide (j = i)) as [->|Hne].
           ++ rewrite (slice_one _ _ _ Hl). simpl. specialize (Hi Hsj). lia.
           ++ rewrite (slice_cons _ _ _ _ Hl) by lia. simpl.
              specialize (Hnz j ltac:(lia) Hsj). lia.
Qed.

(** What extraction went through when it returned a block. *)
Lemma extract_module_block_some_inv text module block :
  extract_module_block text module = Ret (Some block) ->
  exists d s e,
    declaring_line module (split nl text) d /\
    nearest_brace_before (split nl text) d s /\
    first_close (split nl text) s e /\
    block = join nl (slice s (S e) (split nl text)).
Proof.
  unfold extract_module_block. set (lines := split nl text).
  destruct (find_module_line module lines 0) as [d|] eqn:F; [|discriminate].
  apply find_module_line_some in F as (j & -> & Hd). simpl.
  pose proof (declaring_line_lt _ _ _ Hd) as Hlt.
  destruct (scan_back lines j) as [s|x] eqn:Sb; [|discriminate].
  destruct (scan_back_inv _ _ _ Hlt Sb) as (Hsj & Hno & Hat).
  cbn [mbind outcome_bind].
  assert (Fin : brace_line_at lines s ->
    ('(brace_count, end_idx) ←
        count_braces lines s (seq s (length lines - s)) 0 s;
      if negb (brace_count =? 0) then Ret None
      else Ret (Some (join nl (slice s (end_idx + 1) lines))))
    = Ret (Some block) ->
    exists d s e,
      declaring_line module lines d /\ nearest_brace_before lines d s /\
      first_close lines s e /\ block = join nl (slice s (S e) lines)).
  { intros Hb H.
    destruct (count_braces lines s (seq s (length lines - s)) 0 s)
      as [[bc e]|x] eqn:C; [|discriminate].
    cbn [mbind outcome_bind] in H.
    destruct (bc =? 0) eqn:Z0; cbn [negb] in H; [|discriminate].
    injection H as <-. apply Z.eqb_eq in Z0.
    assert (Hn : (s + (length lines - s) = length lines)%nat) by lia.
    destruct (count_braces_inv _ _ _ _ _ _ _ _ Hn C)
      as [(_ & He & Hse & Hsum & Hnz)|(_ & Hsum & Hnz)].
    - exists j, s, e. split; [exact Hd|]. split; [|split].
      + split; [|split; [exact Hb|]].
        * destruct (decide (s = j)) as [->|Hne]; [|lia].
          destruct (declaring_line_not_brace _ _ _ Hd Hb).
        * intros k Hk. apply Hno. lia.
      + split; [lia|]. split; [unfold depth; lia|].
        intros k Hk. unfold depth. specialize (Hnz k ltac:(lia) ltac:(lia)). lia.
      + rewrite Nat.add_1_r. reflexivity.
    - exfalso. destruct Hb as (l & Hl & B).
      destruct (decide (S s = length lines)) as [E|Hne].
      + rewrite (drop_S _ _ _ Hl), drop_ge in Hsum by lia. simpl in Hsum.
        rewrite (brace_line_delta _ B) in Hsum. lia.
      + apply (Hnz (length lines - 1)%nat); [lia | lia |].
        rewrite slice_to_end by lia. lia. }
  destruct (Nat.eqb_spec s 0) as [->|Hne].
  - destruct (lookup_lt_is_Some_2 lines 0 ltac:(lia)) as [l0 Hl0].
    rewrite (index_lookup _ _ _ Hl0). cbn [mbind outcome_bind].
    destruct (is_open_brace_line l0) eqn:B0; cbn [negb]; [|discriminate].
    apply Fin. exists l0. auto.
  - destruct Hat as [->|Hb]; [congruence|]. apply Fin. exact Hb.
Qed.

Lemma join_two_lines l l' ls : join nl (l :: l' :: ls) <> [].
Proof.
  change (join nl (l :: l' :: ls)) with (l ++ nl :: join nl (l' :: ls)).
  destruct l; discriminate.
Qed.

Lemma slice_two_lines lines s e :
  (s < e < length lines)%nat ->
  exists l l' ls, slice s (S e) lines = l :: l' :: ls.
Proof.
  intros H.
  destruct (lookup_lt_is_Some_2 lines s ltac:(lia)) as [l Hl].
  destruct (lookup_lt_is_Some_2 lines (S s) ltac:(lia)) as [l' Hl'].
  exists l, l', (slice (S (S s)) (S e) lines).
  rewrite (slice_cons _ _ _ _ Hl) by lia.
  rewrite (slice_cons _ _ _ _ Hl') by lia. reflexivity.
Qed.

(** X1: a block that extraction returns is never a partial one.  It is the
    run of lines from the nearest standalone opening-brace line before the
    declaring line through the first later line of depth zero; it has as
    many opening as closing braces and it is not empty. *)
Theorem extract_module_block_sound text module block :
  extract_module_block text module = Ret (Some block) ->
  exists d s e,
    declaring_line module (split nl text) d /\
    nearest_brace_before (split nl text) d s /\
    first_close (split nl text) s e /\
    block = join nl (slice s (S e) (split nl text)) /\
    count lbrace block = count rbrace block /\
    block <> [].
Proof.
  intros H. apply extract_module_block_some_inv in H as (d & s & e & Hd & Hs & He & ->).
  exists d, s, e. repeat split; try apply Hd; try apply Hs; try apply He.
  - destruct He as (_ & Hz & _). unfold depth in Hz.
    pose proof (line_delta_join (slice s (S e) (split nl text))) as J.
    unfold line_delta in J. lia.
  - destruct He as (He & _). destruct (slice_two_lines _ _ _ He) as (l & l' & ls & ->).
    apply join_two_lines.
Qed.

Lemma extract_module_block_sound_witness :
  exists d s e,
    declaring_line (lit "Foo") (split nl doc_found) d /\
    nearest_brace_before (split nl doc_found) d s /\
    first_close (split nl doc_found) s e /\
    doc_found = join nl (slice s (S e) (split nl doc_found)) /\
    count lbrace doc_found = count rbrace doc_found /\
    doc_found <> [].
Proof.
  apply (extract_module_block_sound doc_found (lit "Foo") doc_found).
  vm_compute. reflexivity.
Defined.

End ExtractionSound.

(** ** Template population: which files it writes, and what *)

Section PopulationMore.

Implicit Types (w : world) (module master_text : str) (ms : list str).

Lemma populated_lookup_self master_text w a :
  files (populated master_text w a) !! Template a
  = match files w !! Template a with
    | Some t => Some t
    | None =>
        if startswith (lit "default/") a then None
        else template_source master_text a w
    end.
Proof.
  unfold populated. destruct (startswith (lit "default/") a).
  - destruct (files w !! Template a); reflexivity.
  - destruct (files w !! Template a) as [t|] eqn:Ht; [exact Ht|].
    destruct (template_source master_text a w) as [t|]; [|exact Ht].
    unfold written. cbn [files]. apply lookup_insert_eq.
Qed.

Lemma template_source_loop master_text module ms : forall w,
  template_source master_text module (foldl (populated master_text) w ms)
  = template_source master_text module w.
Proof.
  induction ms as [|a ms IH]; intros w; [reflexivity|].
  cbn [foldl]. rewrite IH. apply template_source_populated.
Qed.

Lemma loop_fragment master_text ms : forall w m,
  files (foldl (populated master_text) w ms) !! Template m
  = match files w !! Template m with
    | Some t => Some t
    | None =>
        if bool_decide (m ∈ ms) && negb (startswith (lit "default/") m)
        then template_source master_text m w
        else None
    end.
Proof.
  induction ms as [|a ms IH]; intros w m.
  - cbn [foldl]. destruct (files w !! Template m); reflexivity.
  - cbn [foldl]. rewrite IH, template_source_populated.
    destruct (decide (m = a)) as [->|Hne].
    + rewrite populated_lookup_self.
      rewrite (bool_decide_eq_true_2 (a ∈ a :: ms)) by (left; reflexivity).
      destruct (files w !! Template a) as [t|]; [reflexivity|].
      destruct (startswith (lit "default/") a); cbn [negb andb].
      * rewrite andb_false_r. reflexivity.
      * destruct (template_source master_text a w) as [t|]; [reflexivity|].
        rewrite andb_true_r. destruct (bool_decide (a ∈ ms)); reflexivity.
    + rewrite populated_lookup_other by congruence.
      destruct (files w !! Template m) as [t|]; [reflexivity|].
      assert (E : bool_decide (m ∈ a :: ms) = bool_decide (m ∈ ms)).
      { apply bool_decide_ext. rewrite elem_of_cons. tauto. }
      rewrite E. reflexivity.
Qed.

Lemma loop_lookup_other master_text ms : forall w p,
  (forall m, p <> Template m) ->
  files (foldl (populated master_text) w ms) !! p = files w !! p.
Proof.
  induction ms as [|a ms IH]; intros w p Hp; [reflexivity|].
  cbn [foldl]. rewrite IH by exact Hp. apply populated_lookup_other, Hp.
Qed.

(** X2: the fragment of a module after a run of [populate_templates].  A
    fragment that was there is kept; otherwise a module of the list that is
    not prefixed [default/] gets the block of the master record, else the
    block of its README, else its sample file, else nothing; every other
    module gets nothing. *)
Theorem populate_templates_fragments installed_modules w master_text m :
  files w !! Master = Some master_text ->
  files (snd (populate_templates installed_modules w)) !! Template m
  = match files w !! Template m with
    | Some t => Some t
    | None =>
        if bool_decide (m ∈ installed_modules)
           && negb (startswith (lit "default/") m)
        then template_source master_text m w
        else None
    end.
Proof.
  intros Hm. rewrite populate_templates_run, Hm. cbn [snd]. apply loop_fragment.
Qed.

Lemma populate_templates_fragments_witness :
  files (snd (populate_templates [lit "x"] tx_world)) !! Template (lit "x")
  = match files tx_world !! Template (lit "x") with
    | Some t => Some t
    | None =>
        if bool_decide (lit "x" ∈ [lit "x"])
           && negb (startswith (lit "default/") (lit "x"))
        then template_source (lit "old master") (lit "x") tx_world
        else None
    end.
Proof.
  apply (populate_templates_fragments [lit "x"] tx_world (lit "old master") (lit "x")).
  vm_compute. reflexivity.
Defined.

(** X3: [populate_templates] writes fragment files only: the master record,
    the active output, the backups, prologue, epilogue, pages template,
    READMEs and samples are as they were. *)
Theorem populate_templates_frame installed_modules w p :
  (forall m, p <> Template m) ->
  files (snd (populate_templates installed_modules w)) !! p = files w !! p.
Proof.
  intros Hp. rewrite populate_templates_run.
  destruct (files w !! Master) as [mt|]; cbn [snd]; [|reflexivity].
  apply loop_lookup_other, Hp.
Qed.

Lemma populate_templates_frame_witness :
  files (snd (populate_templates [lit "x"] tx_world)) !! Master
  = files tx_world !! Master.
Proof.
  apply (populate_templates_frame [lit "x"] tx_world Master). intros m. discriminate.
Defined.

(** X5: the files after [populate_templates] do not depend on the order of
    the list of installed modules, nor on repetitions in it. *)
Theorem populate_templates_order installed_modules installed_modules' w :
  (forall m, m ∈ installed_modules <-> m ∈ installed_modules') ->
  files (snd (populate_templates installed_modules w))
  = files (snd (populate_templates installed_modules' w)).
Proof.
  intros Hsame. rewrite !populate_templates_run.
  destruct (files w !! Master) as [mt|]; cbn [snd]; [|reflexivity].
  apply map_eq. intros p.
  destruct p as [| | | | | | |m|m|m];
    try (rewrite !loop_lookup_other by (intros; discriminate); reflexivity).
  rewrite !loop_fragment. rewrite (bool_decide_ext _ _ (Hsame m)). reflexivity.
Qed.

Lemma populate_templates_order_witness :
  files (snd (populate_templates [lit "x"; lit "y"] tx_world))
  = files (snd (populate_templates [lit "y"; lit "x"; lit "y"] tx_world)).
Proof.
  apply (populate_templates_order [lit "x"; lit "y"] [lit "y"; lit "x"; lit "y"]).
  intros m. rewrite !elem_of_cons. tauto.
Defined.

End PopulationMore.

(** ** Config generation: fragments, repeated runs, the empty plan *)

Section AssemblyMore.

Implicit Types (modules texts : list str) (w : world) (b ws : str).

Lemma rstrip_all_space ws : all_space ws -> rstrip ws = [].
Proof.
  induction 1 as [|c ws Hc _ IH]; [reflexivity|].
  cbn [rstrip]. rewrite IH, Hc. reflexivity.
Qed.

Lemma rstrip_app_space b ws : all_space ws -> rstrip (b ++ ws) = rstrip b.
Proof.
  intros Hws. induction b as [|c b IH]; [apply rstrip_all_space, Hws|].
  cbn [app rstrip]. rewrite IH. reflexivity.
Qed.

Lemma rstrip_snoc b c : is_space c = false -> rstrip (b ++ [c]) = b ++ [c].
Proof.
  intros Hc. induction b as [|d b IH].
  - cbn. rewrite Hc. reflexivity.
  - cbn [app rstrip]. rewrite IH. destruct b; reflexivity.
Qed.

Lemma endswith_snoc c b d : endswith c (b ++ [d]) = (d =? c)%N.
Proof. unfold endswith. rewrite last_snoc. reflexivity. Qed.

(** X6: what [generate_config] keeps of a fragment.  Of a fragment that is
    a text [b], a comma and whitespace it keeps [b], whatever [b] is: the
    trailing whitespace and exactly one comma before it are dropped, and
    nothing more (a second comma, or whitespace before the comma, stays).
    Of a fragment that ends, before its trailing whitespace, in a character
    that is no comma, only the trailing whitespace is dropped. *)
Theorem module_content_trailing b ws :
  all_space ws ->
  module_content (b ++ comma :: ws) = b /\
  forall c, is_space c = false -> c <> comma ->
            module_content ((b ++ [c]) ++ ws) = b ++ [c].
Proof.
  intros Hws. unfold module_content. split.
  - change (b ++ comma :: ws) with (b ++ [comma] ++ ws).
    rewrite app_assoc, rstrip_app_space by exact Hws.
    rewrite rstrip_snoc by reflexivity.
    rewrite endswith_snoc, N.eqb_refl. unfold drop_last.
    apply removelast_last.
  - intros c Hc Hne. rewrite rstrip_app_space by exact Hws.
    rewrite rstrip_snoc by exact Hc. rewrite endswith_snoc.
    destruct (N.eqb_spec c comma) as [E|_]; [contradiction|reflexivity].
Qed.

Lemma module_content_trailing_witness :
  module_content (lit "{ a: 1 }" ++ comma :: [nl]) = lit "{ a: 1 }" /\
  forall c, is_space c = false -> c <> comma ->
            module_content ((lit "{ a: 1 }" ++ [c]) ++ [nl]) = lit "{ a: 1 }" ++ [c].
Proof.
  apply (module_content_trailing (lit "{ a: 1 }") [nl]).
  repeat constructor.
Defined.

Lemma written_files p doc w : files (written p doc w) = <[p := doc]> (files w).
Proof. reflexivity. Qed.

Lemma resources_present_written modules use_pages doc w :
  resources_present modules use_pages (written ConfigJs doc w)
  <-> resources_present modules use_pages w.
Proof.
  unfold resources_present. rewrite !written_lookup_ne by discriminate.
  assert (F : Forall (fun m => is_Some (files (written ConfigJs doc w) !! Template m))
                modules
              <-> Forall (fun m => is_Some (files w !! Template m)) modules).
  { apply Forall_iff. intros m. rewrite written_lookup_ne by discriminate.
    reflexivity. }
  rewrite F. reflexivity.
Qed.

Lemma Forall2_lookup_functional modules w w' : forall texts texts',
  (forall m, files w' !! Template m = files w !! Template m) ->
  Forall2 (fun m t => files w !! Template m = Some t) modules texts ->
  Forall2 (fun m t => files w' !! Template m = Some t) modules texts' ->
  texts' = texts.
Proof.
  induction modules as [|m modules IH]; intros texts texts' Hsame H H'.
  - apply Forall2_nil_inv_l in H, H'. congruence.
  - apply Forall2_cons_inv_l in H as (t & ts & Ht & H & ->).
    apply Forall2_cons_inv_l in H' as (t' & ts' & Ht' & H' & ->).
    rewrite Hsame in Ht'. f_equal; [congruence|]. apply IH; assumption.
Qed.

(** X7: a successful [generate_config] changes [config.js] and nothing else,
    and it does not read what it writes: run again on its own result it
    succeeds again and leaves every file as the first run left it. *)
Theorem generate_config_again modules use_pages pages_module_name w :
  resources_present modules use_pages w ->
  fst (generate_config modules use_pages pages_module_name w) = Ret tt /\
  (forall p, p <> ConfigJs ->
     files (snd (generate_config modules use_pages pages_module_name w)) !! p
     = files w !! p) /\
  fst (generate_config modules use_pages pages_module_name
         (snd (generate_config modules use_pages pages_module_name w))) = Ret tt /\
  files (snd (generate_config modules use_pages pages_module_name
                (snd (generate_config modules use_pages pages_module_name w))))
  = files (snd (generate_config modules use_pages pages_module_name w)).
Proof.
  intros Hres.
  destruct (generate_config_ok _ _ pages_module_name _ Hres)
    as (head & tail & pages & texts & Hh & Ht & Htexts & Hpages & G).
  rewrite G. cbn [fst snd]. set (doc := head ++ _) in *.
  split; [reflexivity|]. split.
  { intros p Hp. apply written_lookup_ne. exact Hp. }
  pose proof (proj2 (resources_present_written modules use_pages doc w) Hres) as Hres'.
  destruct (generate_config_ok _ _ pages_module_name _ Hres')
    as (head' & tail' & pages' & texts' & Hh' & Ht' & Htexts' & Hpages' & G').
  rewrite written_lookup_ne in Hh', Ht' by discriminate.
  assert (head' = head) as -> by congruence.
  assert (tail' = tail) as -> by congruence.
  assert (texts' = texts) as ->.
  { eapply Forall2_lookup_functional; [|exact Htexts|exact Htexts'].
    intros m. apply written_lookup_ne. discriminate. }
  assert (pages' = pages) as ->.
  { destruct use_pages; [|congruence].
    destruct Hpages as (p & Hp & ->). destruct Hpages' as (p' & Hp' & ->).
    rewrite written_lookup_ne in Hp' by discriminate. congruence. }
  rewrite G'. cbn [fst snd]. split; [reflexivity|].
  fold doc. rewrite !written_files. apply insert_insert_eq.
Qed.

Lemma generate_config_again_witness :
  fst (generate_config [lit "x"; lit "y"] false None scenario_world) = Ret tt /\
  (forall p, p <> ConfigJs ->
     files (snd (generate_config [lit "x"; lit "y"] false None scenario_world)) !! p
     = files scenario_world !! p) /\
  fst (generate_config [lit "x"; lit "y"] false None
         (snd (generate_config [lit "x"; lit "y"] false None scenario_world)))
  = Ret tt /\
  files (snd (generate_config [lit "x"; lit "y"] false None
                (snd (generate_config [lit "x"; lit "y"] false None scenario_world))))
  = files (snd (generate_config [lit "x"; lit "y"] false None scenario_world)).
Proof.
  apply (generate_config_again [lit "x"; lit "y"] false None scenario_world).
  repeat split.
  - vm_compute. eauto.
  - vm_compute. eauto.
  - repeat constructor; vm_compute; eauto.
  - discriminate.
Defined.

(** X8: the empty plan.  No fragment is read, and the document is the
    prologue, the paged section when it is active, and the epilogue. *)
Theorem generate_config_empty_plan use_pages pages_module_name w head tail :
  files w !! Head = Some head ->
  files w !! Tail = Some tail ->
  generate_config [] use_pages pages_module_name w
  = if use_pages then
      match files w !! Pages with
      | Some p =>
          (Ret tt,
           written ConfigJs (head ++ pages_section pages_module_name p ++ tail) w)
      | None => (Raise (SystemExit 1), rolled_back w)
      end
    else (Ret tt, written ConfigJs (head ++ tail) w).
Proof.
  intros Hh Ht.
  assert (Hnil : Forall2 (fun m t => files w !! Template m = Some t) [] [])
    by constructor.
  destruct use_pages.
  - destruct (files w !! Pages) as [p|] eqn:Hp.
    + destruct (generate_config_ok [] true pages_module_name w)
        as (head' & tail' & pages & texts & Hh' & Ht' & Htexts & (p' & Hp' & ->) & ->).
      { repeat split; eauto. }
      apply Forall2_nil_inv_l in Htexts as ->.
      assert (head' = head) as -> by congruence.
      assert (tail' = tail) as -> by congruence.
      assert (p' = p) as -> by congruence. reflexivity.
    + rewrite generate_config_missing; [apply die_run|].
      intros (_ & _ & _ & H). destruct (H eq_refl) as [p Hp']. congruence.
  - destruct (generate_config_ok [] false pages_module_name w)
      as (head' & tail' & pages & texts & Hh' & Ht' & Htexts & -> & ->).
    { repeat split; eauto. discriminate. }
    apply Forall2_nil_inv_l in Htexts as ->.
    assert (head' = head) as -> by congruence.
    assert (tail' = tail) as -> by congruence. reflexivity.
Qed.

Lemma generate_config_empty_plan_witness :
  generate_config [] false None scenario_world
  = (Ret tt,
     written ConfigJs ((lit "A{" ++ [nl]) ++ (lit "}" ++ [nl])) scenario_world).
Proof.
  apply (generate_config_empty_plan false None scenario_world); vm_compute; reflexivity.
Defined.

End AssemblyMore.

(** ** Backup and rollback *)

Section UtilityMore.

Implicit Types (w : world).

Lemma write_text_run p s w : write_text p s w = (Ret tt, written p s w).
Proof. reflexivity. Qed.

Lemma copied_files src dst w :
  files (copied src dst w)
  = match files w !! src with
    | Some s => <[dst := s]> (files w)
    | None => files w
    end.
Proof. unfold copied. destruct (files w !! src); reflexivity. Qed.

(** X9: backup and rollback are a round trip for the files that exist.
    [backup] leaves the master record and the active output as they are, and
    after both have been overwritten, [rollback] gives each its content of
    the time of the backup. *)
Theorem rollback_after_backup w m c new_master new_config :
  files w !! Master = Some m ->
  files w !! ConfigJs = Some c ->
  fst (backup w) = Ret tt /\
  files (snd (backup w)) !! Master = Some m /\
  files (snd (backup w)) !! ConfigJs = Some c /\
  fst (rollback (written Master new_master
                   (written ConfigJs new_config (snd (backup w))))) = Ret tt /\
  files (snd (rollback (written Master new_master
                          (written ConfigJs new_config (snd (backup w))))))
    !! Master = Some m /\
  files (snd (rollback (written Master new_master
                          (written ConfigJs new_config (snd (backup w))))))
    !! ConfigJs = Some c.
Proof.
  intros Hm Hc. rewrite backup_run, rollback_run. cbn [fst snd].
  destruct (backed_up_baks _ _ _ Hm Hc) as [Bm Bc].
  split; [reflexivity|].
  split; [rewrite backed_up_lookup by discriminate; exact Hm|].
  split; [rewrite backed_up_lookup by discriminate; exact Hc|].
  split; [reflexivity|].
  apply rolled_back_restores; rewrite !written_lookup_ne by discriminate; assumption.
Qed.

Lemma rollback_after_backup_witness :
  fst (backup tx_world) = Ret tt /\
  files (snd (backup tx_world)) !! Master = Some (lit "old master") /\
  files (snd (backup tx_world)) !! ConfigJs = Some (lit "old config") /\
  fst (rollback (written Master (lit "m")
                   (written ConfigJs (lit "c") (snd (backup tx_world))))) = Ret tt /\
  files (snd (rollback (written Master (lit "m")
                          (written ConfigJs (lit "c") (snd (backup tx_world))))))
    !! Master = Some (lit "old master") /\
  files (snd (rollback (written Master (lit "m")
                          (written ConfigJs (lit "c") (snd (backup tx_world))))))
    !! ConfigJs = Some (lit "old config").
Proof.
  apply (rollback_after_backup tx_world); vm_compute; reflexivity.
Defined.

(** X10: a stale backup.  When a file does not exist, [backup] leaves its
    backup slot as it is, and a [rollback] that follows creates the file
    from that older backup. *)
Theorem rollback_stale_backup w p slot old :
  backup_slot p = Some slot ->
  files w !! p = None ->
  files w !! slot = Some old ->
  files (snd (backup w)) !! slot = Some old /\
  files (snd (rollback (snd (backup w)))) !! p = Some old.
Proof.
  intros Hslot Hp Hold. rewrite backup_run, rollback_run. cbn [fst snd].
  unfold rolled_back, backed_up.
  destruct p; try discriminate; injection Hslot as <-.
  - assert (B : files (copied ConfigJs ConfigJsBak (copied Master MasterBak w))
                  !! MasterBak = Some old).
    { rewrite copied_lookup_ne by discriminate.
      unfold copied. rewrite Hp. exact Hold. }
    split; [exact B|].
    rewrite copied_lookup_ne by discriminate. apply copied_lookup_eq. exact B.
  - assert (B : files (copied ConfigJs ConfigJsBak (copied Master MasterBak w))
                  !! ConfigJsBak = Some old).
    { unfold copied at 1. rewrite copied_lookup_ne by discriminate. rewrite Hp.
      rewrite copied_lookup_ne by discriminate. exact Hold. }
    split; [exact B|].
    apply copied_lookup_eq. rewrite copied_lookup_ne by discriminate. exact B.
Qed.

Lemma rollback_stale_backup_witness :
  files (snd (backup (written ConfigJsBak (lit "stale") tx_world_no_output)))
    !! ConfigJsBak = Some (lit "stale") /\
  files (snd (rollback (snd (backup (written ConfigJsBak (lit "stale")
                                       tx_world_no_output)))))
    !! ConfigJs = Some (lit "stale").
Proof.
  apply (rollback_stale_backup _ ConfigJs ConfigJsBak (lit "stale"));
    vm_compute; reflexivity.
Defined.

Lemma rolled_back_lookup w p :
  p <> Master -> p <> ConfigJs -> files (rolled_back w) !! p = files w !! p.
Proof.
  intros H1 H2. unfold rolled_back. rewrite !copied_lookup_ne by assumption.
  reflexivity.
Qed.

Lemma rolled_back_master w :
  files (rolled_back w) !! Master
  = match files w !! MasterBak with
    | Some mb => Some mb
    | None => files w !! Master
    end.
Proof.
  unfold rolled_back. rewrite copied_lookup_ne by discriminate.
  destruct (files w !! MasterBak) as [mb|] eqn:Hmb.
  - apply copied_lookup_eq. exact Hmb.
  - unfold copied. rewrite Hmb. reflexivity.
Qed.

Lemma rolled_back_config w :
  files (rolled_back w) !! ConfigJs
  = match files w !! ConfigJsBak with
    | Some cb => Some cb
    | None => files w !! ConfigJs
    end.
Proof.
  unfold rolled_back.
  assert (E : files (copied MasterBak Master w) !! ConfigJsBak
              = files w !! ConfigJsBak)
    by (apply copied_lookup_ne; discriminate).
  destruct (files w !! ConfigJsBak) as [cb|] eqn:Hcb.
  - apply copied_lookup_eq. exact E.
  - unfold copied at 1. rewrite E. apply copied_lookup_ne. discriminate.
Qed.

(** X11: where the active output exists, or has no backup, [rollback]
    copies only into directories that are there: it returns normally,
    writes no file but the master record and the active output, and a
    second rollback changes no file. *)
Theorem rollback_twice w :
  files w !! ConfigJsBak = None \/ is_Some (files w !! ConfigJs) ->
  fst (rollback w) = Ret tt /\
  (forall p, p <> Master -> p <> ConfigJs ->
     files (snd (rollback w)) !! p = files w !! p) /\
  files (snd (rollback (snd (rollback w)))) = files (snd (rollback w)).
Proof.
  intros _.
  rewrite !rollback_run. cbn [fst snd]. split; [reflexivity|].
  split; [intros p; apply rolled_back_lookup|].
  apply map_eq. intros p.
  destruct (decide (p = Master)) as [->|Hm].
  { rewrite (rolled_back_master (rolled_back w)).
    rewrite rolled_back_lookup by discriminate.
    destruct (files w !! MasterBak) as [mb|] eqn:Hmb; [|reflexivity].
    rewrite rolled_back_master, Hmb. reflexivity. }
  destruct (decide (p = ConfigJs)) as [->|Hc].
  { rewrite (rolled_back_config (rolled_back w)).
    rewrite rolled_back_lookup by discriminate.
    destruct (files w !! ConfigJsBak) as [cb|] eqn:Hcb; [|reflexivity].
    rewrite rolled_back_config, Hcb. reflexivity. }
  apply rolled_back_lookup; assumption.
Qed.

Lemma rollback_twice_witness :
  fst (rollback (written ConfigJsBak (lit "bak config") tx_world)) = Ret tt /\
  (forall p, p <> Master -> p <> ConfigJs ->
     files (snd (rollback (written ConfigJsBak (lit "bak config") tx_world))) !! p
     = files (written ConfigJsBak (lit "bak config") tx_world) !! p) /\
  files (snd (rollback (snd (rollback
           (written ConfigJsBak (lit "bak config") tx_world)))))
  = files (snd (rollback (written ConfigJsBak (lit "bak config") tx_world))).
Proof.
  apply (rollback_twice (written ConfigJsBak (lit "bak config") tx_world)).
  right. vm_compute. eauto.
Defined.

End UtilityMore.

(** ** The transaction
    What [test_flow] leaves behind on each of its ways out. *)

Section TransactionMore.

Implicit Types (modules : list str) (w : world) (e : env).

(** The document does not depend on the backups: assembly on the world after
    [backup] writes the document it would write before it. *)
Lemma generate_config_backed_up modules use_pages name w :
  resources_present modules use_pages w ->
  exists doc,
    generate_config modules use_pages name w = (Ret tt, written ConfigJs doc w) /\
    generate_config modules use_pages name (backed_up w)
    = (Ret tt, written ConfigJs doc (backed_up w)).
Proof.
  intros Hres.
  destruct (generate_config_ok _ _ name _ Hres)
    as (head & tail & pages & texts & Hh & Ht & Htexts & Hpages & G).
  pose proof (proj2 (resources_present_backed_up modules use_pages w) Hres) as Hres'.
  destruct (generate_config_ok _ _ name _ Hres')
    as (head' & tail' & pages' & texts' & Hh' & Ht' & Htexts' & Hpages' & G').
  rewrite backed_up_lookup in Hh', Ht' by discriminate.
  assert (head' = head) as -> by congruence.
  assert (tail' = tail) as -> by congruence.
  assert (texts' = texts) as ->.
  { eapply Forall2_lookup_functional; [|exact Htexts|exact Htexts'].
    intros m. apply backed_up_lookup; discriminate. }
  assert (pages' = pages) as ->.
  { destruct use_pages; [|congruence].
    destruct Hpages as (p & Hp & ->). destruct Hpages' as (p' & Hp' & ->).
    rewrite backed_up_lookup in Hp' by discriminate. congruence. }
  eexists. split; [exact G | exact G'].
Qed.

(** The worlds a transaction can end in. *)
Lemma test_flow_worlds e modules allow_pages name allow_master_update w :
  let w' := snd (test_flow e modules allow_pages name allow_master_update w) in
  w' = rolled_back (backed_up w) \/
  exists doc,
    w' = written ConfigJs doc (backed_up w) \/
    w' = rolled_back (written ConfigJs doc (backed_up w)) \/
    w' = written Master doc (written ConfigJs doc (backed_up w)).
Proof.
  cbv zeta.
  destruct (decide (resources_present modules allow_pages w)) as [Hres|Hres].
  - destruct (generate_config_backed_up _ _ name _ Hres) as (doc & _ & G).
    right. exists doc.
    rewrite (test_flow_generated _ _ _ _ _ _ _ G). cbv zeta.
    destruct (run_mm_test_outcome e) as [[]|x].
    + destruct allow_master_update; [|auto].
      destruct (typed e) as [line|x]; [|auto].
      destruct (bool_decide _); auto.
    + destruct (is_Exception x); auto.
  - left. rewrite (test_flow_missing _ _ _ _ _ _ Hres). reflexivity.
Qed.

(** X12: a transaction touches four files only, whatever its outcome: the
    master record, the active output and their two backups.  Prologue,
    epilogue, pages template, fragments, READMEs and samples are as
    before. *)
Theorem test_flow_frame e modules allow_pages name allow_master_update w p :
  p <> Master -> p <> MasterBak -> p <> ConfigJs -> p <> ConfigJsBak ->
  files (snd (test_flow e modules allow_pages name allow_master_update w)) !! p
  = files w !! p.
Proof.
  intros H1 H2 H3 H4.
  destruct (test_flow_worlds e modules allow_pages name allow_master_update w)
    as [-> | (doc & [-> | [-> | ->]])].
  - rewrite rolled_back_lookup, backed_up_lookup by assumption. reflexivity.
  - rewrite written_lookup_ne, backed_up_lookup by assumption. reflexivity.
  - rewrite rolled_back_lookup, written_lookup_ne, backed_up_lookup by assumption.
    reflexivity.
  - rewrite !written_lookup_ne, backed_up_lookup by assumption. reflexivity.
Qed.

Lemma test_flow_frame_witness :
  files (snd (test_flow env_not_launched [lit "x"] false None true tx_world))
    !! Template (lit "x")
  = files tx_world !! Template (lit "x").
Proof.
  apply (test_flow_frame env_not_launched [lit "x"] false None true tx_world);
    discriminate.
Defined.

(** X13: a declined update.  With all resources and a restart that can be
    run, an answer other than [y] or [Y] at the prompt makes the transaction
    return [False] with the master record and the active output as they were
    before it. *)
Theorem test_flow_declined e modules allow_pages name w m c line :
  files w !! Master = Some m ->
  files w !! ConfigJs = Some c ->
  resources_present modules allow_pages w ->
  run_mm_test_outcome e = Ret tt ->
  typed e = Ret line -> line <> lit "y" -> line <> lit "Y" ->
  fst (test_flow e modules allow_pages name true w) = Ret false /\
  files (snd (test_flow e modules allow_pages name true w)) !! Master = Some m /\
  files (snd (test_flow e modules allow_pages name true w)) !! ConfigJs = Some c.
Proof.
  intros Hm Hc Hres V T Hy HY.
  destruct (backed_up_baks _ _ _ Hm Hc) as [Bm Bc].
  destruct (generate_config_backed_up _ _ name _ Hres) as (doc & _ & G).
  rewrite (test_flow_generated _ _ _ _ _ _ _ G). cbv zeta. rewrite V, T.
  rewrite bool_decide_eq_false_2 by (intros [?|?]; contradiction).
  cbn [fst snd]. split; [reflexivity|].
  apply rolled_back_restores; rewrite written_lookup_ne by discriminate; assumption.
Qed.

Lemma test_flow_declined_witness :
  fst (test_flow env_restart_fails [lit "x"] false None true tx_world) = Ret false /\
  files (snd (test_flow env_restart_fails [lit "x"] false None true tx_world))
    !! Master = Some (lit "old master") /\
  files (snd (test_flow env_restart_fails [lit "x"] false None true tx_world))
    !! ConfigJs = Some (lit "old config").
Proof.
  apply (test_flow_declined env_restart_fails [lit "x"] false None tx_world
           (lit "old master") (lit "old config") (lit "n")).
  - vm_compute. reflexivity.
  - vm_compute. reflexivity.
  - repeat split.
    + vm_compute. eauto.
    + vm_compute. eauto.
    + repeat constructor. vm_compute. eauto.
    + discriminate.
  - vm_compute. reflexivity.
  - vm_compute. reflexivity.
  - vm_compute. discriminate.
  - vm_compute. discriminate.
Defined.

(** X14: an accepted update.  With all resources, a restart that can be run
    and the answer [y] or [Y], the transaction returns [True]; the master
    record and the active output both hold the document that
    [generate_config] assembles from the resources, and the update can still
    be undone: a rollback after it gives both files their former content. *)
Theorem test_flow_accepted e modules allow_pages name w m c :
  files w !! Master = Some m ->
  files w !! ConfigJs = Some c ->
  resources_present modules allow_pages w ->
  run_mm_test_outcome e = Ret tt ->
  accepted e ->
  exists doc,
    generate_config modules allow_pages name w = (Ret tt, written ConfigJs doc w) /\
    fst (test_flow e modules allow_pages name true w) = Ret true /\
    files (snd (test_flow e modules allow_pages name true w)) !! Master = Some doc /\
    files (snd (test_flow e modules allow_pages name true w)) !! ConfigJs = Some doc /\
    files (snd (rollback (snd (test_flow e modules allow_pages name true w))))
      !! Master = Some m /\
    files (snd (rollback (snd (test_flow e modules allow_pages name true w))))
      !! ConfigJs = Some c.
Proof.
  intros Hm Hc Hres V A.
  destruct (backed_up_baks _ _ _ Hm Hc) as [Bm Bc].
  destruct (generate_config_backed_up _ _ name _ Hres) as (doc & G0 & G).
  exists doc. split; [exact G0|].
  rewrite (test_flow_generated _ _ _ _ _ _ _ G). cbv zeta. rewrite V.
  assert (T : exists line, typed e = Ret line /\
                bool_decide (line = lit "y" \/ line = lit "Y") = true).
  { destruct A as [A|A]; eexists; (split; [exact A|]);
      apply bool_decide_eq_true_2; auto. }
  destruct T as (line & -> & ->). cbn [fst snd].
  split; [reflexivity|].
  split; [unfold written at 1; cbn [files]; apply lookup_insert_eq|].
  split; [rewrite written_lookup_ne by discriminate;
          unfold written; cbn [files]; apply lookup_insert_eq|].
  rewrite rollback_run. cbn [snd].
  apply rolled_back_restores; rewrite !written_lookup_ne by discriminate; assumption.
Qed.

Lemma test_flow_accepted_witness :
  exists doc,
    generate_config [lit "x"] false None tx_world
    = (Ret tt, written ConfigJs doc tx_world) /\
    fst (test_flow (Env (Ret (lit "mm")) (fun _ => Completed 0) (Ret (lit "Y")))
           [lit "x"] false None true tx_world) = Ret true /\
    files (snd (test_flow (Env (Ret (lit "mm")) (fun _ => Completed 0) (Ret (lit "Y")))
                  [lit "x"] false None true tx_world)) !! Master = Some doc /\
    files (snd (test_flow (Env (Ret (lit "mm")) (fun _ => Completed 0) (Ret (lit "Y")))
                  [lit "x"] false None true tx_world)) !! ConfigJs = Some doc /\
    files (snd (rollback (snd (test_flow
             (Env (Ret (lit "mm")) (fun _ => Completed 0) (Ret (lit "Y")))
             [lit "x"] false None true tx_world)))) !! Master
    = Some (lit "old master") /\
    files (snd (rollback (snd (test_flow
             (Env (Ret (lit "mm")) (fun _ => Completed 0) (Ret (lit "Y")))
             [lit "x"] false None true tx_world)))) !! ConfigJs
    = Some (lit "old config").
Proof.
  apply (test_flow_accepted
           (Env (Ret (lit "mm")) (fun _ => Completed 0) (Ret (lit "Y")))
           [lit "x"] false None tx_world (lit "old master") (lit "old config")).
  - vm_compute. reflexivity.
  - vm_compute. reflexivity.
  - repeat split.
    + vm_compute. eauto.
    + vm_compute. eauto.
    + repeat constructor. vm_compute. eauto.
    + discriminate.
  - vm_compute. reflexivity.
  - right. reflexivity.
Defined.

(** X15: without [allow_master_update] the prompt is never read and the
    transaction never returns [True]: its outcome and its final world are
    the same whatever would be typed. *)
Theorem test_flow_no_update e modules allow_pages name w answer :
  test_flow e modules allow_pages name false w
  = test_flow (Env (get_pm2_process_name e) (pm2_restart e) answer)
      modules allow_pages name false w /\
  fst (test_flow e modules allow_pages name false w) <> Ret true.
Proof.
  split.
  - destruct (decide (resources_present modules allow_pages w)) as [Hres|Hres].
    + destruct (generate_config_backed_up _ _ name _ Hres) as (doc & _ & G).
      rewrite !(test_flow_generated _ _ _ _ _ _ _ G). reflexivity.
    + rewrite !(test_flow_missing _ _ _ _ _ _ Hres). reflexivity.
  - destruct (decide (resources_present modules allow_pages w)) as [Hres|Hres].
    + destruct (generate_config_backed_up _ _ name _ Hres) as (doc & _ & G).
      rewrite (test_flow_generated _ _ _ _ _ _ _ G). cbv zeta.
      destruct (run_mm_test_outcome e) as [[]|x]; [discriminate|].
      destruct (is_Exception x); discriminate.
    + rewrite (test_flow_missing _ _ _ _ _ _ Hres). discriminate.
Qed.

(** X16: a trial run is not undone.  Without [allow_master_update], with
    all resources and a restart that can be run (whatever its return code),
    the transaction returns [False], the newly assembled document stays in
    the active output, and the master record is as before. *)
Theorem test_flow_trial e modules allow_pages name w :
  resources_present modules allow_pages w ->
  (exists pm2_name returncode,
     get_pm2_process_name e = Ret pm2_name /\
     pm2_restart e pm2_name = Completed returncode) ->
  exists doc,
    generate_config modules allow_pages name w = (Ret tt, written ConfigJs doc w) /\
    fst (test_flow e modules allow_pages name false w) = Ret false /\
    files (snd (test_flow e modules allow_pages name false w)) !! ConfigJs = Some doc /\
    files (snd (test_flow e modules allow_pages name false w)) !! Master
    = files w !! Master.
Proof.
  intros Hres (pm2_name & returncode & Hn & Hr).
  assert (V : run_mm_test_outcome e = Ret tt).
  { unfold run_mm_test_outcome. rewrite Hn. cbn [mbind outcome_bind].
    rewrite Hr. reflexivity. }
  destruct (generate_config_backed_up _ _ name _ Hres) as (doc & G0 & G).
  exists doc. split; [exact G0|].
  rewrite (test_flow_generated _ _ _ _ _ _ _ G). cbv zeta. rewrite V.
  cbn [fst snd]. split; [reflexivity|].
  split; [unfold written; cbn [files]; apply lookup_insert_eq|].
  rewrite written_lookup_ne, backed_up_lookup by discriminate. reflexivity.
Qed.

Lemma test_flow_trial_witness :
  exists doc,
    generate_config [lit "x"] false None tx_world
    = (Ret tt, written ConfigJs doc tx_world) /\
    fst (test_flow env_restart_fails [lit "x"] false None false tx_world)
    = Ret false /\
    files (snd (test_flow env_restart_fails [lit "x"] false None false tx_world))
      !! ConfigJs = Some doc /\
    files (snd (test_flow env_restart_fails [lit "x"] false None false tx_world))
      !! Master = files tx_world !! Master.
Proof.
  apply (test_flow_trial env_restart_fails [lit "x"] false None tx_world).
  - repeat split.
    + vm_compute. eauto.
    + vm_compute. eauto.
    + repeat constructor. vm_compute. eauto.
    + discriminate.
  - exists (lit "MagicMirror"), 1. split; reflexivity.
Defined.

(** X17: what [except Exception] does not catch, and what is raised outside
    the [try].  When the restart step lets a [KeyboardInterrupt] or a
    [SystemExit] through, or when reading the answer at the prompt raises
    (end of input, an interrupt), the exception leaves [test_flow] as it is
    and there is no rollback: the newly assembled document stays in the
    active output. *)
Theorem test_flow_interrupted e modules allow_pages name allow_master_update w x :
  resources_present modules allow_pages w ->
  (run_mm_test_outcome e = Raise x /\ is_Exception x = false) \/
  (run_mm_test_outcome e = Ret tt /\ allow_master_update = true /\
   typed e = Raise x) ->
  exists doc,
    generate_config modules allow_pages name w = (Ret tt, written ConfigJs doc w) /\
    test_flow e modules allow_pages name allow_master_update w
    = (Raise x, written ConfigJs doc (backed_up w)) /\
    files (snd (test_flow e modules allow_pages name allow_master_update w))
      !! ConfigJs = Some doc /\
    files (snd (test_flow e modules allow_pages name allow_master_update w))
      !! Master = files w !! Master.
Proof.
  intros Hres H.
  destruct (generate_config_backed_up _ _ name _ Hres) as (doc & G0 & G).
  exists doc. split; [exact G0|].
  assert (T : test_flow e modules allow_pages name allow_master_update w
              = (Raise x, written ConfigJs doc (backed_up w))).
  { rewrite (test_flow_generated _ _ _ _ _ _ _ G). cbv zeta.
    destruct H as [(V & X) | (V & -> & Ty)]; rewrite V.
    - rewrite X. reflexivity.
    - rewrite Ty. reflexivity. }
  rewrite T. cbn [snd]. split; [reflexivity|].
  split; [unfold written; cbn [files]; apply lookup_insert_eq|].
  rewrite written_lookup_ne, backed_up_lookup by discriminate. reflexivity.
Qed.

Lemma test_flow_interrupted_witness :
  exists doc,
    generate_config [lit "x"] false None tx_world
    = (Ret tt, written ConfigJs doc tx_world) /\
    test_flow (Env (Ret (lit "mm")) (fun _ => NotLaunched KeyboardInterrupt)
                 (Ret (lit "y")))
      [lit "x"] false None true tx_world
    = (Raise KeyboardInterrupt, written ConfigJs doc (backed_up tx_world)) /\
    files (snd (test_flow
                  (Env (Ret (lit "mm")) (fun _ => NotLaunched KeyboardInterrupt)
                     (Ret (lit "y")))
                  [lit "x"] false None true tx_world)) !! ConfigJs = Some doc /\
    files (snd (test_flow
                  (Env (Ret (lit "mm")) (fun _ => NotLaunched KeyboardInterrupt)
                     (Ret (lit "y")))
                  [lit "x"] false None true tx_world)) !! Master
    = files tx_world !! Master.
Proof.
  apply (test_flow_interrupted
           (Env (Ret (lit "mm")) (fun _ => NotLaunched KeyboardInterrupt)
              (Ret (lit "y")))
           [lit "x"] false None true tx_world KeyboardInterrupt).
  - repeat split.
    + vm_compute. eauto.
    + vm_compute. eauto.
    + repeat constructor. vm_compute. eauto.
    + discriminate.
  - left. split; reflexivity.
Defined.

End TransactionMore.

(** ** Start-up and discovery *)

Section Startup.

Implicit Types (w : world) (listing : list dir_entry).

Lemma init_my_config_run w :
  init_my_config w
  = match files w !! Master with
    | Some _ => (Ret tt, w)
    | None =>
        match files w !! ConfigJs with
        | Some _ => (Ret tt, copied ConfigJs Master w)
        | None => (Raise (FileNotFoundError ConfigJs), w)
        end
    end.
Proof.
  unfold init_my_config.
  destruct (files w !! Master) as [m|] eqn:Hm.
  - rewrite (io_bind_ret _ _ _ _ _ (exists_some _ _ _ Hm)). reflexivity.
  - rewrite (io_bind_ret _ _ _ _ _ (exists_none _ _ Hm)). cbn [negb].
    unfold copy2, copied. destruct (files w !! ConfigJs); reflexivity.
Qed.

(** X18: [init_my_config] creates the master record from the active output
    when there is none, and only then.  It returns normally exactly when
    one of the two files exists; the master record then exists, with its
    old content if it had one and the content of [config.js] otherwise; no
    other file is changed; without both files it raises
    [FileNotFoundError] and changes nothing; and a second call changes
    nothing. *)
Theorem init_my_config_master w :
  (fst (init_my_config w) = Ret tt
   <-> is_Some (files w !! Master) \/ is_Some (files w !! ConfigJs)) /\
  (fst (init_my_config w) = Ret tt ->
   files (snd (init_my_config w)) !! Master
   = match files w !! Master with
     | Some m => Some m
     | None => files w !! ConfigJs
     end) /\
  (forall p, p <> Master -> files (snd (init_my_config w)) !! p = files w !! p) /\
  (fst (init_my_config w) <> Ret tt ->
   init_my_config w = (Raise (FileNotFoundError ConfigJs), w)) /\
  init_my_config (snd (init_my_config w))
  = (fst (init_my_config w), snd (init_my_config w)).
Proof.
  rewrite !init_my_config_run.
  destruct (files w !! Master) as [m|] eqn:Hm.
  { cbn [fst snd]. rewrite Hm.
    repeat split; eauto; try congruence. }
  destruct (files w !! ConfigJs) as [c|] eqn:Hc; cbn [fst snd].
  - assert (M : files (copied ConfigJs Master w) !! Master = Some c)
      by (apply copied_lookup_eq; exact Hc).
    rewrite M.
    split; [split; eauto|]. split; [reflexivity|].
    split; [intros p Hp; apply copied_lookup_ne; exact Hp|].
    split; [congruence | reflexivity].
  - rewrite Hm, Hc. split.
    { split; [discriminate|]. intros [[? ?]|[? ?]]; discriminate. }
    split; [discriminate|]. split; [reflexivity|]. split; reflexivity.
Qed.

(** *** The order of names *)

Lemma str_le_total : Total str_le.
Proof.
  intros a. unfold str_le.
  induction a as [|x a IH]; intros [|y b]; cbn; auto.
  destruct (N.ltb_spec x y), (N.ltb_spec y x); auto; try lia.
Qed.

Lemma str_le_trans : Transitive str_le.
Proof.
  intros a. unfold str_le.
  induction a as [|x a IH]; intros [|y b] [|z c]; cbn; auto; try discriminate.
  destruct (N.ltb_spec x y), (N.ltb_spec y x), (N.ltb_spec y z), (N.ltb_spec z y),
    (N.ltb_spec x z), (N.ltb_spec z x);
    auto; try lia; try discriminate.
  apply IH.
Qed.

Lemma str_le_antisym : AntiSymm (=) str_le.
Proof.
  intros a. unfold str_le.
  induction a as [|x a IH]; intros [|y b]; cbn; auto; try discriminate.
  destruct (N.ltb_spec x y), (N.ltb_spec y x); try lia; try discriminate.
  intros H1 H2. f_equal; [lia | apply IH; assumption].
Qed.

Lemma elem_of_find_modules listing m :
  m ∈ find_modules listing
  <-> DirEntry m true ∈ listing /\ startswith (lit ".") m = false /\ m <> lit "default".
Proof.
  unfold find_modules. rewrite merge_sort_Permutation, elem_of_remove_dups.
  rewrite list_elem_of_In, in_map_iff. split.
  - intros ([n d] & <- & Hin). apply list_elem_of_In, list_elem_of_filter in Hin.
    cbn in Hin. destruct Hin as ((-> & Hdot & Hdef) & Hin). auto.
  - intros (Hin & Hdot & Hdef). exists (DirEntry m true). split; [reflexivity|].
    apply list_elem_of_In, list_elem_of_filter. cbn. auto.
Qed.

Lemma find_modules_sorted listing : StronglySorted str_le (find_modules listing).
Proof.
  unfold find_modules.
  apply (@StronglySorted_merge_sort _ str_le _ str_le_trans str_le_total).
Qed.

Lemma find_modules_NoDup listing : NoDup (find_modules listing).
Proof.
  unfold find_modules. rewrite merge_sort_Permutation. apply NoDup_remove_dups.
Qed.

(** X19: [find_modules] returns the names of the directories of the modules
    directory that do not start with a dot and are not [default], each one
    once, in ascending order; so the order in which the directory is listed
    does not matter, nor does an entry listed twice. *)
Theorem find_modules_names listing :
  StronglySorted str_le (find_modules listing) /\
  NoDup (find_modules listing) /\
  (forall m,
     m ∈ find_modules listing
     <-> DirEntry m true ∈ listing /\ startswith (lit ".") m = false
         /\ m <> lit "default") /\
  forall listing',
    (forall d, d ∈ listing <-> d ∈ listing') ->
    find_modules listing' = find_modules listing.
Proof.
  split; [apply find_modules_sorted|]. split; [apply find_modules_NoDup|].
  split; [apply elem_of_find_modules|].
  intros listing' Hsame.
  apply (@StronglySorted_unique _ str_le str_le_antisym);
    try apply find_modules_sorted.
  apply NoDup_Permutation; try apply find_modules_NoDup.
  intros m. rewrite !elem_of_find_modules, Hsame. reflexivity.
Qed.

Lemma template_source_agree master_text m w w' :
  files w' !! Readme m = files w !! Readme m ->
  files w' !! Sample m = files w !! Sample m ->
  template_source master_text m w' = template_source master_text m w.
Proof. intros Hr Hs. unfold template_source. rewrite Hr, Hs. reflexivity. Qed.

(** X20: [main] reaches the menu with a master record and the fragments in
    place.  When the MagicMirror directory exists, its modules directory
    can be listed, and there is a master record, or else an active output
    to make it from, the menu is entered in a world where the master record
    exists, every file other than it and the fragments is unchanged, and
    each installed module without a fragment has got the one its sources
    give. *)
Theorem main_reaches_menu entries menu w master_text :
  files w !! Master = Some master_text \/
  (files w !! Master = None /\ files w !! ConfigJs = Some master_text) ->
  exists w',
    main true (Ret entries) menu w = menu w' /\
    files w' !! Master = Some master_text /\
    (forall p, p <> Master -> (forall m, p <> Template m) ->
       files w' !! p = files w !! p) /\
    forall m,
      files w' !! Template m
      = match files w !! Template m with
        | Some t => Some t
        | None =>
            if bool_decide (m ∈ find_modules entries)
               && negb (startswith (lit "default/") m)
            then template_source master_text m w
            else None
        end.
Proof.
  intros H.
  set (w1 := match files w !! Master with
             | Some _ => w
             | None => copied ConfigJs Master w
             end).
  assert (I : init_my_config w = (Ret tt, w1)).
  { rewrite init_my_config_run. unfold w1.
    destruct H as [-> | [-> ->]]; reflexivity. }
  assert (M : files w1 !! Master = Some master_text).
  { unfold w1. destruct H as [Hm | [Hm Hc]]; rewrite Hm; [exact Hm|].
    apply copied_lookup_eq. exact Hc. }
  assert (F : forall p, p <> Master -> files w1 !! p = files w !! p).
  { intros p Hp. unfold w1. destruct (files w !! Master); [reflexivity|].
    apply copied_lookup_ne. exact Hp. }
  exists (foldl (populated master_text) w1 (find_modules entries)).
  split; [|split; [|split]].
  - unfold main. cbn [negb].
    rewrite (io_bind_ret _ _ _ _ _ (eq_refl : io_ret tt w = (Ret tt, w))).
    rewrite (io_bind_ret _ _ _ _ _ I).
    rewrite (io_bind_ret _ _ _ _ _
               (eq_refl : lift (Ret entries) w1 = (Ret entries, w1))).
    cbv zeta.
    erewrite io_bind_ret; [reflexivity|].
    rewrite populate_templates_run, M. reflexivity.
  - rewrite loop_lookup_other by (intros; discriminate). exact M.
  - intros p Hp Ht. rewrite loop_lookup_other by exact Ht. apply F, Hp.
  - intros m. rewrite loop_fragment, F by discriminate.
    rewrite (template_source_agree master_text m w w1) by (apply F; discriminate).
    reflexivity.
Qed.

Lemma main_reaches_menu_witness :
  exists w',
    main true (Ret [DirEntry (lit "x") true]) (io_ret tt) tx_world = io_ret tt w' /\
    files w' !! Master = Some (lit "old master") /\
    (forall p, p <> Master -> (forall m, p <> Template m) ->
       files w' !! p = files tx_world !! p) /\
    forall m,
      files w' !! Template m
      = match files tx_world !! Template m with
        | Some t => Some t
        | None =>
            if bool_decide (m ∈ find_modules [DirEntry (lit "x") true])
               && negb (startswith (lit "default/") m)
            then template_source (lit "old master") m tx_world
            else None
        end.
Proof.
  apply (main_reaches_menu [DirEntry (lit "x") true] (io_ret tt) tx_world
           (lit "old master")).
  left. vm_compute. reflexivity.
Defined.

Lemma rollback_without_home_run w :
  rollback_without_home w
  = (match files w !! ConfigJsBak with
     | Some _ => Raise (FileNotFoundError ConfigJs)
     | None => Ret tt
     end, copied MasterBak Master w).
Proof.
  unfold rollback_without_home. rewrite copy_if_exists.
  assert (E : files (copied MasterBak Master w) !! ConfigJsBak
              = files w !! ConfigJsBak)
    by (apply copied_lookup_ne; discriminate).
  destruct (files w !! ConfigJsBak) as [b|] eqn:Hb.
  - rewrite (io_bind_ret _ _ _ _ _ (exists_some _ _ _ E)).
    unfold copy2_no_directory. rewrite E. reflexivity.
  - rewrite (io_bind_ret _ _ _ _ _ (exists_none _ _ E)). reflexivity.
Qed.

Lemma die_without_home_run {A} w :
  @die_without_home A w
  = (match files w !! ConfigJsBak with
     | Some _ => Raise (FileNotFoundError ConfigJs)
     | None => Raise (SystemExit 1)
     end, copied MasterBak Master w).
Proof.
  unfold die_without_home, io_bind. rewrite rollback_without_home_run.
  destruct (files w !! ConfigJsBak); reflexivity.
Qed.

(** X21: the ways in which [main] does not reach the menu.  Without the
    MagicMirror directory it dies: the rollback restores the master record
    from its backup if there is one; then, if the active output has a
    backup, the copy into [config.js] fails with [FileNotFoundError],
    because [config.js] has no directory, and [exit(1)] is not reached;
    otherwise [main] exits with status 1.  With the directory, but with
    neither a master record nor an active output, the [FileNotFoundError]
    of [init_my_config] leaves [main] and nothing is written.  And when the
    modules directory cannot be listed, the exception of [iterdir] leaves
    [main] after [init_my_config] has run and before any fragment is
    written. *)
Theorem main_stops listed menu w :
  main false listed menu w
  = (match files w !! ConfigJsBak with
     | Some _ => Raise (FileNotFoundError ConfigJs)
     | None => Raise (SystemExit 1)
     end, copied MasterBak Master w) /\
  (files w !! Master = None -> files w !! ConfigJs = None ->
   main true listed menu w = (Raise (FileNotFoundError ConfigJs), w)) /\
  (forall x,
     is_Some (files w !! Master) \/ is_Some (files w !! ConfigJs) ->
     main true (Raise x) menu w = (Raise x, snd (init_my_config w)) /\
     forall m, files (snd (init_my_config w)) !! Template m = files w !! Template m).
Proof.
  split; [|split].
  - unfold main. cbn [negb]. unfold io_bind at 1.
    rewrite die_without_home_run.
    destruct (files w !! ConfigJsBak); reflexivity.
  - intros Hm Hc. unfold main. cbn [negb].
    rewrite (io_bind_ret _ _ _ _ _ (eq_refl : io_ret tt w = (Ret tt, w))).
    apply io_bind_raise. rewrite init_my_config_run, Hm, Hc. reflexivity.
  - intros x H.
    assert (I : init_my_config w = (Ret tt, snd (init_my_config w))).
    { rewrite init_my_config_run.
      destruct (files w !! Master) as [m|]; [reflexivity|].
      destruct (files w !! ConfigJs) as [c|]; [reflexivity|].
      destruct H as [[? H]|[? H]]; discriminate. }
    split.
    + unfold main. cbn [negb].
      rewrite (io_bind_ret _ _ _ _ _ (eq_refl : io_ret tt w = (Ret tt, w))).
      rewrite (io_bind_ret _ _ _ _ _ I).
      apply io_bind_raise. reflexivity.
    + intros m. rewrite init_my_config_run.
      destruct (files w !! Master) as [mt|]; [reflexivity|].
      destruct (files w !! ConfigJs) as [c|]; [|reflexivity].
      cbn [snd]. apply copied_lookup_ne. discriminate.
Qed.

End Startup.

(** ** The modules of the master record *)

Section MasterModules.

Implicit Types (s text name pre post ws : str) (w : world).

Lemma keyword_codes : lit "module:" = [109; 111; 100; 117; 108; 101; 58]%N.
Proof. vm_compute. reflexivity. Qed.

Lemma startswith_spec p s : startswith p s = true <-> exists r, s = p ++ r.
Proof.
  revert s. induction p as [|a p IH]; intros s; cbn.
  - split; eauto.
  - destruct s as [|b s].
    + split; [discriminate | intros [r H]; discriminate].
    + rewrite andb_true_iff, N.eqb_eq, IH. split.
      * intros [-> [r ->]]. eauto.
      * intros [r H]. injection H as -> ->. eauto.
Qed.

Lemma contains_spec pat s :
  contains pat s = true <-> exists pre post, s = pre ++ pat ++ post.
Proof.
  induction s as [|c s IH]; cbn [contains]; rewrite orb_true_iff, startswith_spec.
  - split.
    + intros [[r H]|H]; [|discriminate]. exists [], r. exact H.
    + intros (pre & post & H). left.
      destruct pre; [|discriminate]. exists post. exact H.
  - rewrite IH. split.
    + intros [[r H]|(pre & post & ->)].
      * exists [], r. exact H.
      * exists (c :: pre), post. reflexivity.
    + intros (pre & post & H). destruct pre as [|d pre].
      * left. exists post. exact H.
      * right. injection H as -> ->. eauto.
Qed.

Lemma after_prefix_app p r : after_prefix p (p ++ r) = Some r.
Proof.
  induction p as [|a p IH]; cbn; [destruct r; reflexivity|].
  rewrite N.eqb_refl. exact IH.
Qed.

Lemma after_prefix_inv p s r : after_prefix p s = Some r -> s = p ++ r.
Proof.
  revert s. induction p as [|a p IH]; intros s; cbn.
  - destruct s; intros [= ->]; reflexivity.
  - destruct s as [|b s]; [discriminate|].
    destruct (N.eqb_spec a b) as [->|]; [|discriminate].
    intros H. rewrite (IH _ H). reflexivity.
Qed.

Lemma skip_spaces_app ws c r :
  all_space ws -> is_space c = false -> skip_spaces (ws ++ c :: r) = c :: r.
Proof.
  intros Hws Hc. induction Hws as [|d ws Hd _ IH]; cbn.
  - rewrite Hc. reflexivity.
  - rewrite Hd. exact IH.
Qed.

Lemma skip_spaces_inv s :
  exists ws, s = ws ++ skip_spaces s /\ all_space ws.
Proof.
  induction s as [|c s (ws & E & Hws)]; cbn.
  - exists []. split; [reflexivity | constructor].
  - destruct (is_space c) eqn:Hc.
    + exists (c :: ws). split; [cbn; rewrite <- E; reflexivity|].
      constructor; assumption.
    + exists []. split; [reflexivity | constructor].
Qed.

Lemma span_name_app name q r :
  no_quote name -> is_quote q = true -> span_name (name ++ q :: r) = (name, q :: r).
Proof.
  intros Hn Hq. induction Hn as [|c name Hc _ IH]; cbn.
  - rewrite Hq. reflexivity.
  - rewrite Hc, IH. reflexivity.
Qed.

Lemma span_name_inv s name rest :
  span_name s = (name, rest) ->
  s = name ++ rest /\ no_quote name /\
  forall q r, rest = q :: r -> is_quote q = true.
Proof.
  revert name rest. induction s as [|c s IH]; intros name rest; cbn.
  - intros [= <- <-]. split; [reflexivity|]. split; [constructor|]. discriminate.
  - destruct (is_quote c) eqn:Hc.
    + intros [= <- <-]. split; [reflexivity|]. split; [constructor|].
      intros q r [= <- <-]. exact Hc.
    + destruct (span_name s) as [n rst] eqn:E. intros [= <- <-].
      destruct (IH n rst eq_refl) as (-> & Hn & Hq).
      split; [reflexivity|]. split; [constructor; assumption | exact Hq].
Qed.

Lemma match_module_intro ws q name q' rest :
  all_space ws -> is_quote q = true -> is_quote q' = true ->
  name <> [] -> no_quote name ->
  match_module (lit "module:" ++ ws ++ q :: name ++ q' :: rest) = Some (name, rest).
Proof.
  intros Hws Hq Hq' Hne Hn. unfold match_module.
  rewrite after_prefix_app.
  rewrite skip_spaces_app; [|exact Hws|].
  - rewrite Hq, (span_name_app _ _ _ Hn Hq').
    destruct name; [contradiction | reflexivity].
  - destruct (is_space q) eqn:Hs; [|reflexivity].
    apply space_not_quote in Hs. congruence.
Qed.

Lemma match_module_elim s name rest :
  match_module s = Some (name, rest) ->
  exists ws q q',
    s = lit "module:" ++ ws ++ q :: name ++ q' :: rest /\
    all_space ws /\ is_quote q = true /\ is_quote q' = true /\
    name <> [] /\ no_quote name.
Proof.
  unfold match_module. intros H.
  destruct (after_prefix (lit "module:") s) as [r|] eqn:Ha; [|discriminate].
  apply after_prefix_inv in Ha.
  destruct (skip_spaces_inv r) as (ws & Er & Hws).
  destruct (skip_spaces r) as [|q r'] eqn:Hsk; [discriminate|].
  destruct (is_quote q) eqn:Hq; [|discriminate].
  destruct (span_name r') as [n rst] eqn:Hsp.
  destruct (span_name_inv _ _ _ Hsp) as (Er' & Hn & Hq').
  destruct n as [|c n]; [discriminate|].
  destruct rst as [|q' rst]; [discriminate|].
  injection H as <- <-.
  exists ws, q, q'. repeat split; try assumption.
  - rewrite Ha, Er, Er'. reflexivity.
  - eapply Hq'. reflexivity.
  - discriminate.
Qed.

Lemma master_module_re_spec m :
  matches master_module_re m <->
  exists ws q name q',
    m = lit "module:" ++ ws ++ q :: name ++ [q'] /\
    all_space ws /\ is_quote q = true /\ is_quote q' = true /\
    name <> [] /\ no_quote name.
Proof.
  unfold master_module_re. split.
  - intros M.
    apply matches_cat_inv in M as (kw & t1 & -> & Mk & M).
    apply matches_escape in Mk as ->.
    apply matches_cat_inv in M as (ws & t2 & -> & Mw & M).
    apply matches_star_sym in Mw.
    apply matches_cat_inv in M as (x1 & t3 & -> & Mq1 & M).
    apply matches_sym_inv in Mq1 as (q1 & -> & Hq1).
    apply matches_cat_inv in M as (nm & x2 & -> & Mn & Mq2).
    apply matches_cat_inv in Mn as (x3 & nm' & -> & Mc & Mn).
    apply matches_sym_inv in Mc as (c & -> & Hc).
    apply matches_star_sym in Mn.
    apply matches_sym_inv in Mq2 as (q2 & -> & Hq2).
    exists ws, q1, (c :: nm'), q2. repeat split; try assumption.
    + discriminate.
    + constructor.
      * unfold not_quote in Hc. apply negb_true_iff in Hc. exact Hc.
      * eapply Forall_impl; [exact Mn|]. intros d Hd. apply negb_true_iff in Hd.
        exact Hd.
  - intros (ws & q & name & q' & -> & Hws & Hq & Hq' & Hne & Hn).
    constructor; [apply matches_escape; reflexivity|].
    constructor; [apply matches_star_sym; assumption|].
    apply (matches_cat (Sym is_quote) _ [q] (name ++ [q'])); [constructor; assumption|].
    constructor; [|constructor; assumption].
    destruct name as [|c name]; [contradiction|].
    apply Forall_cons in Hn as [Hc Hn].
    apply (matches_cat (Sym not_quote) _ [c] name).
    + constructor. unfold not_quote. rewrite Hc. reflexivity.
    + apply matches_star_sym. eapply Forall_impl; [exact Hn|].
      intros d Hd. cbn in Hd. unfold not_quote. rewrite Hd. reflexivity.
Qed.

(** X22: the pattern of [parse_master_modules] is unambiguous.  Whenever a
    prefix [m] of a text matches the pattern, [match_module] finds that
    match, its group and the text behind it; so at most one prefix of a text
    matches, the group is determined, and the result of [re.findall] does
    not depend on the order in which the engine tries its alternatives. *)
Theorem master_module_re_unambiguous m rest :
  fullmatch master_module_re m = true ->
  exists ws q name q',
    m = lit "module:" ++ ws ++ q :: name ++ [q'] /\
    all_space ws /\ is_quote q = true /\ is_quote q' = true /\
    name <> [] /\ no_quote name /\
    match_module (m ++ rest) = Some (name, rest) /\
    forall m' rest',
      fullmatch master_module_re m' = true -> m' ++ rest' = m ++ rest -> m' = m.
Proof.
  intros M. apply fullmatch_matches, master_module_re_spec in M.
  destruct M as (ws & q & name & q' & -> & Hws & Hq & Hq' & Hne & Hn).
  assert (E : match_module ((lit "module:" ++ ws ++ q :: name ++ [q']) ++ rest)
              = Some (name, rest)).
  { repeat (rewrite <- app_assoc; cbn [app]).
    apply match_module_intro; assumption. }
  exists ws, q, name, q'. repeat split; try assumption.
  intros m' rest' M' Heq.
  apply fullmatch_matches, master_module_re_spec in M'.
  destruct M' as (ws' & p & name' & p' & -> & Hws' & Hp & Hp' & Hne' & Hn').
  assert (E' : match_module ((lit "module:" ++ ws' ++ p :: name' ++ [p']) ++ rest')
               = Some (name', rest')).
  { repeat (rewrite <- app_assoc; cbn [app]).
    apply match_module_intro; assumption. }
  rewrite Heq, E in E'. injection E' as <- <-.
  apply app_inv_tail in Heq. exact Heq.
Qed.

Lemma master_module_re_unambiguous_witness :
  exists ws q name q',
    lit "module: 'clock'" = lit "module:" ++ ws ++ q :: name ++ [q'] /\
    all_space ws /\ is_quote q = true /\ is_quote q' = true /\
    name <> [] /\ no_quote name /\
    match_module (lit "module: 'clock'" ++ lit ", x") = Some (name, lit ", x") /\
    forall m' rest',
      fullmatch master_module_re m' = true ->
      m' ++ rest' = lit "module: 'clock'" ++ lit ", x" -> m' = lit "module: 'clock'".
Proof.
  apply (master_module_re_unambiguous (lit "module: 'clock'") (lit ", x")).
  vm_compute. reflexivity.
Defined.

Lemma findall_skip a b :
  findall_modules (length a) (a ++ b) = findall_modules 0 b.
Proof. induction a as [|c a IH]; [reflexivity | exact IH]. Qed.

(** After a match the scan goes on behind it; without one it goes on at the
    next character. *)
Lemma findall_unfold s :
  findall_modules 0 s
  = match match_module s with
    | Some (name, rest) => name :: findall_modules 0 rest
    | None =>
        match s with
        | [] => []
        | _ :: r => findall_modules 0 r
        end
    end.
Proof.
  destruct s as [|c r]; [reflexivity|].
  cbn [findall_modules].
  destruct (match_module (c :: r)) as [[name rest]|] eqn:E; [|reflexivity].
  f_equal.
  destruct (match_module_elim _ _ _ E) as (ws & q & q' & Hs & _).
  rewrite keyword_codes in Hs. cbn [app] in Hs. injection Hs as -> ->.
  set (m := [111; 100; 117; 108; 101; 58]%N ++ ws ++ q :: name ++ [q']).
  assert (Hr : [111; 100; 117; 108; 101; 58]%N ++ ws ++ q :: name ++ q' :: rest
               = m ++ rest).
  { unfold m. repeat (rewrite <- app_assoc; cbn [app]). reflexivity. }
  cbn [app] in Hr. cbn [app]. rewrite Hr.
  replace (length (109%N :: m ++ rest) - length rest - 1)%nat with (length m)
    by (cbn [length]; rewrite length_app; lia).
  apply findall_skip.
Qed.

Lemma findall_names s : forall skip name,
  name ∈ findall_modules skip s ->
  exists pre ws q q' post,
    s = pre ++ lit "module:" ++ ws ++ q :: name ++ q' :: post /\
    all_space ws /\ is_quote q = true /\ is_quote q' = true /\
    name <> [] /\ no_quote name.
Proof.
  induction s as [|c r IH]; intros skip name Hin.
  - apply elem_of_nil in Hin. contradiction.
  - assert (Tail : forall k, name ∈ findall_modules k r ->
      exists pre ws q q' post,
        c :: r = pre ++ lit "module:" ++ ws ++ q :: name ++ q' :: post /\
        all_space ws /\ is_quote q = true /\ is_quote q' = true /\
        name <> [] /\ no_quote name).
    { intros k Hk.
      destruct (IH k name Hk) as (pre & ws & q & q' & post & -> & H).
      exists (c :: pre), ws, q, q', post. split; [reflexivity | exact H]. }
    cbn [findall_modules] in Hin. destruct skip as [|k]; [|eapply Tail; exact Hin].
    destruct (match_module (c :: r)) as [[n rest]|] eqn:E; [|eapply Tail; exact Hin].
    apply elem_of_cons in Hin as [->|Hin]; [|eapply Tail; exact Hin].
    destruct (match_module_elim _ _ _ E) as (ws & q & q' & Hs & H).
    exists [], ws, q, q', rest. split; [exact Hs | exact H].
Qed.

Lemma parse_master_modules_run w :
  parse_master_modules w
  = match files w !! Master with
    | Some text => (Ret (findall_modules 0 text), w)
    | None => (Raise (FileNotFoundError Master), w)
    end.
Proof.
  unfold parse_master_modules, io_bind, read_text.
  destruct (files w !! Master); reflexivity.
Qed.

(** X23: the names [parse_master_modules] returns.  It reads the master
    record and writes nothing; without a master record it raises
    [FileNotFoundError]; every name it returns is non-empty, contains no
    quote, and is declared in the master text: the pattern by which
    [extract_module_block] looks for the module matches in it. *)
Theorem parse_master_modules_names w :
  match files w !! Master with
  | Some text =>
      exists modules,
        parse_master_modules w = (Ret modules, w) /\
        Forall (fun name => name <> [] /\ no_quote name
                            /\ declares name text = true) modules
  | None => parse_master_modules w = (Raise (FileNotFoundError Master), w)
  end.
Proof.
  rewrite parse_master_modules_run.
  destruct (files w !! Master) as [text|]; [|reflexivity].
  eexists. split; [reflexivity|].
  apply Forall_forall. intros name Hin.
  destruct (findall_names _ _ _ Hin)
    as (pre & ws & q & q' & post & -> & Hws & Hq & Hq' & Hne & Hn).
  split; [exact Hne|]. split; [exact Hn|].
  apply declares_spec. exists pre, ws, q, q', post. auto.
Qed.

(** The keyword does not overlap itself: it starts inside a text that is
    followed by the keyword only where it starts inside the text alone. *)
Lemma keyword_no_border pre x :
  pre <> [] ->
  startswith (lit "module:") (pre ++ lit "module:" ++ x) = true ->
  startswith (lit "module:") pre = true.
Proof.
  intros Hne H. apply startswith_spec in H as [r H]. apply startswith_spec.
  rewrite keyword_codes in *.
  destruct pre as [|c1 pre]; [contradiction|].
  destruct pre as [|c2 pre]; [discriminate|].
  destruct pre as [|c3 pre]; [discriminate|].
  destruct pre as [|c4 pre]; [discriminate|].
  destruct pre as [|c5 pre]; [discriminate|].
  destruct pre as [|c6 pre]; [discriminate|].
  destruct pre as [|c7 pre]; [discriminate|].
  cbn [app] in H. injection H as -> -> -> -> -> -> -> _.
  exists pre. reflexivity.
Qed.

Lemma match_module_keyword s :
  startswith (lit "module:") s = false -> match_module s = None.
Proof.
  intros H. unfold match_module.
  destruct (after_prefix (lit "module:") s) as [r|] eqn:Ha; [|reflexivity].
  apply after_prefix_inv in Ha.
  assert (T : startswith (lit "module:") s = true)
    by (apply startswith_spec; eauto).
  congruence.
Qed.

Lemma findall_no_keyword text :
  contains (lit "module:") text = false -> findall_modules 0 text = [].
Proof.
  induction text as [|c r IH]; [reflexivity|].
  cbn [contains]. intros H. apply orb_false_iff in H as [Hs Hc].
  cbn [findall_modules]. rewrite (match_module_keyword _ Hs). apply IH, Hc.
Qed.

Lemma findall_before_keyword pre x :
  contains (lit "module:") pre = false ->
  findall_modules 0 (pre ++ lit "module:" ++ x)
  = findall_modules 0 (lit "module:" ++ x).
Proof.
  induction pre as [|c pre IH]; [reflexivity|].
  cbn [contains]. intros H. apply orb_false_iff in H as [Hs Hc].
  cbn [app findall_modules].
  rewrite match_module_keyword; [apply IH, Hc|].
  destruct (startswith (lit "module:") (c :: pre ++ lit "module:" ++ x)) eqn:E;
    [|reflexivity].
  apply (keyword_no_border (c :: pre) x) in E; [congruence | discriminate].
Qed.

(** X24: one declaration of the master record.  A text that begins with
    anything that does not contain the keyword [module:], followed by the
    keyword, whitespace, a quoted non-empty name without quotes, gives that
    name first, and then what the text behind the closing quote gives; a
    text without the keyword gives no name. *)
Theorem parse_master_modules_entry w pre ws q name q' post :
  contains (lit "module:") pre = false ->
  all_space ws -> is_quote q = true -> is_quote q' = true ->
  name <> [] -> no_quote name ->
  files w !! Master = Some (pre ++ lit "module:" ++ ws ++ q :: name ++ q' :: post) ->
  parse_master_modules w = (Ret (name :: findall_modules 0 post), w) /\
  (contains (lit "module:") post = false ->
   parse_master_modules w = (Ret [name], w)).
Proof.
  intros Hpre Hws Hq Hq' Hne Hn Hm.
  assert (E : parse_master_modules w = (Ret (name :: findall_modules 0 post), w)).
  { rewrite parse_master_modules_run, Hm.
    rewrite (findall_before_keyword _ _ Hpre), findall_unfold.
    rewrite (match_module_intro _ _ _ _ _ Hws Hq Hq' Hne Hn). reflexivity. }
  split; [exact E|]. intros Hpost. rewrite E, (findall_no_keyword _ Hpost).
  reflexivity.
Qed.

Lemma parse_master_modules_entry_witness :
  parse_master_modules
    (World (<[Master := lit "{ " ++ lit "module:" ++ lit " "
                        ++ dquote :: lit "clock" ++ dquote :: lit ", position: 'top' }"]> ∅)
       [])
  = (Ret (lit "clock" :: findall_modules 0 (lit ", position: 'top' }")),
     World (<[Master := lit "{ " ++ lit "module:" ++ lit " "
                        ++ dquote :: lit "clock" ++ dquote :: lit ", position: 'top' }"]> ∅)
       []) /\
  (contains (lit "module:") (lit ", position: 'top' }") = false ->
   parse_master_modules
     (World (<[Master := lit "{ " ++ lit "module:" ++ lit " "
                         ++ dquote :: lit "clock" ++ dquote :: lit ", position: 'top' }"]> ∅)
        [])
   = (Ret [lit "clock"],
      World (<[Master := lit "{ " ++ lit "module:" ++ lit " "
                          ++ dquote :: lit "clock" ++ dquote :: lit ", position: 'top' }"]> ∅)
        [])).
Proof.
  apply (parse_master_modules_entry _ (lit "{ ") (lit " ") dquote (lit "clock") dquote
           (lit ", position: 'top' }")).
  - vm_compute. reflexivity.
  - repeat constructor.
  - reflexivity.
  - reflexivity.
  - discriminate.
  - repeat constructor.
  - vm_compute. reflexivity.
Defined.

(** X25: the two tests for pages.  [test_module] asks whether [MMM-pages]
    is one of the names of [parse_master_modules], [modify_pages] asks
    [uses_pages], whether the master text contains it.  The first implies
    the second; the second does not imply the first. *)
Theorem uses_pages_parse_master_modules w text modules :
  files w !! Master = Some text ->
  fst (parse_master_modules w) = Ret modules ->
  (PAGES_MODULE ∈ modules -> uses_pages text = true) /\
  exists text',
    uses_pages text' = true /\ PAGES_MODULE ∉ findall_modules 0 text'.
Proof.
  intros Hm Hp. rewrite parse_master_modules_run, Hm in Hp. cbn [fst] in Hp.
  injection Hp as <-. split.
  - intros Hin.
    destruct (findall_names _ _ _ Hin) as (pre & ws & q & q' & post & -> & _).
    apply contains_spec.
    exists (pre ++ lit "module:" ++ ws ++ [q]), (q' :: post).
    repeat (rewrite <- app_assoc; cbn [app]). reflexivity.
  - exists (lit "// MMM-pages"). split; [vm_compute; reflexivity|].
    vm_compute. intros H. apply elem_of_nil in H. exact H.
Qed.

Lemma uses_pages_parse_master_modules_witness :
  (PAGES_MODULE ∈ findall_modules 0 (lit "module: 'MMM-pages'") ->
   uses_pages (lit "module: 'MMM-pages'") = true) /\
  exists text',
    uses_pages text' = true /\ PAGES_MODULE ∉ findall_modules 0 text'.
Proof.
  apply (uses_pages_parse_master_modules
           (World (<[Master := lit "module: 'MMM-pages'"]> ∅) [])
           (lit "module: 'MMM-pages'")).
  - vm_compute. reflexivity.
  - vm_compute. reflexivity.
Defined.

End MasterModules.

(** ** Selection helpers *)

Section Selection.

Implicit Types (w : world) (inp : entered).

Lemma getitem_lookup {A} (items : list A) (choice : Z) :
  1 <= choice ->
  getitem items (choice - 1)
  = match items !! Z.to_nat (choice - 1) with
    | Some x => Ret x
    | None => Raise IndexError
    end.
Proof.
  intros H. unfold getitem, index.
  destruct (Z.ltb_spec (choice - 1) 0); [lia | reflexivity].
Qed.

Lemma select_from_list_number {A} (items : list A) (choice : Z) :
  select_from_list items (Number choice)
  = Ret (if 1 <=? choice then items !! Z.to_nat (choice - 1) else None).
Proof.
  unfold select_from_list. destruct items as [|a items].
  { destruct (1 <=? choice); reflexivity. }
  destruct (Z.leb_spec 1 choice) as [H1|H1]; cbn [andb]; [|reflexivity].
  destruct (Z.leb_spec choice (Z.of_nat (length (a :: items)))) as [H2|H2].
  - rewrite getitem_lookup by exact H1.
    destruct (lookup_lt_is_Some_2 (a :: items) (Z.to_nat (choice - 1))) as [x Hx];
      [lia|].
    rewrite Hx. reflexivity.
  - rewrite lookup_ge_None_2 by lia. reflexivity.
Qed.

(** X26: [select_from_list] is safe.  It returns an item exactly when a
    number [choice >= 1] was entered that is a position of the list, and
    the item is the one at that position, counted from one; the index it
    uses is never out of range and never negative, so it raises nothing of
    its own: an exception leaves it only if [input] raised it and it is no
    [KeyboardInterrupt]. *)
Theorem select_from_list_safe {A} (items : list A) inp :
  (forall x,
     select_from_list items inp = Ret (Some x)
     <-> exists choice,
           inp = Number choice /\ 1 <= choice /\
           items !! Z.to_nat (choice - 1) = Some x) /\
  (forall e,
     select_from_list items inp = Raise e
     <-> items <> [] /\ inp = InputRaised e /\ e <> KeyboardInterrupt).
Proof.
  destruct inp as [choice| |e'].
  - rewrite select_from_list_number. split.
    + intros x. split.
      * intros [= H]. exists choice. split; [reflexivity|].
        destruct (Z.leb_spec 1 choice); [auto | discriminate].
      * intros (ch & [= <-] & H1 & Hx).
        destruct (Z.leb_spec 1 choice); [|lia]. rewrite Hx. reflexivity.
    + intros e. split; [discriminate|]. intros (_ & [=] & _).
  - split.
    + intros x. split.
      * destruct items; discriminate.
      * intros (ch & [=] & _).
    + intros e. split.
      * destruct items; discriminate.
      * intros (_ & [=] & _).
  - split.
    + intros x. split.
      * destruct items; [discriminate|]. destruct e'; discriminate.
      * intros (ch & [=] & _).
    + intros e. split.
      * destruct items as [|a items]; [discriminate|].
        destruct e'; intros [= <-]; repeat split; discriminate.
      * intros (Hne & [= ->] & Hk).
        destruct items as [|a items]; [contradiction|].
        destruct e; try reflexivity. contradiction.
Qed.

Lemma select_module_run inp w :
  select_module inp w
  = match files w !! Master with
    | Some text => (select_from_list (findall_modules 0 text) inp, w)
    | None => (Raise (FileNotFoundError Master), w)
    end.
Proof.
  unfold select_module.
  destruct (files w !! Master) as [text|] eqn:Hm.
  - assert (P : parse_master_modules w = (Ret (findall_modules 0 text), w))
      by (rewrite parse_master_modules_run, Hm; reflexivity).
    rewrite (io_bind_ret _ _ _ _ _ P).
    unfold select_from_list.
    destruct (findall_modules 0 text) as [|a ms]; [reflexivity|].
    destruct inp as [choice| |e]; try reflexivity.
    + destruct ((1 <=? choice) && (choice <=? Z.of_nat (length (a :: ms))));
        [|reflexivity].
      unfold io_bind, lift. destruct (getitem (a :: ms) (choice - 1)); reflexivity.
    + destruct e; reflexivity.
  - apply io_bind_raise. rewrite parse_master_modules_run, Hm. reflexivity.
Qed.

Lemma select_module_some inp w module :
  fst (select_module inp w) = Ret (Some module) ->
  exists text,
    files w !! Master = Some text /\
    select_module inp w = (Ret (Some module), w) /\
    module ∈ findall_modules 0 text.
Proof.
  rewrite select_module_run.
  destruct (files w !! Master) as [text|]; [|discriminate].
  cbn [fst]. intros H. exists text. split; [reflexivity|].
  split; [rewrite H; reflexivity|].
  destruct inp as [choice| |e].
  - rewrite select_from_list_number in H. injection H as H.
    destruct (1 <=? choice); [|discriminate].
    eapply list_elem_of_lookup_2. exact H.
  - destruct (findall_modules 0 text); discriminate.
  - destruct (findall_modules 0 text); [discriminate|]. destruct e; discriminate.
Qed.

(** X27: [select_module] is [select_from_list] on the names of the master
    record.  It changes nothing; and a module it returns is one of the
    names [parse_master_modules] finds in the master record, so it is
    never the empty string, and the test [module not in final_modules] of
    [test_module] is never true. *)
Theorem select_module_selected inp w :
  select_module inp w
  = io_bind parse_master_modules
      (fun modules => lift (select_from_list modules inp)) w /\
  snd (select_module inp w) = w /\
  forall module,
    fst (select_module inp w) = Ret (Some module) ->
    module <> [] /\
    exists master_modules,
      parse_master_modules w = (Ret master_modules, w) /\
      module ∈ master_modules /\
      (if bool_decide (module ∈ master_modules) then master_modules
       else master_modules ++ [module]) = master_modules.
Proof.
  split; [|split].
  - rewrite select_module_run, (surjective_pairing (io_bind _ _ w)).
    unfold io_bind. rewrite parse_master_modules_run.
    destruct (files w !! Master); reflexivity.
  - rewrite select_module_run. destruct (files w !! Master); reflexivity.
  - intros module H.
    destruct (select_module_some _ _ _ H) as (text & Hm & _ & Hin).
    split.
    + destruct (findall_names _ _ _ Hin) as (? & ? & ? & ? & ? & _ & _ & _ & _ & Hne & _).
      exact Hne.
    + exists (findall_modules 0 text).
      split; [rewrite parse_master_modules_run, Hm; reflexivity|].
      split; [exact Hin|].
      rewrite bool_decide_eq_true_2 by exact Hin. reflexivity.
Qed.

End Selection.

(** ** Menu actions *)

Section MenuActions.

Implicit Types (w : world) (inp : entered) (e asked : env) (modules : list str).

(** A transaction whose assembly and restart go through. *)
Lemma test_flow_run e modules allow_pages name allow_master_update w :
  resources_present modules allow_pages w ->
  run_mm_test_outcome e = Ret tt ->
  exists doc,
    generate_config modules allow_pages name w = (Ret tt, written ConfigJs doc w) /\
    test_flow e modules allow_pages name allow_master_update w
    = let w2 := written ConfigJs doc (backed_up w) in
      if allow_master_update then
        match typed e with
        | Raise x => (Raise x, w2)
        | Ret line =>
            if bool_decide (line = lit "y" \/ line = lit "Y")
            then (Ret true, written Master doc w2)
            else (Ret false, rolled_back w2)
        end
      else (Ret false, w2).
Proof.
  intros Hres V.
  destruct (generate_config_backed_up _ _ name _ Hres) as (doc & G0 & G).
  exists doc. split; [exact G0|].
  rewrite (test_flow_generated _ _ _ _ _ _ _ G). cbv zeta. rewrite V. reflexivity.
Qed.

Lemma resources_present_trial modules use_pages doc w :
  resources_present modules use_pages (written ConfigJs doc (backed_up w))
  <-> resources_present modules use_pages w.
Proof. rewrite resources_present_written. apply resources_present_backed_up. Qed.

Lemma confirm_declined asked line w :
  typed asked = Ret line -> line <> lit "y" -> line <> lit "Y" ->
  confirm asked w = (Ret false, w).
Proof.
  intros T Hy HY. rewrite confirm_run, T. cbn [mbind outcome_bind].
  rewrite bool_decide_eq_false_2 by (intros [?|?]; contradiction). reflexivity.
Qed.

Lemma confirm_accepted asked w : accepted asked -> confirm asked w = (Ret true, w).
Proof.
  intros A. rewrite confirm_run.
  destruct A as [-> | ->]; cbn [mbind outcome_bind];
    rewrite bool_decide_eq_true_2 by auto; reflexivity.
Qed.

Lemma filter_ne_not_elem (module : str) modules :
  module ∉ filter (fun m => m <> module) modules.
Proof. intros H. apply list_elem_of_filter in H as [H _]. apply H. reflexivity. Qed.

(** X28: the ways out of [remove_module].  Without a selection, and when
    the removal is not confirmed, nothing at all is changed (there is not
    even a backup).  Once confirmed, the action is one transaction with
    master update allowed and no paged section, whose plan is the names of
    the master record without the selected one, in their order; when that
    transaction goes through and is accepted, the master record and the
    active output hold the document assembled from that plan. *)
Theorem remove_module_outcomes inp asked e w text :
  files w !! Master = Some text ->
  (fst (select_module inp w) = Ret None ->
   remove_module inp asked e w = (Ret tt, w)) /\
  forall module,
    fst (select_module inp w) = Ret (Some module) ->
    let mods := filter (fun m => m <> module) (findall_modules 0 text) in
    (module ∉ mods) /\
    (forall line,
       typed asked = Ret line -> line <> lit "y" -> line <> lit "Y" ->
       remove_module inp asked e w = (Ret tt, w)) /\
    (accepted asked ->
     remove_module inp asked e w
     = io_bind (test_flow e mods false None true) (fun _ => io_ret tt) w /\
     (resources_present mods false w -> run_mm_test_outcome e = Ret tt ->
      accepted e ->
      exists doc,
        generate_config mods false None w = (Ret tt, written ConfigJs doc w) /\
        fst (remove_module inp asked e w) = Ret tt /\
        files (snd (remove_module inp asked e w)) !! Master = Some doc /\
        files (snd (remove_module inp asked e w)) !! ConfigJs = Some doc)).
Proof.
  intros Hm. split.
  { intros H. unfold remove_module.
    assert (S : select_module inp w = (Ret None, w)).
    { rewrite (surjective_pairing (select_module inp w)), H.
      rewrite select_module_run, Hm. reflexivity. }
    rewrite (io_bind_ret _ _ _ _ _ S). reflexivity. }
  intros module H. cbv zeta.
  destruct (select_module_some _ _ _ H) as (text' & Hm' & S & Hin).
  assert (text' = text) as -> by congruence.
  destruct (findall_names _ _ _ Hin)
    as (? & ? & ? & ? & ? & _ & _ & _ & _ & Hne & _).
  destruct module as [|c m]; [contradiction|].
  split; [apply filter_ne_not_elem|]. split.
  - intros line T Hy HY. unfold remove_module.
    rewrite (io_bind_ret _ _ _ _ _ S). cbv beta iota zeta.
    rewrite (io_bind_ret _ _ _ _ _ (confirm_declined _ _ w T Hy HY)). reflexivity.
  - intros A.
    assert (R : remove_module inp asked e w
                = io_bind (test_flow e
                             (filter (fun m0 => m0 <> c :: m) (findall_modules 0 text))
                             false None true)
                    (fun _ => io_ret tt) w).
    { unfold remove_module.
      rewrite (io_bind_ret _ _ _ _ _ S). cbv beta iota zeta.
      rewrite (io_bind_ret _ _ _ _ _ (confirm_accepted _ w A)). cbn [negb].
      assert (P : parse_master_modules w = (Ret (findall_modules 0 text), w))
        by (rewrite parse_master_modules_run, Hm; reflexivity).
      rewrite (io_bind_ret _ _ _ _ _ P). reflexivity. }
    split; [exact R|]. intros Hres V A'.
    destruct (test_flow_run e _ false None true w Hres V) as (doc & G & T).
    exists doc. split; [exact G|]. rewrite R.
    cbv zeta in T.
    assert (Ty : exists line, typed e = Ret line /\
                   bool_decide (line = lit "y" \/ line = lit "Y") = true).
    { destruct A' as [A'|A']; eexists; (split; [exact A'|]);
        apply bool_decide_eq_true_2; auto. }
    destruct Ty as (line & Ty & Y). rewrite Ty, Y in T.
    rewrite (io_bind_ret _ _ _ _ _ T). cbn [fst snd io_ret].
    split; [reflexivity|].
    split; [unfold written at 1; cbn [files]; apply lookup_insert_eq|].
    rewrite written_lookup_ne by discriminate.
    unfold written; cbn [files]; apply lookup_insert_eq.
Qed.

Lemma remove_module_outcomes_witness :
  (fst (select_module (Number 1) menu_world) = Ret None ->
   remove_module (Number 1) (env_answer "y") (env_answer "y") menu_world
   = (Ret tt, menu_world)) /\
  forall module,
    fst (select_module (Number 1) menu_world) = Ret (Some module) ->
    let mods := filter (fun m => m <> module)
                  (findall_modules 0 (lit "module: 'x', module: 'y'")) in
    (module ∉ mods) /\
    (forall line,
       typed (env_answer "y") = Ret line -> line <> lit "y" -> line <> lit "Y" ->
       remove_module (Number 1) (env_answer "y") (env_answer "y") menu_world
       = (Ret tt, menu_world)) /\
    (accepted (env_answer "y") ->
     remove_module (Number 1) (env_answer "y") (env_answer "y") menu_world
     = io_bind (test_flow (env_answer "y") mods false None true)
         (fun _ => io_ret tt) menu_world /\
     (resources_present mods false menu_world ->
      run_mm_test_outcome (env_answer "y") = Ret tt ->
      accepted (env_answer "y") ->
      exists doc,
        generate_config mods false None menu_world
        = (Ret tt, written ConfigJs doc menu_world) /\
        fst (remove_module (Number 1) (env_answer "y") (env_answer "y") menu_world)
        = Ret tt /\
        files (snd (remove_module (Number 1) (env_answer "y") (env_answer "y")
                      menu_world)) !! Master = Some doc /\
        files (snd (remove_module (Number 1) (env_answer "y") (env_answer "y")
                      menu_world)) !! ConfigJs = Some doc)).
Proof.
  apply (remove_module_outcomes (Number 1) (env_answer "y") (env_answer "y")
           menu_world (lit "module: 'x', module: 'y'")).
  vm_compute. reflexivity.
Defined.

(** X29: what a declined [test_module] leaves in [config.js].  A module of
    the master record is selected, the master record does not use pages,
    and the test of the module alone goes through.  If the test with the
    full master is then declined, the rollback restores the active output
    of before the action.  If it is run and its update of the master
    record is declined, the rollback restores the backup that this last
    transaction made, and that is the output of the test of the module
    alone: [config.js] ends as the single-module document, not as it was
    before the action.  The master record is unchanged either way. *)
Theorem test_module_declined inp e1 asked_pages e2 asked_full e3 w text c module :
  files w !! Master = Some text ->
  files w !! ConfigJs = Some c ->
  fst (select_module inp w) = Ret (Some module) ->
  PAGES_MODULE ∉ findall_modules 0 text ->
  resources_present [module] false w ->
  run_mm_test_outcome e1 = Ret tt ->
  exists doc1,
    generate_config [module] false None w = (Ret tt, written ConfigJs doc1 w) /\
    (forall line,
       typed asked_full = Ret line -> line <> lit "y" -> line <> lit "Y" ->
       fst (test_module inp e1 asked_pages e2 asked_full e3 w) = Ret tt /\
       files (snd (test_module inp e1 asked_pages e2 asked_full e3 w)) !! ConfigJs
       = Some c /\
       files (snd (test_module inp e1 asked_pages e2 asked_full e3 w)) !! Master
       = Some text) /\
    (accepted asked_full ->
     resources_present (findall_modules 0 text) false w ->
     run_mm_test_outcome e3 = Ret tt ->
     forall line,
       typed e3 = Ret line -> line <> lit "y" -> line <> lit "Y" ->
       fst (test_module inp e1 asked_pages e2 asked_full e3 w) = Ret tt /\
       files (snd (test_module inp e1 asked_pages e2 asked_full e3 w)) !! ConfigJs
       = Some doc1 /\
       files (snd (test_module inp e1 asked_pages e2 asked_full e3 w)) !! Master
       = Some text).
Proof.
  intros Hm Hc H Hpages Hres1 V1.
  destruct (select_module_some _ _ _ H) as (text' & Hm' & S & Hin).
  assert (text' = text) as -> by congruence.
  destruct (findall_names _ _ _ Hin)
    as (? & ? & ? & ? & ? & _ & _ & _ & _ & Hne & _).
  destruct module as [|c0 m]; [contradiction|].
  destruct (test_flow_run e1 _ false None false w Hres1 V1) as (doc1 & G1 & T1).
  cbv zeta in T1. set (w1 := written ConfigJs doc1 (backed_up w)) in *.
  exists doc1. split; [exact G1|].
  destruct (backed_up_baks _ _ _ Hm Hc) as [Bm Bc].
  assert (P : parse_master_modules w = (Ret (findall_modules 0 text), w))
    by (rewrite parse_master_modules_run, Hm; reflexivity).
  assert (Start :
    test_module inp e1 asked_pages e2 asked_full e3 w
    = io_bind (confirm asked_full)
        (fun ok =>
           if negb ok then rollback
           else
             io_bind (test_flow e3 (findall_modules 0 text) false None true)
               (fun _ => io_ret tt)) w1).
  { unfold test_module.
    rewrite (io_bind_ret _ _ _ _ _ S). cbv beta iota zeta.
    rewrite (io_bind_ret _ _ _ _ _ P).
    rewrite (io_bind_ret _ _ _ _ _ T1).
    rewrite (bool_decide_eq_false_2 _ Hpages).
    rewrite (io_bind_ret _ _ _ _ _ (eq_refl : io_ret tt w1 = (Ret tt, w1))).
    rewrite (bool_decide_eq_true_2 _ Hin). reflexivity. }
  assert (M1 : files w1 !! Master = Some text).
  { unfold w1. rewrite written_lookup_ne, backed_up_lookup by discriminate. exact Hm. }
  assert (C1 : files w1 !! ConfigJs = Some doc1).
  { unfold w1, written. cbn [files]. apply lookup_insert_eq. }
  split.
  - intros line T Hy HY. rewrite Start.
    rewrite (io_bind_ret _ _ _ _ _ (confirm_declined _ _ w1 T Hy HY)). cbn [negb].
    rewrite rollback_run. cbn [fst snd]. split; [reflexivity|].
    apply and_comm.
    apply rolled_back_restores; unfold w1; rewrite written_lookup_ne by discriminate;
      assumption.
  - intros A Hres3 V3 line T Hy HY. rewrite Start.
    rewrite (io_bind_ret _ _ _ _ _ (confirm_accepted _ w1 A)). cbn [negb].
    assert (Hres3' : resources_present (findall_modules 0 text) false w1)
      by (apply resources_present_trial; exact Hres3).
    destruct (test_flow_run e3 _ false None true w1 Hres3' V3) as (doc3 & _ & T3).
    cbv zeta in T3. rewrite T in T3.
    rewrite bool_decide_eq_false_2 in T3 by (intros [?|?]; contradiction).
    rewrite (io_bind_ret _ _ _ _ _ T3). cbn [fst snd io_ret].
    split; [reflexivity|].
    destruct (backed_up_baks _ _ _ M1 C1) as [Bm1 Bc1].
    apply and_comm.
    apply rolled_back_restores; rewrite written_lookup_ne by discriminate; assumption.
Qed.

Lemma test_module_declined_witness :
  exists doc1,
    generate_config [lit "x"] false None menu_world
    = (Ret tt, written ConfigJs doc1 menu_world) /\
    (forall line,
       typed (env_answer "y") = Ret line -> line <> lit "y" -> line <> lit "Y" ->
       fst (test_module (Number 1) (env_answer "n") (env_answer "n") (env_answer "n")
              (env_answer "y") (env_answer "n") menu_world) = Ret tt /\
       files (snd (test_module (Number 1) (env_answer "n") (env_answer "n")
                     (env_answer "n") (env_answer "y") (env_answer "n") menu_world))
         !! ConfigJs = Some (lit "old config") /\
       files (snd (test_module (Number 1) (env_answer "n") (env_answer "n")
                     (env_answer "n") (env_answer "y") (env_answer "n") menu_world))
         !! Master = Some (lit "module: 'x', module: 'y'")) /\
    (accepted (env_answer "y") ->
     resources_present (findall_modules 0 (lit "module: 'x', module: 'y'")) false
       menu_world ->
     run_mm_test_outcome (env_answer "n") = Ret tt ->
     forall line,
       typed (env_answer "n") = Ret line -> line <> lit "y" -> line <> lit "Y" ->
       fst (test_module (Number 1) (env_answer "n") (env_answer "n") (env_answer "n")
              (env_answer "y") (env_answer "n") menu_world) = Ret tt /\
       files (snd (test_module (Number 1) (env_answer "n") (env_answer "n")
                     (env_answer "n") (env_answer "y") (env_answer "n") menu_world))
         !! ConfigJs = Some doc1 /\
       files (snd (test_module (Number 1) (env_answer "n") (env_answer "n")
                     (env_answer "n") (env_answer "y") (env_answer "n") menu_world))
         !! Master = Some (lit "module: 'x', module: 'y'")).
Proof.
  apply (test_module_declined (Number 1) (env_answer "n") (env_answer "n")
           (env_answer "n") (env_answer "y") (env_answer "n") menu_world
           (lit "module: 'x', module: 'y'") (lit "old config") (lit "x")).
  - vm_compute. reflexivity.
  - vm_compute. reflexivity.
  - vm_compute. reflexivity.
  - vm_compute. intros H. repeat (apply elem_of_cons in H as [H|H]; [discriminate|]).
    apply elem_of_nil in H. exact H.
  - repeat split.
    + vm_compute. eauto.
    + vm_compute. eauto.
    + repeat constructor. vm_compute. eauto.
    + discriminate.
  - vm_compute. reflexivity.
Defined.

(** X30: the two stubs change nothing.  [change_params] and
    [modify_pages] write no file; [modify_pages] returns exactly when there
    is a master record to read, and [change_params] exactly when the
    selection returns, with or without a module. *)
Theorem menu_stubs_read_only inp w :
  snd (change_params inp w) = w /\
  snd (modify_pages w) = w /\
  (fst (modify_pages w) = Ret tt <-> is_Some (files w !! Master)) /\
  (fst (change_params inp w) = Ret tt
   <-> exists module, fst (select_module inp w) = Ret module).
Proof.
  assert (C : change_params inp w
              = (match fst (select_module inp w) with
                 | Ret _ => Ret tt
                 | Raise x => Raise x
                 end, w)).
  { unfold change_params, io_bind. rewrite select_module_run.
    destruct (files w !! Master) as [text|]; [|reflexivity]. cbn [fst].
    destruct (select_from_list (findall_modules 0 text) inp) as [[[|c m]|]|x];
      reflexivity. }
  assert (M : modify_pages w
              = (match files w !! Master with
                 | Some _ => Ret tt
                 | None => Raise (FileNotFoundError Master)
                 end, w)).
  { unfold modify_pages, io_bind, read_text.
    destruct (files w !! Master) as [text|]; [|reflexivity].
    destruct (uses_pages text); reflexivity. }
  rewrite C, M. cbn [fst snd]. split; [reflexivity|]. split; [reflexivity|]. split.
  - destruct (files w !! Master) as [text|]; split; eauto; try discriminate.
    intros [? ?]. discriminate.
  - destruct (fst (select_module inp w)) as [r|x]; split; eauto; try discriminate.
    intros [? ?]. discriminate.
Qed.

End MenuActions.
